(** * Philosophical RPG front-end (src/Game.tsx): a shallow embedding

    The file follows the layout of [Game.tsx]: the type definitions, the API
    communication layer, the [PhilosophicalRPG] component with its handlers,
    the [useGameState] hook, the [DevPanel] and the [Game] wrapper.

    Conventions of the embedding.
    - A JavaScript [string] is a Rocq [string], read as a sequence of 8-bit
      code units (every string literal of the source is ASCII).
    - A JavaScript [number] is a rational ([Q]); the client carries numbers
      around and compares one random draw with a literal, it never does
      arithmetic on game data.
    - [T | null] is [option T]; [None] also stands for [undefined].
    - The backend is not part of the program: what it answers is an input
      ([FetchOutcome]).  Bodies are typed as the TypeScript interfaces and
      the HTTP contract type them; a field the source declares [any]
      ([combatOutcome], [updatedPlayer], the [playerState] of a state
      update) is taken to be present, and what is proved of the states the
      page can reach is proved for such answers.
    - An [async] handler is split at its single [await]: the request it
      sends, and the continuation that is run when the promise settles.
      The continuation is applied to the state current _at that time_. *)

From Stdlib Require Import String Ascii List ZArith QArith Bool Lia DecimalString.
Import ListNotations.
Open Scope string_scope.
Open Scope list_scope.

(* ========================================================================= *)
(** * JavaScript strings                                                      *)
(* ========================================================================= *)

Definition number := Q.

(** White space as [String.prototype.trim] sees it, among 8-bit code units:
    TAB, LF, VT, FF, CR, SPACE and NBSP. *)
Definition isWhiteSpace (c : ascii) : bool :=
  let n := N_of_ascii c in
  ((9 <=? n) && (n <=? 13) || (n =? 32) || (n =? 160))%N.

Fixpoint trimStart (s : string) : string :=
  match s with
  | EmptyString => EmptyString
  | String c r => if isWhiteSpace c then trimStart r else s
  end.

Fixpoint trimEnd (s : string) : string :=
  match s with
  | EmptyString => EmptyString
  | String c r =>
      match trimEnd r with
      | EmptyString => if isWhiteSpace c then EmptyString else String c EmptyString
      | r' => String c r'
      end
  end.

Definition trim (s : string) : string := trimEnd (trimStart s).

(** A string is truthy when it is not empty. *)
Definition truthy_string (s : string) : bool :=
  match s with EmptyString => false | String _ _ => true end.

Fixpoint allWhiteSpace (s : string) : bool :=
  match s with
  | EmptyString => true
  | String c r => isWhiteSpace c && allWhiteSpace r
  end.

(** [toLowerCase] on 8-bit code units: A-Z, and the Latin-1 capitals
    U+00C0..U+00DE without the multiplication sign U+00D7. *)
Definition lowerChar (c : ascii) : ascii :=
  let n := N_of_ascii c in
  if ((65 <=? n) && (n <=? 90) || (192 <=? n) && (n <=? 222) && negb (n =? 215))%N
  then ascii_of_N (n + 32) else c.

Fixpoint toLowerCase (s : string) : string :=
  match s with
  | EmptyString => EmptyString
  | String c r => String (lowerChar c) (toLowerCase r)
  end.

(** [`${n}`] for an integer-valued number. *)
Definition string_of_status (n : Z) : string := NilZero.string_of_int (Z.to_int n).

(* ========================================================================= *)
(** * Type definitions (lines 11-118 of the source)                           *)
(* ========================================================================= *)

Inductive PhilosophicalAlignment := Utilitarian | Existentialist | Nihilist | Undecided.
Inductive PermanentMarker := Hypocrite | Hedonist | Sophist | Martyr.
Inductive ItemType := Weapon | Armor | Accessory | Consumable.
Inductive Difficulty := Easy | Medium | Hard | Expert.

Inductive FallacyType :=
| AdHominem
| AppealToAuthority
| Equivocation
| StrawMan
| FalseDialemma
| SlipperySlope
| CircularReasoning
| AppealToConsequences.

Definition PermanentMarker_eqb (a b : PermanentMarker) : bool :=
  match a, b with
  | Hypocrite, Hypocrite | Hedonist, Hedonist | Sophist, Sophist | Martyr, Martyr => true
  | _, _ => false
  end.

Definition alignment_name (a : PhilosophicalAlignment) : string :=
  match a with
  | Utilitarian => "Utilitarian"
  | Existentialist => "Existentialist"
  | Nihilist => "Nihilist"
  | Undecided => "Undecided"
  end.

Module LogEntry.
Record t := { timestamp : string; choice : string; impact : number; reason : string }.
End LogEntry.

Module AuthenticityMetric.
Record t := {
  value : number;
  history : list LogEntry.t;
  permanentMarkers : list PermanentMarker
}.
End AuthenticityMetric.

Module TemporaryEffect.
Record t := { duration : number; statBonus : number; penalty : number }.
End TemporaryEffect.

Module Item.
Record t := {
  itemId : string;
  name : string;
  itemType : ItemType;
  bodyModifier : number;
  mindModifier : number;
  heartModifier : number;
  authenticityImpact : number;
  temporaryEffect : option TemporaryEffect.t;
  description : string;
  philosophicalMeaning : string
}.
End Item.

Module Fallacy.
Record t := {
  fallacyType : FallacyType;
  argument : string;
  correctIdentification : string;
  explanation : string;
  damage : number
}.
End Fallacy.

Module PlayerState.
Record t := {
  playerId : string;
  name : string;
  body : number;
  mind : number;
  heart : number;
  hitPoints : number;
  maxHitPoints : number;
  authenticityMetric : AuthenticityMetric.t;
  philosophicalAlignment : PhilosophicalAlignment;
  inventory : list Item.t;
  equippedFallacies : list Fallacy.t;
  experience : number;
  level : number;
  activeEffects : list TemporaryEffect.t
}.
End PlayerState.

Module Enemy.
Record t := {
  enemyId : string;
  name : string;
  historicalFigure : string;
  representedFlaw : FallacyType;
  hitPoints : number;
  maxHitPoints : number;
  weakness : FallacyType;
  lore : string
}.
End Enemy.

Module Choice.
Record t := {
  choiceId : string;
  text : string;
  alignmentInfluence : PhilosophicalAlignment;
  authenticityChange : number;
  reasoning : string
}.
End Choice.

Module Scenario.
Record t := {
  scenarioId : string;
  title : string;
  description : string;
  choices : list Choice.t;
  philosophicalBasis : string
}.
End Scenario.

(** The source declares one interface [CombatOutcome] for two shapes: the
    outcome proper (success, damage, explanation, experienceGained), which
    is what [lastCombatResult] holds and the overlay renders, and the
    envelope answered by [/combat/syllogism] (combatOutcome, updatedPlayer,
    continuesCombat, all of type [any]).  They are two records here. *)
Module CombatOutcome.
Record t := {
  success : bool;
  damage : number;
  explanation : string;
  experienceGained : number
}.
End CombatOutcome.

Module CombatResponse.
Record t := {
  combatOutcome : CombatOutcome.t;
  updatedPlayer : PlayerState.t;
  continuesCombat : bool
}.
End CombatResponse.

(** The answer of [/action] is [any] in the source; the handler reads its
    [type] and, under the tag ['StateUpdate'], its [playerState].  A
    response with another tag carries no player state the client reads. *)
Inductive ActionResponse :=
| StateUpdate (playerState : PlayerState.t)
| OtherResponse (tag : string).

Definition response_type (r : ActionResponse) : string :=
  match r with
  | StateUpdate _ => "StateUpdate"
  | OtherResponse tag => tag
  end.

(** [response.playerState]: [undefined] on a response that has none. *)
Definition response_playerState (r : ActionResponse) : option PlayerState.t :=
  match r with
  | StateUpdate p => Some p
  | OtherResponse _ => None
  end.

(** The [action] argument of [submitGameAction]. *)
Module GameAction.
Record t := {
  type : string;
  scenarioId : option string;
  choiceId : option string;
  syllogismId : option string;
  playerAnswer : option bool;
  enemyId : option string
}.
End GameAction.

(* ========================================================================= *)
(** * JSON values, requests, responses, promises                              *)
(* ========================================================================= *)

(** The argument of [JSON.stringify]; an object keeps its properties in
    insertion order. *)
#[warnings="-register-all"]
Inductive json :=
| JNull
| JBool (b : bool)
| JNumber (n : number)
| JString (s : string)
| JArray (items : list json)
| JObject (fields : list (string * json)).

Fixpoint assoc {A} (k : string) (l : list (string * A)) : option A :=
  match l with
  | [] => None
  | (k', v) :: r => if String.eqb k k' then Some v else assoc k r
  end.

(** [o.k] on a JSON value. *)
Definition field (k : string) (o : json) : option json :=
  match o with
  | JObject fields => assoc k fields
  | _ => None
  end.

(** [JSON.stringify] leaves out the properties whose value is [undefined]. *)
Definition defined {A} (k : string) (to_json : A -> json) (v : option A)
  : list (string * json) :=
  match v with
  | Some x => [(k, to_json x)]
  | None => []
  end.

Module RequestInit.
Record t := {
  method : option string;
  headers : option (list (string * string));
  body : option json
}.
(** [{}], the default of [options]. *)
Definition empty : t := {| method := None; headers := None; body := None |}.
End RequestInit.

(** The two arguments of a call of [fetch]. *)
Record Request := { url : string; init : RequestInit.t }.

(** What the network hands back.  [ok] is derived from the status as the
    Fetch standard defines it; [jsonBody] is what [response.json()] yields,
    [None] when it rejects (the body is not JSON of the expected type). *)
Record Response (T : Type) := {
  status : Z;
  statusText : string;
  jsonBody : option T
}.
Arguments status {T} _.
Arguments statusText {T} _.
Arguments jsonBody {T} _.

Definition ok {T} (r : Response T) : bool :=
  ((200 <=? status r) && (status r <=? 299))%Z.

Inductive JsError :=
| Error (message : string)
| TypeError (message : string)
| SyntaxError (message : string).

(** [err.message]; every value of [JsError] is an [instanceof Error]. *)
Definition message (e : JsError) : string :=
  match e with Error m | TypeError m | SyntaxError m => m end.

Inductive FetchOutcome (T : Type) :=
| FetchFailed (e : JsError)        (* [fetch] itself rejects: no response *)
| FetchResponse (r : Response T).
Arguments FetchFailed {T} _.
Arguments FetchResponse {T} _.

Inductive Settled (A : Type) :=
| Fulfilled (v : A)
| Rejected (e : JsError).
Arguments Fulfilled {A} _.
Arguments Rejected {A} _.

(** A promise obtained from one call of [fetch]: the request that was sent,
    and how the promise settles once the network outcome [E] is known. *)
Record Promise (E A : Type) := {
  sent : Request;
  settle : E -> Settled A
}.
Arguments sent {E A} _.
Arguments settle {E A} _ _.

Definition fetch {T} (u : string) (i : RequestInit.t)
  : Promise (FetchOutcome T) (Response T) :=
  {| sent := {| url := u; init := i |};
     settle := fun o =>
       match o with
       | FetchFailed e => Rejected e
       | FetchResponse r => Fulfilled r
       end |}.

(** [p.then(f)]: a rejection of [p] passes through, a [throw] in [f] or a
    rejected promise returned by [f] rejects the result. *)
Definition then_ {E A B} (p : Promise E A) (f : A -> Settled B) : Promise E B :=
  {| sent := sent p;
     settle := fun o =>
       match settle p o with
       | Fulfilled a => f a
       | Rejected e => Rejected e
       end |}.

Definition throw {A} (e : JsError) : Settled A := Rejected e.

(** [response.json()]. *)
Definition json_ {T} (r : Response T) : Settled T :=
  match jsonBody r with
  | Some v => Fulfilled v
  | None => Rejected (SyntaxError "Unexpected end of JSON input")
  end.

(* ========================================================================= *)
(** * API communication layer (lines 124-205)                                 *)
(* ========================================================================= *)

Definition API_BASE : string := "http://localhost:8080/api".

Definition createHeaders (_ : unit) : list (string * string) :=
  [("Content-Type", "application/json"); ("Accept", "application/json")].

(** [{ headers: createHeaders(), ...options }] *)
Definition with_default_headers (options : RequestInit.t) : RequestInit.t :=
  {| RequestInit.method := RequestInit.method options;
     RequestInit.headers :=
       match RequestInit.headers options with
       | Some h => Some h
       | None => Some (createHeaders tt)
       end;
     RequestInit.body := RequestInit.body options |}.

Definition apiRequest {T} (endpoint : string) (options : RequestInit.t)
  : Promise (FetchOutcome T) T :=
  then_ (fetch (API_BASE ++ endpoint) (with_default_headers options))
    (fun response =>
       if negb (ok response)
       then throw (Error ("API Error: " ++ string_of_status (status response)
                            ++ " " ++ statusText response))
       else json_ response).

Definition post (b : json) : RequestInit.t :=
  {| RequestInit.method := Some "POST";
     RequestInit.headers := None;
     RequestInit.body := Some b |}.

Definition createPlayer (name : string) (alignment : PhilosophicalAlignment)
  : Promise (FetchOutcome PlayerState.t) PlayerState.t :=
  apiRequest "/player/create"
    (post (JObject [("playerName", JString name);
                    ("initialAlignment", JString (alignment_name alignment))])).

Definition getPlayerState (playerId : string)
  : Promise (FetchOutcome PlayerState.t) PlayerState.t :=
  apiRequest ("/player/" ++ playerId) RequestInit.empty.

Definition json_of_action (a : GameAction.t) : json :=
  JObject ([("type", JString (GameAction.type a))]
           ++ defined "scenarioId" JString (GameAction.scenarioId a)
           ++ defined "choiceId" JString (GameAction.choiceId a)
           ++ defined "syllogismId" JString (GameAction.syllogismId a)
           ++ defined "playerAnswer" JBool (GameAction.playerAnswer a)
           ++ defined "enemyId" JString (GameAction.enemyId a)).

Definition submitGameAction (playerId : string) (action : GameAction.t)
  : Promise (FetchOutcome ActionResponse) ActionResponse :=
  apiRequest "/action"
    (post (JObject [("playerId", JString playerId);
                    ("action", json_of_action action)])).

Definition getScenarios (_ : unit)
  : Promise (FetchOutcome (list Scenario.t)) (list Scenario.t) :=
  apiRequest "/scenarios" RequestInit.empty.

Definition resolveSyllogismCombat
  (playerId syllogismId : string) (answer : bool) (enemyId : string)
  : Promise (FetchOutcome CombatResponse.t) CombatResponse.t :=
  apiRequest "/combat/syllogism"
    (post (JObject [("requestPlayerId", JString playerId);
                    ("syllogismId", JString syllogismId);
                    ("playerAnswer", JBool answer);
                    ("enemyId", JString enemyId)])).

(* ========================================================================= *)
(** * The PhilosophicalRPG component (lines 215-1192)                         *)
(* ========================================================================= *)

Inductive GamePhase := character_creation | exploration | combat | scenario | ending.

(** The six [useState] cells of the component. *)
Record ClientState := {
  playerState : option PlayerState.t;
  currentScenario : option Scenario.t;
  currentEnemy : option Enemy.t;
  gamePhase : GamePhase;
  sidebarCollapsed : bool;
  lastCombatResult : option CombatOutcome.t
}.

Definition initialClientState : ClientState :=
  {| playerState := None;
     currentScenario := None;
     currentEnemy := None;
     gamePhase := character_creation;
     sidebarCollapsed := false;
     lastCombatResult := None |}.

Definition setPlayerState (v : option PlayerState.t) (s : ClientState) : ClientState :=
  {| playerState := v;
     currentScenario := currentScenario s;
     currentEnemy := currentEnemy s;
     gamePhase := gamePhase s;
     sidebarCollapsed := sidebarCollapsed s;
     lastCombatResult := lastCombatResult s |}.

Definition setCurrentScenario (v : option Scenario.t) (s : ClientState) : ClientState :=
  {| playerState := playerState s;
     currentScenario := v;
     currentEnemy := currentEnemy s;
     gamePhase := gamePhase s;
     sidebarCollapsed := sidebarCollapsed s;
     lastCombatResult := lastCombatResult s |}.

Definition setCurrentEnemy (v : option Enemy.t) (s : ClientState) : ClientState :=
  {| playerState := playerState s;
     currentScenario := currentScenario s;
     currentEnemy := v;
     gamePhase := gamePhase s;
     sidebarCollapsed := sidebarCollapsed s;
     lastCombatResult := lastCombatResult s |}.

Definition setGamePhase (v : GamePhase) (s : ClientState) : ClientState :=
  {| playerState := playerState s;
     currentScenario := currentScenario s;
     currentEnemy := currentEnemy s;
     gamePhase := v;
     sidebarCollapsed := sidebarCollapsed s;
     lastCombatResult := lastCombatResult s |}.

Definition setSidebarCollapsed (v : bool) (s : ClientState) : ClientState :=
  {| playerState := playerState s;
     currentScenario := currentScenario s;
     currentEnemy := currentEnemy s;
     gamePhase := gamePhase s;
     sidebarCollapsed := v;
     lastCombatResult := lastCombatResult s |}.

Definition setLastCombatResult (v : option CombatOutcome.t) (s : ClientState) : ClientState :=
  {| playerState := playerState s;
     currentScenario := currentScenario s;
     currentEnemy := currentEnemy s;
     gamePhase := gamePhase s;
     sidebarCollapsed := sidebarCollapsed s;
     lastCombatResult := v |}.

(** Statements in sequence: [s |> f |> g] runs [f], then [g]. *)
Notation "s |> f" := (f s) (at level 45, left associativity, only parsing).

Inductive ConsoleEntry :=
| console_error (label : string) (error : JsError)
| console_log (text : string).

Definition Console := list ConsoleEntry.

(** One activation of an [async] function with at most one [await].
    [Returned]: the function returned before sending anything.
    [Awaiting before req resume]: it ran [before] on the state, sent [req],
    and will run [resume] on the outcome and on the state of that moment. *)
Inductive Async (E S : Type) :=
| Returned
| Awaiting (before : S -> S) (req : Request) (resume : E -> S -> S * Console).
Arguments Returned {E S}.
Arguments Awaiting {E S} _ _ _.

(** [try { const x = await p; body } catch (error) { handler }] *)
Definition try_await {E A S} (p : Promise E A)
  (body : A -> S -> S) (handler : JsError -> Console) : Async E S :=
  Awaiting (fun s => s) (sent p)
    (fun o s =>
       match settle p o with
       | Fulfilled x => (body x s, [])
       | Rejected error => (s, handler error)
       end).

(** Lines 231-239. *)
Definition handleCreatePlayer (name : string) (alignment : PhilosophicalAlignment)
  : Async (FetchOutcome PlayerState.t) ClientState :=
  try_await (createPlayer name alignment)
    (fun newPlayer s =>
       s |> setPlayerState (Some newPlayer)
         |> setGamePhase exploration)
    (fun error => [console_error "Failed to create player:" error]).

(** Lines 245-263. *)
Definition handleScenarioChoice (choiceId : string) (s : ClientState)
  : Async (FetchOutcome ActionResponse) ClientState :=
  match playerState s, currentScenario s with
  | Some player, Some sc =>
      try_await
        (submitGameAction (PlayerState.playerId player)
           {| GameAction.type := "MakeChoice";
              GameAction.scenarioId := Some (Scenario.scenarioId sc);
              GameAction.choiceId := Some choiceId;
              GameAction.syllogismId := None;
              GameAction.playerAnswer := None;
              GameAction.enemyId := None |})
        (fun response s' =>
           if response_type response =? "StateUpdate"
           then s' |> setPlayerState (response_playerState response)
                   |> setCurrentScenario None
                   |> setGamePhase exploration
           else s')
        (fun error => [console_error "Failed to process choice:" error])
  | _, _ => Returned
  end.

(** Lines 269-290. *)
Definition handleSyllogismAnswer (answer : bool) (s : ClientState)
  : Async (FetchOutcome CombatResponse.t) ClientState :=
  match playerState s, currentEnemy s with
  | Some player, Some enemy =>
      try_await
        (resolveSyllogismCombat
           (PlayerState.playerId player)
           "current_syllogism"
           answer
           (Enemy.enemyId enemy))
        (fun result s' =>
           let s' := s' |> setLastCombatResult (Some (CombatResponse.combatOutcome result))
                        |> setPlayerState (Some (CombatResponse.updatedPlayer result)) in
           if negb (CombatResponse.continuesCombat result)
           then s' |> setCurrentEnemy None
                   |> setGamePhase exploration
           else s')
        (fun error => [console_error "Failed to resolve combat:" error])
  | _, _ => Returned
  end.

(** The syllogism the combat overlay shows (lines 936-942): a constant of
    the component.  Its fields are rendered, [isValid] is not read by any
    handler. *)
Module CombatOverlay.
Record Syllogism := {
  premise1 : string;
  premise2 : string;
  conclusion : string;
  isValid : bool;
  difficulty : Difficulty
}.
Definition currentSyllogism : Syllogism :=
  {| premise1 := "All social conventions are meaningless";
     premise2 := "You follow social conventions";
     conclusion := "Therefore, you are meaningless";
     isValid := false;
     difficulty := Medium |}.
End CombatOverlay.

(** The button of [CharacterCreation] (line 485):
    [name.trim() && handleCreatePlayer(name, selectedAlignment)]. *)
Definition beginJourney (name : string) (selectedAlignment : PhilosophicalAlignment)
  : Async (FetchOutcome PlayerState.t) ClientState :=
  if truthy_string (trim name)
  then handleCreatePlayer name selectedAlignment
  else Returned.

(** Its [disabled] attribute (line 486). *)
Definition beginJourney_disabled (name : string) : bool :=
  negb (truthy_string (trim name)).

(** The enemy and the scenario built by the space bar (lines 1047-1088). *)
Definition ghost_diogenes : Enemy.t :=
  {| Enemy.enemyId := "ghost_diogenes";
     Enemy.name := "Ghost of Diogenes the Cynic";
     Enemy.historicalFigure := "Diogenes of Sinope (c. 412-323 BCE)";
     Enemy.representedFlaw := AdHominem;
     Enemy.hitPoints := 25;
     Enemy.maxHitPoints := 25;
     Enemy.weakness := AdHominem;
     Enemy.lore := "Ancient Greek philosopher known for rejecting social conventions through provocative behavior. In undeath, his valid criticism of society has degraded into mere personal attacks without philosophical substance." |}.

Definition trolley_problem : Scenario.t :=
  {| Scenario.scenarioId := "trolley_problem";
     Scenario.title := "The Trolley Problem";
     Scenario.description := "A runaway trolley is heading toward five people tied to the tracks. You can pull a lever to divert it to a side track, where it will kill one person instead. Do you pull the lever?";
     Scenario.choices :=
       [ {| Choice.choiceId := "pull_lever";
            Choice.text := "Pull the lever - save five lives by sacrificing one";
            Choice.alignmentInfluence := Utilitarian;
            Choice.authenticityChange := 5;
            Choice.reasoning := "Utilitarian calculus: greatest good for greatest number justifies action" |};
         {| Choice.choiceId := "dont_pull";
            Choice.text := "Don't pull the lever - refuse to directly cause someone's death";
            Choice.alignmentInfluence := Existentialist;
            Choice.authenticityChange := 3;
            Choice.reasoning := "Existentialist emphasis on personal responsibility and authenticity of choice" |};
         {| Choice.choiceId := "walk_away";
            Choice.text := "Walk away - none of this matters anyway";
            Choice.alignmentInfluence := Nihilist;
            Choice.authenticityChange := 2;
            Choice.reasoning := "Nihilistic rejection of moral frameworks as meaningless constructs" |} ];
     Scenario.philosophicalBasis := "Classic thought experiment in utilitarian ethics, first introduced by philosopher Philippa Foot in 1967" |}.

(** [x < y] on numbers. *)
Definition number_lt (x y : number) : bool := negb (Qle_bool y x).

Definition is_scenario_or_combat (g : GamePhase) : bool :=
  match g with scenario | combat => true | _ => false end.

Definition is_exploration (g : GamePhase) : bool :=
  match g with exploration => true | _ => false end.

(** The [keydown] listener (lines 1039-1109).  [key] is [event.key];
    [random] is what [Math.random()] returns if it is called. *)
Definition handleKeyPress (key : string) (random : number) (s : ClientState)
  : ClientState * Console :=
  match playerState s with
  | None => (s, [])
  | Some _ =>
      let k := toLowerCase key in
      if k =? " " then
        if is_exploration (gamePhase s) then
          if number_lt random 0.3
          then (s |> setCurrentEnemy (Some ghost_diogenes)
                  |> setGamePhase combat, [])
          else (s |> setCurrentScenario (Some trolley_problem)
                  |> setGamePhase scenario, [])
        else (s, [])
      else if k =? "e" then
        if is_exploration (gamePhase s)
        then (s, [console_log "Examining surroundings..."])
        else (s, [])
      else if k =? "escape" then
        if is_scenario_or_combat (gamePhase s)
        then (s |> setCurrentScenario None
                |> setCurrentEnemy None
                |> setGamePhase exploration, [])
        else (s, [])
      else (s, [])
  end.

(** The two quick actions of the hot bar (lines 843 and 851) and the
    collapse button of the side bar (line 545). *)
Definition clickExplore (s : ClientState) : ClientState := s |> setGamePhase exploration.
Definition clickSeekChallenge (s : ClientState) : ClientState := s |> setGamePhase combat.
Definition clickCollapse (s : ClientState) : ClientState :=
  s |> setSidebarCollapsed (negb (sidebarCollapsed s)).

(** Send the request and let the network answer at once: the handler run
    as one step against an environment [net]. *)
Definition run {E S} (h : Async E S) (net : Request -> E) (s : S)
  : S * list Request * Console :=
  match h with
  | Returned => (s, [], [])
  | Awaiting before req resume =>
      let (s', out) := resume (net req) (before s) in (s', [req], out)
  end.

Definition requests {E S} (h : Async E S) : list Request :=
  match h with
  | Returned => []
  | Awaiting _ req _ => [req]
  end.

(** [req.body.k], for a request whose body is a JSON object. *)
Definition body_field (k : string) (req : Request) : option json :=
  match RequestInit.body (init req) with
  | Some b => field k b
  | None => None
  end.

(* ========================================================================= *)
(** * The useGameState hook (lines 1202-1227)                                 *)
(* ========================================================================= *)

Module UseGameState.

Record t := {
  playerState : option PlayerState.t;
  loading : bool;
  error : option string
}.

Definition initial : t := {| playerState := None; loading := false; error := None |}.

Definition setPlayerState (v : option PlayerState.t) (s : t) : t :=
  {| playerState := v; loading := loading s; error := error s |}.
Definition setLoading (v : bool) (s : t) : t :=
  {| playerState := playerState s; loading := v; error := error s |}.
Definition setError (v : option string) (s : t) : t :=
  {| playerState := playerState s; loading := loading s; error := v |}.

(** [if (!playerId) return;] is taken for [null] and for the empty string. *)
Definition refreshPlayerState (playerId : option string)
  : Async (FetchOutcome PlayerState.t) t :=
  match playerId with
  | None => Returned
  | Some id =>
      if negb (truthy_string id) then Returned
      else
        let p := getPlayerState id in
        Awaiting (setLoading true) (sent p)
          (fun o s =>
             let s :=
               match settle p o with
               | Fulfilled state => s |> setPlayerState (Some state) |> setError None
               | Rejected err => s |> setError (Some (message err))
               end in
             (s |> setLoading false, []))
  end.

End UseGameState.

(* ========================================================================= *)
(** * The DevPanel (lines 1417-1501)                                          *)
(* ========================================================================= *)

Module DevPanel.

Record Modifications := {
  philosophicalAlignment : PhilosophicalAlignment;
  authenticityMetric : AuthenticityMetric.t
}.

Record TestState := { name : string; modifications : Modifications }.

(** [{ ...m, value: v }] *)
Definition with_value (v : number) (m : AuthenticityMetric.t) : AuthenticityMetric.t :=
  {| AuthenticityMetric.value := v;
     AuthenticityMetric.history := AuthenticityMetric.history m;
     AuthenticityMetric.permanentMarkers := AuthenticityMetric.permanentMarkers m |}.

(** [{ ...m, value: v, permanentMarkers: ms }] *)
Definition with_value_markers (v : number) (ms : list PermanentMarker)
  (m : AuthenticityMetric.t) : AuthenticityMetric.t :=
  {| AuthenticityMetric.value := v;
     AuthenticityMetric.history := AuthenticityMetric.history m;
     AuthenticityMetric.permanentMarkers := ms |}.

Definition quickTestStates (player : PlayerState.t) : list TestState :=
  [ {| name := "High Authenticity Utilitarian";
       modifications :=
         {| philosophicalAlignment := Utilitarian;
            authenticityMetric :=
              with_value 95 (PlayerState.authenticityMetric player) |} |};
    {| name := "Corrupted Nihilist";
       modifications :=
         {| philosophicalAlignment := Nihilist;
            authenticityMetric :=
              with_value_markers 25 [Hypocrite; Hedonist]
                (PlayerState.authenticityMetric player) |} |};
    {| name := "Conflicted Existentialist";
       modifications :=
         {| philosophicalAlignment := Existentialist;
            authenticityMetric :=
              with_value 60 (PlayerState.authenticityMetric player) |} |} ].

(** [{ ...player, ...modifications }] *)
Definition spread (player : PlayerState.t) (m : Modifications) : PlayerState.t :=
  {| PlayerState.playerId := PlayerState.playerId player;
     PlayerState.name := PlayerState.name player;
     PlayerState.body := PlayerState.body player;
     PlayerState.mind := PlayerState.mind player;
     PlayerState.heart := PlayerState.heart player;
     PlayerState.hitPoints := PlayerState.hitPoints player;
     PlayerState.maxHitPoints := PlayerState.maxHitPoints player;
     PlayerState.authenticityMetric := authenticityMetric m;
     PlayerState.philosophicalAlignment := philosophicalAlignment m;
     PlayerState.inventory := PlayerState.inventory player;
     PlayerState.equippedFallacies := PlayerState.equippedFallacies player;
     PlayerState.experience := PlayerState.experience player;
     PlayerState.level := PlayerState.level player;
     PlayerState.activeEffects := PlayerState.activeEffects player |}.

(** [isDevelopment]: the host name is [localhost] or [127.0.0.1]. *)
Definition isDevelopment (hostname : string) : bool :=
  (hostname =? "localhost") || (hostname =? "127.0.0.1").

(** The panel renders something iff [isDevelopment && player]. *)
Definition rendered (hostname : string) (player : option PlayerState.t) : bool :=
  isDevelopment hostname && match player with Some _ => true | None => false end.

(** The click on the button of the quick test state number [idx] (line
    1483): the state handed to [onStateChange].  [None]: there is no such
    button. *)
Definition clickQuickTest (idx : nat) (player : PlayerState.t) : option PlayerState.t :=
  match nth_error (quickTestStates player) idx with
  | Some testState => Some (spread player (modifications testState))
  | None => None
  end.

End DevPanel.

Definition markers (p : PlayerState.t) : list PermanentMarker :=
  AuthenticityMetric.permanentMarkers (PlayerState.authenticityMetric p).

Definition authenticity (p : PlayerState.t) : number :=
  AuthenticityMetric.value (PlayerState.authenticityMetric p).

Definition has_marker (m : PermanentMarker) (p : PlayerState.t) : bool :=
  existsb (PermanentMarker_eqb m) (markers p).

(* ========================================================================= *)
(** * The Game wrapper (lines 1511-1561) and the running application          *)
(* ========================================================================= *)

(** An activation of a handler that is suspended at its [await]: which
    handler, its arguments, and the state its closure was created in. *)
Inductive Pending :=
| AwaitingCreatePlayer (name : string) (alignment : PhilosophicalAlignment)
| AwaitingScenarioChoice (choiceId : string) (closure : ClientState)
| AwaitingSyllogismAnswer (answer : bool) (closure : ClientState).

(** The whole page: [PhilosophicalRPG]'s cells, [Game]'s [gameState] and
    [showHelp], [DevPanel]'s [showDevPanel], the host name the page is
    served from, the suspended handlers, and what has been sent and logged
    so far. *)
Record App := {
  hostname : string;
  rpg : ClientState;
  game_player : option PlayerState.t;
  game_currentPhase : string;
  game_error : option string;
  showHelp : bool;
  showDevPanel : bool;
  inflight : list Pending;
  outbox : list Request;
  console : Console
}.

Definition initialApp (host : string) : App :=
  {| hostname := host;
     rpg := initialClientState;
     game_player := None;
     game_currentPhase := "character-creation";
     game_error := None;
     showHelp := false;
     showDevPanel := false;
     inflight := [];
     outbox := [];
     console := [] |}.

Definition with_rpg (s : ClientState) (out : Console) (a : App) : App :=
  {| hostname := hostname a; rpg := s;
     game_player := game_player a; game_currentPhase := game_currentPhase a;
     game_error := game_error a; showHelp := showHelp a;
     showDevPanel := showDevPanel a; inflight := inflight a;
     outbox := outbox a; console := console a ++ out |}.

Definition with_inflight (l : list Pending) (a : App) : App :=
  {| hostname := hostname a; rpg := rpg a;
     game_player := game_player a; game_currentPhase := game_currentPhase a;
     game_error := game_error a; showHelp := showHelp a;
     showDevPanel := showDevPanel a; inflight := l;
     outbox := outbox a; console := console a |}.

Definition with_sent (req : Request) (a : App) : App :=
  {| hostname := hostname a; rpg := rpg a;
     game_player := game_player a; game_currentPhase := game_currentPhase a;
     game_error := game_error a; showHelp := showHelp a;
     showDevPanel := showDevPanel a; inflight := inflight a;
     outbox := outbox a ++ [req]; console := console a |}.

(** [setGameState(prev => ({ ...prev, player: newState }))] (line 1543) *)
Definition onStateChange (newState : PlayerState.t) (a : App) : App :=
  {| hostname := hostname a; rpg := rpg a;
     game_player := Some newState; game_currentPhase := game_currentPhase a;
     game_error := game_error a; showHelp := showHelp a;
     showDevPanel := showDevPanel a; inflight := inflight a;
     outbox := outbox a; console := console a |}.

(** [setGameState(prev => ({ ...prev, error: null }))] (line 1552) *)
Definition dismissError (a : App) : App :=
  {| hostname := hostname a; rpg := rpg a;
     game_player := game_player a; game_currentPhase := game_currentPhase a;
     game_error := None; showHelp := showHelp a;
     showDevPanel := showDevPanel a; inflight := inflight a;
     outbox := outbox a; console := console a |}.

Definition setShowHelp (v : bool) (a : App) : App :=
  {| hostname := hostname a; rpg := rpg a;
     game_player := game_player a; game_currentPhase := game_currentPhase a;
     game_error := game_error a; showHelp := v;
     showDevPanel := showDevPanel a; inflight := inflight a;
     outbox := outbox a; console := console a |}.

Definition setShowDevPanel (v : bool) (a : App) : App :=
  {| hostname := hostname a; rpg := rpg a;
     game_player := game_player a; game_currentPhase := game_currentPhase a;
     game_error := game_error a; showHelp := showHelp a;
     showDevPanel := v; inflight := inflight a;
     outbox := outbox a; console := console a |}.

(** What the network answers to a suspended handler. *)
Inductive Outcome :=
| PlayerOutcome (o : FetchOutcome PlayerState.t)
| ActionOutcome (o : FetchOutcome ActionResponse)
| SyllogismOutcome (o : FetchOutcome CombatResponse.t).

Inductive Event :=
| ClickBeginJourney (name : string) (selectedAlignment : PhilosophicalAlignment)
| ClickChoice (choiceId : string)
| ClickAnswer (answer : bool)
| KeyDown (key : string) (random : number)
| ClickExplore
| ClickSeekChallenge
| ClickCollapse
| ClickHelp
| CloseHelp
| OpenDevPanel
| CloseDevPanel
| ClickQuickTest (idx : nat)
| DismissError
| Settle (i : nat) (o : Outcome).

Definition resume_of {E S} (h : Async E S) : E -> S -> S * Console :=
  match h with
  | Returned => fun _ s => (s, [])
  | Awaiting _ _ resume => resume
  end.

(** A handler is called: it returns at once, or it updates the state,
    sends its request and is suspended. *)
Definition call {E} (h : Async E ClientState) (p : Pending) (a : App) : App :=
  match h with
  | Returned => a
  | Awaiting before req _ =>
      a |> with_rpg (before (rpg a)) []
        |> with_sent req
        |> with_inflight (inflight a ++ [p])
  end.

Fixpoint remove_nth {A} (i : nat) (l : list A) : list A :=
  match l, i with
  | [], _ => []
  | _ :: r, O => r
  | x :: r, S j => x :: remove_nth j r
  end.

(** The contract of [/action]: a body tagged ['StateUpdate'] carries the
    player state. *)
Definition conforms (o : Outcome) : bool :=
  match o with
  | ActionOutcome (FetchResponse r) =>
      match jsonBody r with
      | Some (OtherResponse tag) => negb (tag =? "StateUpdate")
      | _ => true
      end
  | _ => true
  end.

(** The suspended handler number [i] is resumed with the outcome [o]. *)
Definition resume (p : Pending) (o : Outcome) (s : ClientState)
  : option (ClientState * Console) :=
  match p, o with
  | AwaitingCreatePlayer name alignment, PlayerOutcome o =>
      Some (resume_of (handleCreatePlayer name alignment) o s)
  | AwaitingScenarioChoice choiceId closure, ActionOutcome o =>
      Some (resume_of (handleScenarioChoice choiceId closure) o s)
  | AwaitingSyllogismAnswer answer closure, SyllogismOutcome o =>
      Some (resume_of (handleSyllogismAnswer answer closure) o s)
  | _, _ => None
  end.

Definition isSome {A} (o : option A) : bool :=
  match o with Some _ => true | None => false end.

Definition is_character_creation (g : GamePhase) : bool :=
  match g with character_creation => true | _ => false end.

Definition offers (choiceId : string) (sc : Scenario.t) : bool :=
  existsb (fun c => Choice.choiceId c =? choiceId) (Scenario.choices sc).

(** One event of the page.  [None]: the event cannot happen in this state
    (the element it belongs to is not rendered, or no such handler is
    suspended). *)
Definition app_step (a : App) (ev : Event) : option App :=
  let s := rpg a in
  match ev with
  | ClickBeginJourney name selectedAlignment =>
      if is_character_creation (gamePhase s)
      then Some (call (beginJourney name selectedAlignment)
                      (AwaitingCreatePlayer name selectedAlignment) a)
      else None
  | ClickChoice choiceId =>
      match gamePhase s, currentScenario s with
      | scenario, Some sc =>
          if offers choiceId sc
          then Some (call (handleScenarioChoice choiceId s)
                          (AwaitingScenarioChoice choiceId s) a)
          else None
      | _, _ => None
      end
  | ClickAnswer answer =>
      match gamePhase s, currentEnemy s with
      | combat, Some _ =>
          Some (call (handleSyllogismAnswer answer s)
                     (AwaitingSyllogismAnswer answer s) a)
      | _, _ => None
      end
  | KeyDown key random =>
      let (s', out) := handleKeyPress key random s in
      Some (with_rpg s' out a)
  | ClickExplore =>
      if negb (is_character_creation (gamePhase s)) && isSome (playerState s)
      then Some (with_rpg (clickExplore s) [] a) else None
  | ClickSeekChallenge =>
      if negb (is_character_creation (gamePhase s)) && isSome (playerState s)
      then Some (with_rpg (clickSeekChallenge s) [] a) else None
  | ClickCollapse =>
      if negb (is_character_creation (gamePhase s))
      then Some (with_rpg (clickCollapse s) [] a) else None
  | ClickHelp => Some (setShowHelp true a)
  | CloseHelp => if showHelp a then Some (setShowHelp false a) else None
  | OpenDevPanel =>
      if DevPanel.rendered (hostname a) (game_player a) && negb (showDevPanel a)
      then Some (setShowDevPanel true a) else None
  | CloseDevPanel =>
      if DevPanel.rendered (hostname a) (game_player a) && showDevPanel a
      then Some (setShowDevPanel false a) else None
  | ClickQuickTest idx =>
      match game_player a with
      | Some player =>
          if DevPanel.isDevelopment (hostname a) && showDevPanel a
          then match DevPanel.clickQuickTest idx player with
               | Some newState => Some (onStateChange newState a)
               | None => None
               end
          else None
      | None => None
      end
  | DismissError =>
      match game_error a with
      | Some _ => Some (dismissError a)
      | None => None
      end
  | Settle i o =>
      match nth_error (inflight a) i with
      | Some p =>
          if conforms o
          then match resume p o s with
               | Some (s', out) =>
                   Some (a |> with_rpg s' out
                           |> with_inflight (remove_nth i (inflight a)))
               | None => None
               end
          else None
      | None => None
      end
  end.

Fixpoint exec (evs : list Event) (a : App) : option App :=
  match evs with
  | [] => Some a
  | ev :: r =>
      match app_step a ev with
      | Some a' => exec r a'
      | None => None
      end
  end.

(** The states the page can be in when it is served from [host]. *)
Definition reachable (host : string) (a : App) : Prop :=
  exists evs, exec evs (initialApp host) = Some a.

(** The player state a network answer carries, if it carries one. *)
Definition body_of {T} (o : FetchOutcome T) : option T :=
  match o with
  | FetchResponse r => if ok r then jsonBody r else None
  | FetchFailed _ => None
  end.

Definition carried_player (o : Outcome) : option PlayerState.t :=
  match o with
  | PlayerOutcome o => body_of o
  | ActionOutcome o =>
      match body_of o with
      | Some r => response_playerState r
      | None => None
      end
  | SyllogismOutcome o =>
      match body_of o with
      | Some r => Some (CombatResponse.updatedPlayer r)
      | None => None
      end
  end.

(** The player states the page holds: [PhilosophicalRPG]'s [playerState]
    and [Game]'s [gameState.player]. *)
Definition held_players (a : App) : option PlayerState.t * option PlayerState.t :=
  (playerState (rpg a), game_player a).

(* ========================================================================= *)
(** * Sample data                                                             *)
(* ========================================================================= *)

(** The player of the specification's example, as a server could send it. *)
Definition sartre : PlayerState.t :=
  {| PlayerState.playerId := "player-1";
     PlayerState.name := "Sartre";
     PlayerState.body := 5;
     PlayerState.mind := 5;
     PlayerState.heart := 5;
     PlayerState.hitPoints := 20;
     PlayerState.maxHitPoints := 20;
     PlayerState.authenticityMetric :=
       {| AuthenticityMetric.value := 50;
          AuthenticityMetric.history := [];
          AuthenticityMetric.permanentMarkers := [] |};
     PlayerState.philosophicalAlignment := Existentialist;
     PlayerState.inventory := [];
     PlayerState.equippedFallacies := [];
     PlayerState.experience := 0;
     PlayerState.level := 1;
     PlayerState.activeEffects := [] |}.

(** The same player once the marker [Sophist] has been awarded. *)
Definition sartre_sophist : PlayerState.t :=
  DevPanel.spread sartre
    {| DevPanel.philosophicalAlignment := Existentialist;
       DevPanel.authenticityMetric :=
         {| AuthenticityMetric.value := 50;
            AuthenticityMetric.history := [];
            AuthenticityMetric.permanentMarkers := [Sophist] |} |}.

Definition respond {T} (st : Z) (txt : string) (b : option T) : FetchOutcome T :=
  FetchResponse {| status := st; statusText := txt; jsonBody := b |}.

Definition a_hit : CombatOutcome.t :=
  {| CombatOutcome.success := true;
     CombatOutcome.damage := 10;
     CombatOutcome.explanation := "The conclusion does not follow.";
     CombatOutcome.experienceGained := 0 |}.

Definition combat_goes_on : CombatResponse.t :=
  {| CombatResponse.combatOutcome := a_hit;
     CombatResponse.updatedPlayer := sartre;
     CombatResponse.continuesCombat := true |}.

Definition combat_is_over : CombatResponse.t :=
  {| CombatResponse.combatOutcome := a_hit;
     CombatResponse.updatedPlayer := sartre;
     CombatResponse.continuesCombat := false |}.

(** [PhilosophicalRPG] in the middle of a fight, and in front of a scenario. *)
Definition in_combat : ClientState :=
  {| playerState := Some sartre;
     currentScenario := None;
     currentEnemy := Some ghost_diogenes;
     gamePhase := combat;
     sidebarCollapsed := false;
     lastCombatResult := None |}.

Definition in_scenario : ClientState :=
  {| playerState := Some sartre;
     currentScenario := Some trolley_problem;
     currentEnemy := None;
     gamePhase := scenario;
     sidebarCollapsed := false;
     lastCombatResult := None |}.

(** The page on a development host, with a player in [Game]'s own slot
    and the panel open. *)
Definition dev_page (p : PlayerState.t) : App :=
  initialApp "localhost" |> onStateChange p |> setShowDevPanel true.

(** A session: the player is created, the server answers, the space bar is
    pressed and the draw is [random]. *)
Definition session (random : number) : list Event :=
  [ ClickBeginJourney "Sartre" Existentialist;
    Settle 0 (PlayerOutcome (respond 200 "OK" (Some sartre)));
    KeyDown " " random ].

(* ========================================================================= *)
(** * Properties the specification states, as it states them                  *)
(* ========================================================================= *)

(** "Every change to the held PlayerState comes from a backend HTTP
    response": whenever an event changes a player state the page holds,
    the event is the arrival of a network answer. *)
Definition every_player_change_comes_from_a_response : Prop :=
  forall a ev a',
    app_step a ev = Some a' ->
    held_players a' <> held_players a ->
    exists i o, ev = Settle i o.

(** "apiRequest rejects exactly when the response is non-2xx." *)
Definition rejects_exactly_on_non_2xx : Prop :=
  forall (T : Type) (endpoint : string) (options : RequestInit.t) (r : Response T),
    (exists e, settle (apiRequest endpoint options) (FetchResponse r) = Rejected e)
    <-> ok r = false.

(** "Markers are never removed" by an operation [op] on player states. *)
Definition add_only (op : PlayerState.t -> option PlayerState.t) : Prop :=
  forall p p' m, op p = Some p' -> In m (markers p) -> In m (markers p').

(** "createPlayer fails when name is empty or whitespace." *)
Definition createPlayer_rejects_blank_names : Prop :=
  forall name alignment o,
    trim name = "" ->
    exists e, settle (createPlayer name alignment) o = Rejected e.

(** A request that goes to [/combat/syllogism] names the placeholder as
    its syllogism. *)
Definition placeholder_only (req : Request) : Prop :=
  url req = "http://localhost:8080/api/combat/syllogism" ->
  body_field "syllogismId" req = Some (JString "current_syllogism").

(** The state [PhilosophicalRPG] is in after Escape closed an overlay. *)
Definition overlays_closed (s : ClientState) : ClientState :=
  {| playerState := playerState s;
     currentScenario := None;
     currentEnemy := None;
     gamePhase := exploration;
     sidebarCollapsed := sidebarCollapsed s;
     lastCombatResult := lastCombatResult s |}.

(** "Pressing the Escape key while gamePhase is 'scenario' or 'combat'
    clears both currentScenario and currentEnemy and sets gamePhase to
    'exploration'." *)
Definition escape_always_closes_overlays : Prop :=
  forall s random,
    is_scenario_or_combat (gamePhase s) = true ->
    fst (handleKeyPress "Escape" random s) = overlays_closed s.

(** What the page guarantees of [PhilosophicalRPG] in every state it can
    reach: outside character creation a player is held, and an enemy that
    is held is the one the space bar builds. *)
Definition client_inv (s : ClientState) : Prop :=
  (gamePhase s <> character_creation -> playerState s <> None)
  /\ (forall e, currentEnemy s = Some e -> e = ghost_diogenes).

Definition app_inv (a : App) : Prop :=
  client_inv (rpg a) /\ game_player a = None /\ game_error a = None.

(* ========================================================================= *)
(** * What the components show (lines 416-423, 500-511, 643-659, 764-859,
      1300-1311)                                                              *)
(* ========================================================================= *)

(** [x >= y] on numbers. *)
Definition number_ge (x y : number) : bool := Qle_bool y x.

Definition getAlignmentColor (alignment : PhilosophicalAlignment) : string :=
  match alignment with
  | Utilitarian => "#4CAF50"
  | Existentialist => "#FF9800"
  | Nihilist => "#9C27B0"
  | Undecided => "#757575"
  end.

Definition getAlignmentDescription (alignment : PhilosophicalAlignment) : string :=
  match alignment with
  | Undecided => "Let your choices determine your philosophy through the journey"
  | Utilitarian => "Seek the greatest good for the greatest number of people"
  | Existentialist => "Create your own meaning through authentic choice and responsibility"
  | Nihilist => "Recognize that existence has no inherent meaning or purpose"
  end.

Definition getAuthenticityColor (value : number) : string :=
  if number_ge value 80 then "#10B981"
  else if number_ge value 60 then "#F59E0B"
  else if number_ge value 30 then "#EF4444"
  else "#7C2D12".

Definition getAuthenticityStatus (value : number) : string :=
  if number_ge value 90 then "Highly Authentic"
  else if number_ge value 75 then "Authentic"
  else if number_ge value 50 then "Moderately Consistent"
  else if number_ge value 25 then "Inconsistent"
  else "Severely Compromised".

Definition getSpriteColor (spriteId : string) : string :=
  if spriteId =? "player" then "#4CAF50"
  else if spriteId =? "enemy_diogenes" then "#FF5722"
  else if spriteId =? "enemy_locke" then "#FF9800"
  else if spriteId =? "item_ring" then "#FFD700"
  else if spriteId =? "item_crown" then "#8B0000"
  else if spriteId =? "demon_lilith" then "#9C27B0"
  else if spriteId =? "demon_succubus" then "#E91E63"
  else "#757575".

(** The sprite ids [getSpriteColor] has a case for. *)
Definition knownSprites : list string :=
  ["player"; "enemy_diogenes"; "enemy_locke"; "item_ring"; "item_crown";
   "demon_lilith"; "demon_succubus"].

(** The item slots of the hot bar (lines 822-836): [player.inventory[slot]]
    for the slots 0 to 4; [None] is [undefined], an index past the end. *)
Definition hotbarSlots (player : PlayerState.t) : list (option Item.t) :=
  map (fun slot => nth_error (PlayerState.inventory player) slot)
      [0; 1; 2; 3; 4]%nat.

(** The [title] of a slot. *)
Definition hotbarTitle (item : option Item.t) : string :=
  match item with
  | Some i => Item.name i ++ ": " ++ Item.description i
  | None => "Empty slot"
  end.

(** The slots of [EquippedFallacies] (lines 773-791). *)
Definition fallacySlots (player : PlayerState.t) : list (option Fallacy.t) :=
  map (fun slot => nth_error (PlayerState.equippedFallacies player) slot)
      [0; 1; 2; 3]%nat.

(* ========================================================================= *)
(** * Canvas rendering (lines 300-410)                                        *)
(* ========================================================================= *)

(** The 2D context: the three attributes the code sets, and what has been
    drawn.  A drawing is recorded with the fill style, the font and the
    alpha in effect when it was made.  As the canvas does: a [globalAlpha]
    outside [0, 1] is ignored on assignment, and [fillRect] with an
    argument that is not finite draws nothing.  Colours are kept as the
    strings that were assigned. *)
Module Canvas.

Inductive DrawOp :=
| FillRect (style : string) (alpha : number) (x y w h : number)
| FillText (style font : string) (alpha : number) (text : string) (x y : number).

Record Context2D := {
  fillStyle : string;
  font : string;
  globalAlpha : number;
  drawn : list DrawOp
}.

(** The [<canvas>] element (lines 522-528): its size, and its context;
    [None]: [getContext('2d')] returns null. *)
Record t := {
  width : number;
  height : number;
  context : option Context2D
}.

Definition newContext : Context2D :=
  {| fillStyle := "#000000"; font := "10px sans-serif"; globalAlpha := 1; drawn := [] |}.

Definition setFillStyle (v : string) (ctx : Context2D) : Context2D :=
  {| fillStyle := v; font := font ctx; globalAlpha := globalAlpha ctx; drawn := drawn ctx |}.

Definition setFont (v : string) (ctx : Context2D) : Context2D :=
  {| fillStyle := fillStyle ctx; font := v; globalAlpha := globalAlpha ctx; drawn := drawn ctx |}.

Definition setGlobalAlpha (v : number) (ctx : Context2D) : Context2D :=
  if Qle_bool 0 v && Qle_bool v 1
  then {| fillStyle := fillStyle ctx; font := font ctx; globalAlpha := v; drawn := drawn ctx |}
  else ctx.

Definition draw (op : DrawOp) (ctx : Context2D) : Context2D :=
  {| fillStyle := fillStyle ctx; font := font ctx; globalAlpha := globalAlpha ctx;
     drawn := drawn ctx ++ [op] |}.

Definition fillRect (x y w h : number) (ctx : Context2D) : Context2D :=
  draw (FillRect (fillStyle ctx) (globalAlpha ctx) x y w h) ctx.

(** [fillRect] with a width that may be not finite ([None]). *)
Definition fillRect_w (x y : number) (w : option number) (h : number)
  (ctx : Context2D) : Context2D :=
  match w with
  | Some w => fillRect x y w h ctx
  | None => ctx
  end.

Definition fillText (text : string) (x y : number) (ctx : Context2D) : Context2D :=
  draw (FillText (fillStyle ctx) (font ctx) (globalAlpha ctx) text x y) ctx.

End Canvas.

(** [x / y] for a quotient that goes into a drawing: [None] when [y] is
    zero, where the quotient is an infinity or NaN. *)
Definition quotient (x y : number) : option number :=
  if Qeq_bool y 0 then None else Some (x / y)%Q.

(** [v || 0] on a number. *)
Definition or_zero (v : number) : number := if Qeq_bool v 0 then 0%Q else v.

(** The loop of [renderExplorationView]: [n] particles, the calls of
    [Math.random] numbered from [k]. *)
Fixpoint particles (n k : nat) (random : nat -> number) (ctx : Canvas.Context2D)
  : Canvas.Context2D :=
  match n with
  | O => ctx
  | S n' =>
      let x := (random k * 800)%Q in
      let y := (random (S k) * 600)%Q in
      particles n' (S (S k)) random (Canvas.fillRect x y 1 1 ctx)
  end.

(** Lines 329-354.  [random i] is what the call number [i] of
    [Math.random] returns. *)
Definition renderExplorationView (s : ClientState) (random : nat -> number)
  (ctx : Canvas.Context2D) : Canvas.Context2D :=
  let ctx := ctx |> Canvas.setFillStyle "#2d2d2d" |> particles 100 0 random in
  let ctx :=
    ctx |> Canvas.setFillStyle
             (getAlignmentColor
                match playerState s with
                | Some p => PlayerState.philosophicalAlignment p
                | None => Undecided
                end)
        |> Canvas.fillRect 390 290 20 20 in
  let authValue :=
    match playerState s with
    | Some p => or_zero (authenticity p)
    | None => 0%Q
    end in
  ctx |> Canvas.setGlobalAlpha (authValue / 200)%Q
      |> Canvas.setFillStyle "#ffffff"
      |> Canvas.fillRect 385 285 30 30
      |> Canvas.setGlobalAlpha 1
      |> Canvas.setFillStyle "#cccccc"
      |> Canvas.setFont "16px monospace"
      |> Canvas.fillText "Press SPACE to continue journey" 250 500
      |> Canvas.fillText "Press E to examine surroundings" 250 520.

(** Lines 360-388. *)
Definition renderCombatView (s : ClientState) (ctx : Canvas.Context2D)
  : Canvas.Context2D :=
  let ctx := ctx |> Canvas.setFillStyle "#3d1a1a" |> Canvas.fillRect 0 0 800 600 in
  let ctx :=
    match currentEnemy s with
    | Some enemy =>
        let healthPercentage :=
          quotient (Enemy.hitPoints enemy) (Enemy.maxHitPoints enemy) in
        ctx |> Canvas.setFillStyle "#ff4444"
            |> Canvas.fillRect 600 200 40 60
            |> Canvas.setFillStyle "#ff0000"
            |> Canvas.fillRect 550 180 140 10
            |> Canvas.setFillStyle "#00ff00"
            |> Canvas.fillRect_w 550 180
                 (option_map (fun p => (140 * p)%Q) healthPercentage) 10
            |> Canvas.setFillStyle "#ffffff"
            |> Canvas.setFont "14px monospace"
            |> Canvas.fillText (Enemy.name enemy) 500 170
    | None => ctx
    end in
  ctx |> Canvas.setFillStyle "#cccccc"
      |> Canvas.setFont "12px monospace"
      |> Canvas.fillText "Logical Combat: Analyze the argument structure" 50 500
      |> Canvas.fillText "Success requires both courage and wisdom" 50 520.

(** Lines 394-410. *)
Definition renderScenarioView (s : ClientState) (ctx : Canvas.Context2D)
  : Canvas.Context2D :=
  let ctx := ctx |> Canvas.setFillStyle "#2a2a3a" |> Canvas.fillRect 0 0 800 600 in
  match currentScenario s with
  | Some sc =>
      ctx |> Canvas.setFillStyle "#ffffff"
          |> Canvas.setFont "bold 18px monospace"
          |> Canvas.fillText (Scenario.title sc) 50 50
          |> Canvas.setFillStyle "#aaaaaa"
          |> Canvas.setFont "10px monospace"
          |> Canvas.fillText ("Source: " ++ Scenario.philosophicalBasis sc) 50 70
  | None => ctx
  end.

(** Lines 300-323.  [canvas] is [canvasRef.current]; the result is the
    context after the call, [None] when there is no context to draw on. *)
Definition renderGameWorld (canvas : option Canvas.t) (s : ClientState)
  (random : nat -> number) : option Canvas.Context2D :=
  match canvas, playerState s with
  | Some cv, Some _ =>
      match Canvas.context cv with
      | None => None
      | Some ctx =>
          let ctx := ctx |> Canvas.setFillStyle "#1a1a1a"
                         |> Canvas.fillRect 0 0 (Canvas.width cv) (Canvas.height cv) in
          Some match gamePhase s with
               | exploration => renderExplorationView s random ctx
               | combat => renderCombatView s ctx
               | scenario => renderScenarioView s ctx
               | _ => ctx
               end
      end
  | Some cv, None => Canvas.context cv
  | None, _ => None
  end.

(** The canvas of [GameInterface]: 800 by 600. *)
Definition gameCanvas (ctx : Canvas.Context2D) : Canvas.t :=
  {| Canvas.width := 800; Canvas.height := 600; Canvas.context := Some ctx |}.

(** What a drawing was made with. *)
Definition op_alpha (op : Canvas.DrawOp) : number :=
  match op with
  | Canvas.FillRect _ alpha _ _ _ _ => alpha
  | Canvas.FillText _ _ alpha _ _ _ => alpha
  end.


(* ========================================================================= *)
(** * The useCanvasAnimation hook (lines 1233-1255)                           *)
(* ========================================================================= *)

(** The hook together with the part of the browser it talks to.  A call of
    [startAnimation(renderFunction)] makes a loop; the loops are numbered
    by the caller, and [rendered] lists, in order, the loops whose
    [renderFunction] has run.  [requested] holds the callbacks handed to
    [requestAnimationFrame] that are waiting for the next frame, with
    their handles; handles are issued from 1 upwards. *)
Module Animation.

Record t := {
  animationFrameRef : option nat;
  nextHandle : nat;
  requested : list (nat * nat);
  rendered : list nat
}.

Definition initial : t :=
  {| animationFrameRef := None; nextHandle := 1; requested := []; rendered := [] |}.

(** [animate] of the loop [loop]:
    [renderFunction(); animationFrameRef.current = requestAnimationFrame(animate)]. *)
Definition animate (loop : nat) (st : t) : t :=
  {| animationFrameRef := Some (nextHandle st);
     nextHandle := S (nextHandle st);
     requested := requested st ++ [(nextHandle st, loop)];
     rendered := rendered st ++ [loop] |}.

Definition startAnimation (loop : nat) (st : t) : t := animate loop st.

Definition cancelAnimationFrame (handle : nat) (st : t) : t :=
  {| animationFrameRef := animationFrameRef st;
     nextHandle := nextHandle st;
     requested := filter (fun r => negb (Nat.eqb (fst r) handle)) (requested st);
     rendered := rendered st |}.

(** [if (animationFrameRef.current) cancelAnimationFrame(...)]: taken for a
    handle that is not 0. *)
Definition stopAnimation (st : t) : t :=
  match animationFrameRef st with
  | Some (S h) => cancelAnimationFrame (S h) st
  | _ => st
  end.

(** The browser paints a frame: the callbacks that were waiting are taken
    off the list and run in order; what they request waits for the next
    frame. *)
Definition frame (st : t) : t :=
  fold_left (fun st r => animate (snd r) st) (requested st)
    {| animationFrameRef := animationFrameRef st;
       nextHandle := nextHandle st;
       requested := [];
       rendered := rendered st |}.

Fixpoint frames (n : nat) (st : t) : t :=
  match n with
  | O => st
  | S n' => frames n' (frame st)
  end.

End Animation.

(* ========================================================================= *)
(** * Sequences of clicks, and what a request looks like                      *)
(* ========================================================================= *)

(** The quick test buttons [idxs] clicked one after the other, each on the
    player the one before handed to [onStateChange]. *)
Fixpoint clickQuickTests (idxs : list nat) (player : PlayerState.t)
  : option PlayerState.t :=
  match idxs with
  | [] => Some player
  | idx :: r =>
      match DevPanel.clickQuickTest idx player with
      | Some player' => clickQuickTests r player'
      | None => None
      end
  end.

(** A request is a [POST] with the JSON headers and a body, to one of the
    three endpoints the handlers use. *)
Definition is_post_json (req : Request) : bool :=
  match RequestInit.method (init req), RequestInit.headers (init req),
        RequestInit.body (init req) with
  | Some m, Some h, Some (JObject _) =>
      (m =? "POST")
      && match assoc "Content-Type" h with
         | Some v => v =? "application/json"
         | None => false
         end
      && ((url req =? "http://localhost:8080/api/player/create")
          || (url req =? "http://localhost:8080/api/action")
          || (url req =? "http://localhost:8080/api/combat/syllogism"))
  | _, _, _ => false
  end.


(** The colours of [getAuthenticityColor] and the texts of
    [getAuthenticityStatus], from the one returned for the lowest values
    to the one returned for the highest. *)
Definition authenticityColors : list string :=
  ["#7C2D12"; "#EF4444"; "#F59E0B"; "#10B981"].

Definition authenticityStatuses : list string :=
  ["Severely Compromised"; "Inconsistent"; "Moderately Consistent";
   "Authentic"; "Highly Authentic"].

(** The place of [x] in [l] (the length of [l] when it is not there). *)
Fixpoint position (x : string) (l : list string) : nat :=
  match l with
  | [] => O
  | y :: r => if x =? y then O else S (position x r)
  end.


(** The alignment and the authenticity value the exploration view reads:
    [playerState?.philosophicalAlignment || 'Undecided'] and
    [playerState?.authenticityMetric.value || 0]. *)
Definition shownAlignment (s : ClientState) : PhilosophicalAlignment :=
  match playerState s with
  | Some p => PlayerState.philosophicalAlignment p
  | None => Undecided
  end.

Definition shownAuthenticity (s : ClientState) : number :=
  match playerState s with
  | Some p => or_zero (authenticity p)
  | None => 0%Q
  end.

(** The particle number [i] of the exploration view. *)
Definition particle (style : string) (alpha : number) (random : nat -> number)
  (i : nat) : Canvas.DrawOp :=
  Canvas.FillRect style alpha
    (random (2 * i)%nat * 800)%Q (random (S (2 * i)) * 600)%Q 1 1.

(** The point a drawing starts from lies on the canvas of 800 by 600. *)
Definition starts_on_canvas (op : Canvas.DrawOp) : Prop :=
  match op with
  | Canvas.FillRect _ _ x y _ _ => (0 <= x < 800)%Q /\ (0 <= y < 600)%Q
  | Canvas.FillText _ _ _ _ x y => (0 <= x < 800)%Q /\ (0 <= y < 600)%Q
  end.

(** The alpha in effect after [ctx.globalAlpha = v], when it was [current]. *)
Definition alphaAfter (v current : number) : number :=
  if Qle_bool 0 v && Qle_bool v 1 then v else current.


(** The white square drawn over the player in the exploration view. *)
Definition is_aura (op : Canvas.DrawOp) : Prop :=
  exists alpha, op = Canvas.FillRect "#ffffff" alpha 385 285 30 30.


(** The loops that wait for the next frame, in the order they asked for
    it; and the hook after [startAnimation] was called for each of
    [loops] in turn. *)
Definition waiting (st : Animation.t) : list nat := map snd (Animation.requested st).

Definition startAll (loops : list nat) (st : Animation.t) : Animation.t :=
  fold_left (fun st loop => Animation.startAnimation loop st) loops st.

(** The handles that wait are consecutive, the last one is the one most
    recently issued, and it is the one the hook remembers. *)
Definition lined_up (st : Animation.t) : Prop :=
  exists h,
    map fst (Animation.requested st) = seq h (length (Animation.requested st))
    /\ Animation.nextHandle st = (h + length (Animation.requested st))%nat
    /\ (1 <= h)%nat
    /\ (Animation.requested st <> [] ->
        Animation.animationFrameRef st = Some (Animation.nextHandle st - 1)%nat).


(** The events of the page, one rule for each: when it can happen and the
    state it leads to. *)
Inductive rpg_step (a a' : App) : Event -> Prop :=
| step_begin name al :
    gamePhase (rpg a) = character_creation ->
    a' = call (beginJourney name al) (AwaitingCreatePlayer name al) a ->
    rpg_step a a' (ClickBeginJourney name al)
| step_choice choiceId sc :
    gamePhase (rpg a) = scenario -> currentScenario (rpg a) = Some sc ->
    offers choiceId sc = true ->
    a' = call (handleScenarioChoice choiceId (rpg a))
              (AwaitingScenarioChoice choiceId (rpg a)) a ->
    rpg_step a a' (ClickChoice choiceId)
| step_answer answer enemy :
    gamePhase (rpg a) = combat -> currentEnemy (rpg a) = Some enemy ->
    a' = call (handleSyllogismAnswer answer (rpg a))
              (AwaitingSyllogismAnswer answer (rpg a)) a ->
    rpg_step a a' (ClickAnswer answer)
| step_key key random :
    a' = with_rpg (fst (handleKeyPress key random (rpg a)))
                  (snd (handleKeyPress key random (rpg a))) a ->
    rpg_step a a' (KeyDown key random)
| step_explore :
    gamePhase (rpg a) <> character_creation -> playerState (rpg a) <> None ->
    a' = with_rpg (clickExplore (rpg a)) [] a ->
    rpg_step a a' ClickExplore
| step_seek :
    gamePhase (rpg a) <> character_creation -> playerState (rpg a) <> None ->
    a' = with_rpg (clickSeekChallenge (rpg a)) [] a ->
    rpg_step a a' ClickSeekChallenge
| step_collapse :
    gamePhase (rpg a) <> character_creation ->
    a' = with_rpg (clickCollapse (rpg a)) [] a ->
    rpg_step a a' ClickCollapse
| step_help : a' = setShowHelp true a -> rpg_step a a' ClickHelp
| step_close_help : showHelp a = true -> a' = setShowHelp false a -> rpg_step a a' CloseHelp
| step_open_dev :
    game_player a <> None -> a' = setShowDevPanel true a -> rpg_step a a' OpenDevPanel
| step_close_dev :
    game_player a <> None -> a' = setShowDevPanel false a -> rpg_step a a' CloseDevPanel
| step_quick idx player newState :
    game_player a = Some player ->
    DevPanel.clickQuickTest idx player = Some newState ->
    a' = onStateChange newState a ->
    rpg_step a a' (ClickQuickTest idx)
| step_dismiss : game_error a <> None -> a' = dismissError a -> rpg_step a a' DismissError
| step_settle i o p s' out :
    nth_error (inflight a) i = Some p -> conforms o = true ->
    resume p o (rpg a) = Some (s', out) ->
    a' = with_inflight (remove_nth i (inflight a)) (with_rpg s' out a) ->
    rpg_step a a' (Settle i o).

(* ========================================================================= *)
(** * Strings                                                                 *)
(* ========================================================================= *)

Lemma trimStart_allWhiteSpace (s : string) :
  allWhiteSpace (trimStart s) = allWhiteSpace s.
Proof.
  induction s as [|c r IH]; simpl; [reflexivity|].
  destruct (isWhiteSpace c) eqn:Hc; simpl.
  - exact IH.
  - rewrite Hc. reflexivity.
Qed.

Lemma trimEnd_empty_iff (s : string) :
  trimEnd s = "" <-> allWhiteSpace s = true.
Proof.
  induction s as [|c r IH]; simpl.
  - split; reflexivity.
  - destruct (trimEnd r) eqn:Hr.
    + destruct (isWhiteSpace c); simpl.
      * split; intros _; [apply IH|]; reflexivity.
      * split; discriminate.
    + split; [discriminate|].
      intros H. apply andb_true_iff in H. destruct H as [_ H].
      apply IH in H. discriminate.
Qed.

Lemma trim_empty_iff (s : string) :
  trim s = "" <-> allWhiteSpace s = true.
Proof.
  unfold trim. rewrite trimEnd_empty_iff, trimStart_allWhiteSpace. tauto.
Qed.

(* ========================================================================= *)
(** * The API layer                                                           *)
(* ========================================================================= *)

Lemma apiRequest_sent {T} (endpoint : string) (options : RequestInit.t) :
  sent (@apiRequest T endpoint options)
  = {| url := API_BASE ++ endpoint; init := with_default_headers options |}.
Proof. reflexivity. Qed.

Lemma apiRequest_not_ok {T} endpoint options (r : Response T) :
  ok r = false ->
  settle (apiRequest endpoint options) (FetchResponse r)
  = Rejected (Error ("API Error: " ++ string_of_status (status r)
                       ++ " " ++ statusText r)).
Proof. intros H. unfold apiRequest. simpl. rewrite H. reflexivity. Qed.

Lemma apiRequest_ok {T} endpoint options (r : Response T) :
  ok r = true ->
  settle (apiRequest endpoint options) (FetchResponse r) = json_ r.
Proof. intros H. unfold apiRequest. simpl. rewrite H. reflexivity. Qed.

Lemma apiRequest_fetch_failed {T} endpoint options (e : JsError) :
  settle (@apiRequest T endpoint options) (FetchFailed e) = Rejected e.
Proof. reflexivity. Qed.

Lemma apiRequest_fulfilled {T} endpoint options (o : FetchOutcome T) (v : T) :
  settle (apiRequest endpoint options) o = Fulfilled v <-> body_of o = Some v.
Proof.
  destruct o as [e|r]; simpl.
  - split; discriminate.
  - unfold apiRequest, json_. simpl.
    destruct (ok r); simpl.
    + destruct (jsonBody r); split; congruence.
    + split; discriminate.
Qed.

(** The settlement does not depend on the endpoint or on the options. *)
Lemma apiRequest_settle_any {T} e1 o1 e2 o2 (o : FetchOutcome T) :
  settle (apiRequest e1 o1) o = settle (apiRequest e2 o2) o.
Proof. reflexivity. Qed.

Lemma try_await_resume {E A S} (p : Promise E A) body handler (o : E) (s : S) :
  resume_of (try_await p body handler) o s
  = match settle p o with
    | Fulfilled x => (body x s, [])
    | Rejected error => (s, handler error)
    end.
Proof. reflexivity. Qed.

(* ========================================================================= *)
(** * The handlers of PhilosophicalRPG                                        *)
(* ========================================================================= *)

Lemma handleSyllogismAnswer_guard (answer : bool) (s : ClientState) :
  handleSyllogismAnswer answer s = Returned
  <-> playerState s = None \/ currentEnemy s = None.
Proof.
  unfold handleSyllogismAnswer, try_await.
  destruct (playerState s), (currentEnemy s); split; intros H;
    try discriminate; try reflexivity; auto; destruct H; discriminate.
Qed.

Lemma handleScenarioChoice_guard (choiceId : string) (s : ClientState) :
  handleScenarioChoice choiceId s = Returned
  <-> playerState s = None \/ currentScenario s = None.
Proof.
  unfold handleScenarioChoice, try_await.
  destruct (playerState s), (currentScenario s); split; intros H;
    try discriminate; try reflexivity; auto; destruct H; discriminate.
Qed.

Lemma run_Returned {E S} (net : Request -> E) (s : S) :
  run (@Returned E S) net s = (s, [], []).
Proof. reflexivity. Qed.

Lemma call_Returned {E} (p : Pending) (a : App) :
  call (@Returned E ClientState) p a = a.
Proof. reflexivity. Qed.

Lemma apiRequest_rejected {T} endpoint options (o : FetchOutcome T) :
  body_of o = None ->
  exists e, settle (apiRequest endpoint options) o = Rejected e.
Proof.
  intros Hb. destruct (settle (apiRequest endpoint options) o) as [v|e] eqn:Hs.
  - apply apiRequest_fulfilled in Hs. congruence.
  - exists e. reflexivity.
Qed.

Lemma handleCreatePlayer_rejected name alignment (o : FetchOutcome PlayerState.t) s :
  body_of o = None ->
  exists e,
    settle (createPlayer name alignment) o = Rejected e
    /\ resume_of (handleCreatePlayer name alignment) o s
       = (s, [console_error "Failed to create player:" e]).
Proof.
  intros Hb. unfold handleCreatePlayer. rewrite try_await_resume.
  unfold createPlayer.
  destruct (apiRequest_rejected "/player/create"
              (post (JObject [("playerName", JString name);
                              ("initialAlignment", JString (alignment_name alignment))]))
              o Hb) as [e He].
  exists e. rewrite He. split; reflexivity.
Qed.

Lemma handleScenarioChoice_rejected choiceId closure (o : FetchOutcome ActionResponse) s :
  handleScenarioChoice choiceId closure <> Returned ->
  body_of o = None ->
  exists e,
    settle (apiRequest "/action" RequestInit.empty) o = Rejected e
    /\ resume_of (handleScenarioChoice choiceId closure) o s
       = (s, [console_error "Failed to process choice:" e]).
Proof.
  intros Hcall Hb. unfold handleScenarioChoice in *.
  destruct (playerState closure) as [player|]; [|congruence].
  destruct (currentScenario closure) as [sc|]; [|congruence].
  rewrite try_await_resume. unfold submitGameAction.
  destruct (apiRequest_rejected "/action" RequestInit.empty o Hb) as [e He].
  assert (Hany : forall options,
             settle (@apiRequest ActionResponse "/action" options) o = Rejected e)
    by (intros; exact He).
  exists e. rewrite !Hany. split; reflexivity.
Qed.

Lemma handleSyllogismAnswer_rejected answer closure (o : FetchOutcome CombatResponse.t) s :
  handleSyllogismAnswer answer closure <> Returned ->
  body_of o = None ->
  exists e,
    settle (apiRequest "/combat/syllogism" RequestInit.empty) o = Rejected e
    /\ resume_of (handleSyllogismAnswer answer closure) o s
       = (s, [console_error "Failed to resolve combat:" e]).
Proof.
  intros Hcall Hb. unfold handleSyllogismAnswer in *.
  destruct (playerState closure) as [player|]; [|congruence].
  destruct (currentEnemy closure) as [enemy|]; [|congruence].
  rewrite try_await_resume. unfold resolveSyllogismCombat.
  destruct (apiRequest_rejected "/combat/syllogism" RequestInit.empty o Hb) as [e He].
  assert (Hany : forall options,
             settle (@apiRequest CombatResponse.t "/combat/syllogism" options) o
             = Rejected e)
    by (intros; exact He).
  exists e. rewrite !Hany. split; reflexivity.
Qed.

Lemma handleSyllogismAnswer_requests (answer : bool) (s : ClientState) :
  Forall (fun req =>
            url req = "http://localhost:8080/api/combat/syllogism"
            /\ RequestInit.method (init req) = Some "POST"
            /\ body_field "syllogismId" req = Some (JString "current_syllogism"))
         (requests (handleSyllogismAnswer answer s)).
Proof.
  unfold handleSyllogismAnswer.
  destruct (playerState s) as [player|]; [|constructor].
  destruct (currentEnemy s) as [enemy|]; [|constructor].
  constructor; [|constructor].
  repeat split.
Qed.

Lemma handleSyllogismAnswer_resume (answer : bool) (closure s : ClientState)
  (o : FetchOutcome CombatResponse.t) (result : CombatResponse.t) :
  handleSyllogismAnswer answer closure <> Returned ->
  body_of o = Some result ->
  resume_of (handleSyllogismAnswer answer closure) o s
  = ({| playerState := Some (CombatResponse.updatedPlayer result);
        currentScenario := currentScenario s;
        currentEnemy :=
          if CombatResponse.continuesCombat result then currentEnemy s else None;
        gamePhase :=
          if CombatResponse.continuesCombat result then gamePhase s else exploration;
        sidebarCollapsed := sidebarCollapsed s;
        lastCombatResult := Some (CombatResponse.combatOutcome result) |}, []).
Proof.
  intros Hcall Hb. unfold handleSyllogismAnswer in *.
  destruct (playerState closure) as [player|]; [|congruence].
  destruct (currentEnemy closure) as [enemy|]; [|congruence].
  rewrite try_await_resume. unfold resolveSyllogismCombat.
  rewrite (apiRequest_settle_any _ _ "" RequestInit.empty).
  apply (proj2 (apiRequest_fulfilled "" RequestInit.empty o result)) in Hb.
  rewrite Hb.
  destruct (CombatResponse.continuesCombat result); reflexivity.
Qed.

(** C3.  When the call of [/combat/syllogism] succeeds with [result]:
    [playerState] becomes [result.updatedPlayer] and [lastCombatResult]
    becomes [result.combatOutcome]; if [result.continuesCombat] is false
    [currentEnemy] becomes null and [gamePhase] ['exploration'], if it is
    true both are left as they are.  This holds for the state [s] the
    answer finds on arrival, and so for the handler run in one step from
    a state in combat. *)
Theorem handleSyllogismAnswer_applies_result
  (answer : bool) (s : ClientState) (player : PlayerState.t) (enemy : Enemy.t)
  (r : Response CombatResponse.t) (result : CombatResponse.t)
  (Hplayer : playerState s = Some player)
  (Henemy : currentEnemy s = Some enemy)
  (Hphase : gamePhase s = combat)
  (Hok : ok r = true)
  (Hbody : jsonBody r = Some result) :
  (forall s',
      resume_of (handleSyllogismAnswer answer s) (FetchResponse r) s'
      = ({| playerState := Some (CombatResponse.updatedPlayer result);
            currentScenario := currentScenario s';
            currentEnemy :=
              if CombatResponse.continuesCombat result then currentEnemy s' else None;
            gamePhase :=
              if CombatResponse.continuesCombat result then gamePhase s' else exploration;
            sidebarCollapsed := sidebarCollapsed s';
            lastCombatResult := Some (CombatResponse.combatOutcome result) |}, []))
  /\ (let '(s', sent_, log) :=
        run (handleSyllogismAnswer answer s) (fun _ => FetchResponse r) s in
      playerState s' = Some (CombatResponse.updatedPlayer result)
      /\ lastCombatResult s' = Some (CombatResponse.combatOutcome result)
      /\ (CombatResponse.continuesCombat result = false ->
          currentEnemy s' = None /\ gamePhase s' = exploration)
      /\ (CombatResponse.continuesCombat result = true ->
          currentEnemy s' = Some enemy /\ gamePhase s' = combat)
      /\ currentScenario s' = currentScenario s
      /\ length sent_ = 1%nat
      /\ log = []).
Proof.
  assert (Hcall : handleSyllogismAnswer answer s <> Returned).
  { rewrite handleSyllogismAnswer_guard. intros [H|H]; congruence. }
  assert (Hb : body_of (FetchResponse r) = Some result).
  { simpl. rewrite Hok. exact Hbody. }
  split.
  - intros s'. apply (handleSyllogismAnswer_resume _ _ _ _ _ Hcall Hb).
  - pose proof (handleSyllogismAnswer_resume answer s s _ _ Hcall Hb) as Hr.
    unfold run. destruct (handleSyllogismAnswer answer s) as [|before req k] eqn:Hh;
      [congruence|].
    assert (Hbefore : before s = s).
    { unfold handleSyllogismAnswer in Hh. rewrite Hplayer, Henemy in Hh.
      unfold try_await in Hh. injection Hh as <- _ _. reflexivity. }
    rewrite Hbefore. simpl in Hr. rewrite Hr. simpl.
    rewrite Henemy, Hphase.
    repeat split; try reflexivity;
      destruct (CombatResponse.continuesCombat result); congruence.
Qed.

Lemma handleSyllogismAnswer_applies_result_witness :
  (let '(s', sent_, log) :=
     run (handleSyllogismAnswer false in_combat)
         (fun _ => respond 200 "OK" (Some combat_is_over)) in_combat in
   playerState s' = Some sartre
   /\ lastCombatResult s' = Some a_hit
   /\ (false = false -> currentEnemy s' = None /\ gamePhase s' = exploration)
   /\ (false = true -> currentEnemy s' = Some ghost_diogenes /\ gamePhase s' = combat)
   /\ currentScenario s' = None
   /\ length sent_ = 1%nat
   /\ log = []).
Proof.
  apply (proj2 (handleSyllogismAnswer_applies_result false in_combat sartre
                  ghost_diogenes
                  {| status := 200; statusText := "OK"; jsonBody := Some combat_is_over |}
                  combat_is_over eq_refl eq_refl eq_refl eq_refl eq_refl)).
Defined.

Lemma handleScenarioChoice_resume (choiceId : string) (closure s : ClientState)
  (o : FetchOutcome ActionResponse) (response : ActionResponse) :
  handleScenarioChoice choiceId closure <> Returned ->
  body_of o = Some response ->
  resume_of (handleScenarioChoice choiceId closure) o s
  = (if response_type response =? "StateUpdate"
     then {| playerState := response_playerState response;
             currentScenario := None;
             currentEnemy := currentEnemy s;
             gamePhase := exploration;
             sidebarCollapsed := sidebarCollapsed s;
             lastCombatResult := lastCombatResult s |}
     else s, []).
Proof.
  intros Hcall Hb. unfold handleScenarioChoice in *.
  destruct (playerState closure) as [player|]; [|congruence].
  destruct (currentScenario closure) as [sc|]; [|congruence].
  rewrite try_await_resume. unfold submitGameAction.
  rewrite (apiRequest_settle_any _ _ "" RequestInit.empty).
  apply (proj2 (apiRequest_fulfilled "" RequestInit.empty o response)) in Hb.
  rewrite Hb.
  destruct (response_type response =? "StateUpdate"); reflexivity.
Qed.

(** C5.  With a player and a scenario held, [handleScenarioChoice] posts
    [{playerId, action: {type: 'MakeChoice', scenarioId, choiceId}}] to
    [/action].  When the call succeeds with a response tagged
    ['StateUpdate'], [playerState] becomes the player state it carries,
    [currentScenario] becomes null and [gamePhase] ['exploration']; with
    any other tag the state is left as it is. *)
Theorem handleScenarioChoice_posts_and_applies
  (choiceId : string) (s : ClientState) (player : PlayerState.t) (sc : Scenario.t)
  (r : Response ActionResponse) (response : ActionResponse)
  (Hplayer : playerState s = Some player)
  (Hscenario : currentScenario s = Some sc)
  (Hok : ok r = true)
  (Hbody : jsonBody r = Some response) :
  requests (handleScenarioChoice choiceId s)
  = [ {| url := "http://localhost:8080/api/action";
         init :=
           {| RequestInit.method := Some "POST";
              RequestInit.headers := Some (createHeaders tt);
              RequestInit.body :=
                Some (JObject
                        [("playerId", JString (PlayerState.playerId player));
                         ("action",
                          JObject [("type", JString "MakeChoice");
                                   ("scenarioId", JString (Scenario.scenarioId sc));
                                   ("choiceId", JString choiceId)])]) |} |} ]
  /\ (forall s' carried,
         response = StateUpdate carried ->
         resume_of (handleScenarioChoice choiceId s) (FetchResponse r) s'
         = ({| playerState := Some carried;
               currentScenario := None;
               currentEnemy := currentEnemy s';
               gamePhase := exploration;
               sidebarCollapsed := sidebarCollapsed s';
               lastCombatResult := lastCombatResult s' |}, []))
  /\ (forall s',
         response_type response <> "StateUpdate" ->
         resume_of (handleScenarioChoice choiceId s) (FetchResponse r) s' = (s', [])).
Proof.
  assert (Hcall : handleScenarioChoice choiceId s <> Returned).
  { rewrite handleScenarioChoice_guard. intros [H|H]; congruence. }
  assert (Hb : body_of (FetchResponse r) = Some response).
  { simpl. rewrite Hok. exact Hbody. }
  repeat split.
  - unfold handleScenarioChoice. rewrite Hplayer, Hscenario. reflexivity.
  - intros s' carried ->.
    rewrite (handleScenarioChoice_resume _ _ _ _ _ Hcall Hb). reflexivity.
  - intros s' Htag.
    rewrite (handleScenarioChoice_resume _ _ _ _ _ Hcall Hb).
    apply String.eqb_neq in Htag. rewrite Htag. reflexivity.
Qed.

Lemma handleScenarioChoice_posts_and_applies_witness :
  requests (handleScenarioChoice "pull_lever" in_scenario)
  = [ {| url := "http://localhost:8080/api/action";
         init :=
           {| RequestInit.method := Some "POST";
              RequestInit.headers := Some (createHeaders tt);
              RequestInit.body :=
                Some (JObject
                        [("playerId", JString "player-1");
                         ("action",
                          JObject [("type", JString "MakeChoice");
                                   ("scenarioId", JString "trolley_problem");
                                   ("choiceId", JString "pull_lever")])]) |} |} ]
  /\ resume_of (handleScenarioChoice "pull_lever" in_scenario)
       (respond 200 "OK" (Some (StateUpdate sartre_sophist))) in_scenario
     = ({| playerState := Some sartre_sophist;
           currentScenario := None;
           currentEnemy := None;
           gamePhase := exploration;
           sidebarCollapsed := false;
           lastCombatResult := None |}, [])
  /\ resume_of (handleScenarioChoice "pull_lever" in_scenario)
       (respond 200 "OK" (Some (OtherResponse "Narration"))) in_scenario
     = (in_scenario, []).
Proof.
  split; [|split].
  - apply (proj1 (handleScenarioChoice_posts_and_applies "pull_lever" in_scenario
                    sartre trolley_problem
                    {| status := 200; statusText := "OK";
                       jsonBody := Some (StateUpdate sartre_sophist) |}
                    (StateUpdate sartre_sophist) eq_refl eq_refl eq_refl eq_refl)).
  - apply (proj1 (proj2 (handleScenarioChoice_posts_and_applies "pull_lever" in_scenario
                    sartre trolley_problem
                    {| status := 200; statusText := "OK";
                       jsonBody := Some (StateUpdate sartre_sophist) |}
                    (StateUpdate sartre_sophist) eq_refl eq_refl eq_refl eq_refl))
                 in_scenario sartre_sophist eq_refl).
  - apply (proj2 (proj2 (handleScenarioChoice_posts_and_applies "pull_lever" in_scenario
                    sartre trolley_problem
                    {| status := 200; statusText := "OK";
                       jsonBody := Some (OtherResponse "Narration") |}
                    (OtherResponse "Narration") eq_refl eq_refl eq_refl eq_refl))
                 in_scenario).
    simpl. discriminate.
Defined.

(** C8.  [handleScenarioChoice] called while [playerState] or
    [currentScenario] is null, and [handleSyllogismAnswer] called while
    [playerState] or [currentEnemy] is null, return at once: whatever the
    network would answer, no request is sent, nothing is logged and the
    state is the one before the call; the page is left as it was. *)
Theorem handlers_return_outside_preconditions
  (choiceId : string) (answer : bool) (s : ClientState) :
  (playerState s = None \/ currentScenario s = None ->
   handleScenarioChoice choiceId s = Returned
   /\ (forall net, run (handleScenarioChoice choiceId s) net s = (s, [], []))
   /\ (forall p a, call (handleScenarioChoice choiceId s) p a = a))
  /\ (playerState s = None \/ currentEnemy s = None ->
      handleSyllogismAnswer answer s = Returned
      /\ (forall net, run (handleSyllogismAnswer answer s) net s = (s, [], []))
      /\ (forall p a, call (handleSyllogismAnswer answer s) p a = a)).
Proof.
  split; intros H.
  - apply handleScenarioChoice_guard with (choiceId := choiceId) in H.
    rewrite H. repeat split.
  - apply handleSyllogismAnswer_guard with (answer := answer) in H.
    rewrite H. repeat split.
Qed.

Lemma handlers_return_outside_preconditions_witness :
  (forall net, run (handleScenarioChoice "pull_lever" in_combat) net in_combat
               = (in_combat, [], []))
  /\ (forall net, run (handleSyllogismAnswer true in_scenario) net in_scenario
                  = (in_scenario, [], [])).
Proof.
  split.
  - apply (proj1 (handlers_return_outside_preconditions "pull_lever" true in_combat)).
    right. reflexivity.
  - apply (proj2 (handlers_return_outside_preconditions "pull_lever" true in_scenario)).
    right. reflexivity.
Defined.

(* ========================================================================= *)
(** * The running page: what every reachable state satisfies                  *)
(* ========================================================================= *)
Lemma try_await_cases {E A S} (p : Promise E A) body handler (o : E) (s s' : S) out :
  resume_of (try_await p body handler) o s = (s', out) ->
  (exists x, settle p o = Fulfilled x /\ s' = body x s /\ out = [])
  \/ (exists e, settle p o = Rejected e /\ s' = s /\ out = handler e).
Proof.
  rewrite try_await_resume. destruct (settle p o) as [x|e]; intros H; inversion H; subst.
  - left. exists x. auto.
  - right. exists e. auto.
Qed.

Lemma conforms_StateUpdate (o : FetchOutcome ActionResponse) (response : ActionResponse) :
  conforms (ActionOutcome o) = true ->
  body_of o = Some response ->
  response_type response = "StateUpdate" ->
  exists carried, response = StateUpdate carried.
Proof.
  destruct o as [e|r]; simpl; [discriminate|].
  destruct (ok r); [|discriminate].
  intros Hc Hb. rewrite Hb in Hc.
  destruct response as [carried|tag]; simpl.
  - intros _. exists carried. reflexivity.
  - intros ->. discriminate.
Qed.

Lemma resume_cases (p : Pending) (o : Outcome) (s s' : ClientState) (out : Console) :
  conforms o = true ->
  resume p o s = Some (s', out) ->
  s' = s
  \/ (exists carried,
        carried_player o = Some carried
        /\ playerState s' = Some carried
        /\ (currentEnemy s' = currentEnemy s \/ currentEnemy s' = None)).
Proof.
  intros Hc Hr.
  destruct p as [name alignment|choiceId closure|answer closure], o as [o|o|o];
    try discriminate Hr.
  - assert (Hr' : resume_of (handleCreatePlayer name alignment) o s = (s', out))
      by (unfold resume in Hr; congruence).
    clear Hr. rename Hr' into Hr.
    unfold handleCreatePlayer in Hr.
    apply try_await_cases in Hr.
    destruct Hr as [(x & Hs & -> & _)|(e & _ & -> & _)]; [right|left; reflexivity].
    apply apiRequest_fulfilled in Hs.
    exists x. simpl. repeat split; auto.
  - assert (Hr' : resume_of (handleScenarioChoice choiceId closure) o s = (s', out))
      by (unfold resume in Hr; congruence).
    clear Hr. rename Hr' into Hr.
    destruct (handleScenarioChoice choiceId closure) as [|b q k] eqn:Hh.
    { simpl in Hr. left. congruence. }
    assert (Hcall : handleScenarioChoice choiceId closure <> Returned) by congruence.
    rewrite <- Hh in Hr. clear Hh b q k.
    destruct (body_of o) as [response|] eqn:Hb.
    + pose proof (handleScenarioChoice_resume choiceId closure s o response Hcall Hb) as H.
      rewrite H in Hr.
      destruct (response_type response =? "StateUpdate") eqn:Ht.
      * apply String.eqb_eq in Ht.
        destruct (conforms_StateUpdate o response Hc Hb Ht) as [carried ->].
        right. exists carried. injection Hr as <- _. simpl. rewrite Hb. simpl.
        repeat split; auto.
      * left. congruence.
    + left. unfold handleScenarioChoice in Hr, Hcall.
      destruct (playerState closure); [|congruence].
      destruct (currentScenario closure); [|congruence].
      apply try_await_cases in Hr.
      destruct Hr as [(x & Hs & _)|(e & _ & -> & _)]; [|reflexivity].
      apply apiRequest_fulfilled in Hs. congruence.
  - assert (Hr' : resume_of (handleSyllogismAnswer answer closure) o s = (s', out))
      by (unfold resume in Hr; congruence).
    clear Hr. rename Hr' into Hr.
    destruct (handleSyllogismAnswer answer closure) as [|b q k] eqn:Hh.
    { simpl in Hr. left. congruence. }
    assert (Hcall : handleSyllogismAnswer answer closure <> Returned) by congruence.
    rewrite <- Hh in Hr. clear Hh b q k.
    simpl. destruct (body_of o) as [result|] eqn:Hb.
    + rewrite (handleSyllogismAnswer_resume answer closure s o result Hcall Hb) in Hr.
      right. exists (CombatResponse.updatedPlayer result).
      injection Hr as <- _. simpl. repeat split; auto.
      destruct (CombatResponse.continuesCombat result); auto.
    + destruct (handleSyllogismAnswer_rejected answer closure o s Hcall Hb)
        as (e & _ & He).
      left. congruence.
Qed.

Lemma handleKeyPress_frame (key : string) (random : number) (s : ClientState) :
  let s' := fst (handleKeyPress key random s) in
  playerState s' = playerState s
  /\ lastCombatResult s' = lastCombatResult s
  /\ sidebarCollapsed s' = sidebarCollapsed s
  /\ (playerState s = None -> s' = s)
  /\ (currentEnemy s' = currentEnemy s
      \/ currentEnemy s' = None
      \/ currentEnemy s' = Some ghost_diogenes).
Proof.
  unfold handleKeyPress.
  destruct (playerState s) as [p|] eqn:Hp; [|simpl; rewrite Hp; auto 10].
  destruct (toLowerCase key =? " ");
    [|destruct (toLowerCase key =? "e"); [|destruct (toLowerCase key =? "escape")]];
    repeat match goal with
           | |- context [if ?b then _ else _] => destruct b
           end;
    simpl; rewrite ?Hp; repeat split; auto; discriminate.
Qed.

Lemma call_rpg {E} (h : Async E ClientState) (p : Pending) (a : App) :
  (forall before req k, h = Awaiting before req k -> before (rpg a) = rpg a) ->
  rpg (call h p a) = rpg a
  /\ game_player (call h p a) = game_player a
  /\ game_error (call h p a) = game_error a
  /\ hostname (call h p a) = hostname a.
Proof.
  intros H. destruct h as [|before req k]; simpl; auto.
  rewrite (H before req k eq_refl). auto.
Qed.

Lemma beginJourney_before name al before req k s :
  beginJourney name al = Awaiting before req k -> before s = s.
Proof.
  unfold beginJourney, handleCreatePlayer, try_await.
  destruct (truthy_string (trim name)); [|discriminate].
  intros H. inversion H. reflexivity.
Qed.

Lemma handleScenarioChoice_before c s0 before req k s :
  handleScenarioChoice c s0 = Awaiting before req k -> before s = s.
Proof.
  unfold handleScenarioChoice, try_await.
  destruct (playerState s0); [|discriminate].
  destruct (currentScenario s0); [|discriminate].
  intros H. inversion H. reflexivity.
Qed.

Lemma handleSyllogismAnswer_before b s0 before req k s :
  handleSyllogismAnswer b s0 = Awaiting before req k -> before s = s.
Proof.
  unfold handleSyllogismAnswer, try_await.
  destruct (playerState s0); [|discriminate].
  destruct (currentEnemy s0); [|discriminate].
  intros H. inversion H. reflexivity.
Qed.

Lemma app_step_inv (a a' : App) (ev : Event) :
  app_step a ev = Some a' -> app_inv a -> app_inv a'.
Proof.
  intros Hstep (Hc & Hg & He). unfold app_inv.
  destruct ev; simpl in Hstep.
  - destruct (is_character_creation (gamePhase (rpg a))); [|discriminate].
    injection Hstep as <-.
    destruct (call_rpg (beginJourney name selectedAlignment)
                (AwaitingCreatePlayer name selectedAlignment) a) as (-> & -> & -> & _); auto.
    intros. eapply beginJourney_before; eauto.
  - destruct (gamePhase (rpg a)); try discriminate.
    destruct (currentScenario (rpg a)); [|discriminate].
    destruct (offers choiceId t); [|discriminate].
    injection Hstep as <-.
    destruct (call_rpg (handleScenarioChoice choiceId (rpg a))
                (AwaitingScenarioChoice choiceId (rpg a)) a) as (-> & -> & -> & _); auto.
    intros. eapply handleScenarioChoice_before; eauto.
  - destruct (gamePhase (rpg a)); try discriminate.
    destruct (currentEnemy (rpg a)); [|discriminate].
    injection Hstep as <-.
    destruct (call_rpg (handleSyllogismAnswer answer (rpg a))
                (AwaitingSyllogismAnswer answer (rpg a)) a) as (-> & -> & -> & _); auto.
    intros. eapply handleSyllogismAnswer_before; eauto.
  - pose proof (handleKeyPress_frame key random (rpg a)) as Hk.
    destruct (handleKeyPress key random (rpg a)) as [s' out] eqn:Hkp.
    injection Hstep as <-. simpl in *.
    destruct Hk as (Hp & _ & _ & Hnone & Hen).
    repeat split; auto.
    + destruct Hc as [Hc _]. rewrite Hp. intros Hph.
      destruct (playerState (rpg a)) eqn:Hpl; [discriminate|].
      rewrite (Hnone eq_refl) in Hph. auto.
    + destruct Hc as [_ Hc]. intros e Hee.
      destruct Hen as [Hen|[Hen|Hen]]; rewrite Hen in Hee; auto; congruence.
  - destruct (negb _ && isSome (playerState (rpg a))) eqn:Hb; [|discriminate].
    injection Hstep as <-. simpl. apply andb_true_iff in Hb. destruct Hb as [_ Hb].
    repeat split; auto; destruct Hc as [Hc1 Hc2]; simpl; auto.
    intros _. destruct (playerState (rpg a)); [discriminate|discriminate].
  - destruct (negb _ && isSome (playerState (rpg a))) eqn:Hb; [|discriminate].
    injection Hstep as <-. simpl. apply andb_true_iff in Hb. destruct Hb as [_ Hb].
    repeat split; auto; destruct Hc as [Hc1 Hc2]; simpl; auto.
    intros _. destruct (playerState (rpg a)); [discriminate|discriminate].
  - destruct (negb _); [|discriminate].
    injection Hstep as <-. simpl. repeat split; auto; apply Hc.
  - injection Hstep as <-. simpl. auto.
  - destruct (showHelp a); [|discriminate]. injection Hstep as <-. simpl. auto.
  - rewrite Hg in Hstep. unfold DevPanel.rendered in Hstep.
    rewrite andb_false_r in Hstep. discriminate.
  - rewrite Hg in Hstep. unfold DevPanel.rendered in Hstep.
    rewrite andb_false_r in Hstep. discriminate.
  - rewrite Hg in Hstep. discriminate.
  - rewrite He in Hstep. discriminate.
  - destruct (nth_error (inflight a) i) as [p|]; [|discriminate].
    destruct (conforms o) eqn:Hconf; [|discriminate].
    destruct (resume p o (rpg a)) as [[s' out]|] eqn:Hr; [|discriminate].
    injection Hstep as <-. simpl. repeat split; auto.
    + destruct (resume_cases p o (rpg a) s' out Hconf Hr) as [->|(c & _ & Hp & _)].
      * apply Hc.
      * intros _. congruence.
    + intros e Hee.
      destruct (resume_cases p o (rpg a) s' out Hconf Hr) as [->|(c & _ & _ & [Hen|Hen])].
      * apply Hc; auto.
      * apply Hc. congruence.
      * congruence.
Qed.

Lemma exec_inv (evs : list Event) (a a' : App) :
  exec evs a = Some a' -> app_inv a -> app_inv a'.
Proof.
  revert a. induction evs as [|ev evs IH]; simpl; intros a H Hinv.
  - congruence.
  - destruct (app_step a ev) as [a1|] eqn:Hs; [|discriminate].
    eapply IH; eauto using app_step_inv.
Qed.

Lemma initialApp_inv (host : string) : app_inv (initialApp host).
Proof.
  unfold app_inv, client_inv. simpl. repeat split; congruence.
Qed.

Lemma reachable_inv (host : string) (a : App) : reachable host a -> app_inv a.
Proof. intros [evs H]. eapply exec_inv; eauto using initialApp_inv. Qed.

(* ========================================================================= *)
(** * The keyboard                                                            *)
(* ========================================================================= *)
Ltac setters :=
  unfold overlays_closed, setGamePhase, setCurrentEnemy, setCurrentScenario,
    setPlayerState, setLastCombatResult, setSidebarCollapsed; simpl.

Lemma handleKeyPress_no_player (key : string) (random : number) (s : ClientState) :
  playerState s = None -> handleKeyPress key random s = (s, []).
Proof. intros H. unfold handleKeyPress. rewrite H. reflexivity. Qed.

Lemma handleKeyPress_space (random : number) (s : ClientState) (player : PlayerState.t) :
  playerState s = Some player ->
  gamePhase s = exploration ->
  handleKeyPress " " random s
  = (if number_lt random 0.3
     then {| playerState := playerState s;
             currentScenario := currentScenario s;
             currentEnemy := Some ghost_diogenes;
             gamePhase := combat;
             sidebarCollapsed := sidebarCollapsed s;
             lastCombatResult := lastCombatResult s |}
     else {| playerState := playerState s;
             currentScenario := Some trolley_problem;
             currentEnemy := currentEnemy s;
             gamePhase := scenario;
             sidebarCollapsed := sidebarCollapsed s;
             lastCombatResult := lastCombatResult s |}, []).
Proof.
  intros Hp Hph. unfold handleKeyPress. rewrite Hp, Hph. simpl.
  destruct (number_lt random 0.3); setters; rewrite ?Hp; reflexivity.
Qed.

(** Where an enemy comes from. *)
Lemma handleKeyPress_enemy (key : string) (random : number) (s : ClientState) (e : Enemy.t) :
  currentEnemy (fst (handleKeyPress key random s)) = Some e ->
  currentEnemy s <> Some e ->
  e = ghost_diogenes
  /\ gamePhase (fst (handleKeyPress key random s)) = combat
  /\ isSome (playerState s) = true
  /\ gamePhase s = exploration
  /\ toLowerCase key = " "
  /\ number_lt random 0.3 = true.
Proof.
  unfold handleKeyPress.
  destruct (playerState s) as [p|]; [|simpl; congruence].
  destruct (toLowerCase key =? " ") eqn:Hk.
  - apply String.eqb_eq in Hk.
    destruct (gamePhase s) eqn:Hph; simpl; try congruence.
    destruct (number_lt random 0.3); simpl; [|congruence].
    intros H _. injection H as <-. auto 10.
  - destruct (toLowerCase key =? "e"); [|destruct (toLowerCase key =? "escape")];
      repeat match goal with
             | |- context [if ?b then _ else _] => destruct b
             end; simpl; congruence.
Qed.

Lemma app_step_enemy (a a' : App) (ev : Event) (e : Enemy.t) :
  app_step a ev = Some a' ->
  currentEnemy (rpg a') = Some e ->
  currentEnemy (rpg a) <> Some e ->
  e = ghost_diogenes
  /\ gamePhase (rpg a') = combat
  /\ isSome (playerState (rpg a)) = true
  /\ gamePhase (rpg a) = exploration
  /\ exists key random,
       ev = KeyDown key random /\ toLowerCase key = " " /\ number_lt random 0.3 = true.
Proof.
  intros Hstep He Hne.
  destruct ev; simpl in Hstep.
  - destruct (is_character_creation (gamePhase (rpg a))); [|discriminate].
    injection Hstep as <-.
    destruct (call_rpg (beginJourney name selectedAlignment)
                (AwaitingCreatePlayer name selectedAlignment) a) as (Hr & _).
    { intros. eapply beginJourney_before; eauto. }
    rewrite Hr in He. contradiction.
  - destruct (gamePhase (rpg a)); try discriminate.
    destruct (currentScenario (rpg a)); [|discriminate].
    destruct (offers choiceId t); [|discriminate].
    injection Hstep as <-.
    destruct (call_rpg (handleScenarioChoice choiceId (rpg a))
                (AwaitingScenarioChoice choiceId (rpg a)) a) as (Hr & _).
    { intros. eapply handleScenarioChoice_before; eauto. }
    rewrite Hr in He. contradiction.
  - destruct (gamePhase (rpg a)); try discriminate.
    destruct (currentEnemy (rpg a)) eqn:Hen; [|discriminate].
    injection Hstep as <-.
    destruct (call_rpg (handleSyllogismAnswer answer (rpg a))
                (AwaitingSyllogismAnswer answer (rpg a)) a) as (Hr & _).
    { intros. eapply handleSyllogismAnswer_before; eauto. }
    rewrite Hr in He. congruence.
  - pose proof (handleKeyPress_enemy key random (rpg a) e) as Hk.
    destruct (handleKeyPress key random (rpg a)) as [s' out].
    injection Hstep as <-. simpl in *.
    destruct (Hk He Hne) as (H1 & H2 & H3 & H4 & H5 & H6).
    repeat split; auto. exists key, random. auto.
  - destruct (negb _ && _); [|discriminate]. injection Hstep as <-.
    simpl in He. contradiction.
  - destruct (negb _ && _); [|discriminate]. injection Hstep as <-.
    simpl in He. contradiction.
  - destruct (negb _); [|discriminate]. injection Hstep as <-.
    simpl in He. contradiction.
  - injection Hstep as <-. simpl in He. contradiction.
  - destruct (showHelp a); [|discriminate]. injection Hstep as <-.
    simpl in He. contradiction.
  - destruct (_ && _); [|discriminate]. injection Hstep as <-.
    simpl in He. contradiction.
  - destruct (_ && _); [|discriminate]. injection Hstep as <-.
    simpl in He. contradiction.
  - destruct (game_player a); [|discriminate].
    destruct (_ && _); [|discriminate].
    destruct (DevPanel.clickQuickTest idx t); [|discriminate].
    injection Hstep as <-. simpl in He. contradiction.
  - destruct (game_error a); [|discriminate]. injection Hstep as <-.
    simpl in He. contradiction.
  - destruct (nth_error (inflight a) i) as [p|]; [|discriminate].
    destruct (conforms o) eqn:Hconf; [|discriminate].
    destruct (resume p o (rpg a)) as [[s' out]|] eqn:Hr; [|discriminate].
    injection Hstep as <-. simpl in He.
    destruct (resume_cases p o (rpg a) s' out Hconf Hr) as [->|(c & _ & _ & [Hen|Hen])];
      congruence.
Qed.

Lemma handleKeyPress_escape_key
  (key : string) (random : number) (s : ClientState) (player : PlayerState.t) :
  toLowerCase key = "escape" ->
  playerState s = Some player ->
  handleKeyPress key random s
  = (if is_scenario_or_combat (gamePhase s) then overlays_closed s else s, []).
Proof.
  intros Hk H. unfold handleKeyPress. rewrite H, Hk. simpl.
  destruct (is_scenario_or_combat (gamePhase s)); [|reflexivity].
  setters. rewrite ?H. reflexivity.
Qed.

(** C9, as amended.  The listener does nothing unless a player is held
    (line 1040).  With a player held, the Escape key, in any letter case,
    pressed while [gamePhase] is ['scenario'] or ['combat'] sets
    [currentScenario] and [currentEnemy] to null and [gamePhase] to
    ['exploration'], and pressed in any other phase leaves
    [PhilosophicalRPG] as it is.  With no player held it leaves
    [PhilosophicalRPG] as it is in every phase.  On the page, in any
    state: [playerState] is the same, no request is sent (the list of sent
    requests and the suspended handlers are unchanged) and nothing is
    logged. *)
Theorem escape_closes_overlays
  (key : string) (random : number) (Hkey : toLowerCase key = "escape") :
  (forall s player,
      playerState s = Some player ->
      handleKeyPress key random s
      = (if is_scenario_or_combat (gamePhase s) then overlays_closed s else s, []))
  /\ (forall s, playerState s = None -> handleKeyPress key random s = (s, []))
  /\ (forall a,
         exists a',
           app_step a (KeyDown key random) = Some a'
           /\ rpg a' = (if isSome (playerState (rpg a))
                           && is_scenario_or_combat (gamePhase (rpg a))
                        then overlays_closed (rpg a)
                        else rpg a)
           /\ playerState (rpg a') = playerState (rpg a)
           /\ outbox a' = outbox a
           /\ inflight a' = inflight a
           /\ console a' = console a
           /\ game_player a' = game_player a).
Proof.
  split; [|split].
  - intros s player Hp. apply (handleKeyPress_escape_key key random s player Hkey Hp).
  - intros s Hp. apply (handleKeyPress_no_player key random s Hp).
  - intros a. unfold app_step.
    destruct (playerState (rpg a)) as [player|] eqn:Hp.
    + rewrite (handleKeyPress_escape_key key random (rpg a) player Hkey Hp).
      eexists. split; [reflexivity|]. simpl. rewrite app_nil_r.
      repeat split.
      destruct (is_scenario_or_combat (gamePhase (rpg a))); simpl; congruence.
    + rewrite (handleKeyPress_no_player key random (rpg a) Hp).
      eexists. split; [reflexivity|]. simpl. rewrite app_nil_r.
      repeat split; congruence.
Qed.

Lemma escape_closes_overlays_witness :
  exists a,
    exec (session 0.1) (initialApp "localhost") = Some a
    /\ gamePhase (rpg a) = combat
    /\ exists a',
         app_step a (KeyDown "Escape" 0) = Some a'
         /\ rpg a' = overlays_closed (rpg a)
         /\ outbox a' = outbox a.
Proof.
  eexists. split; [reflexivity|]. split; [reflexivity|].
  match goal with
  | |- exists a', app_step ?a _ = _ /\ _ =>
      destruct (proj2 (proj2 (escape_closes_overlays "Escape" 0 eq_refl)) a)
        as (a' & Hstep & Hrpg & _ & Hout & _)
  end.
  exists a'. split; [exact Hstep|]. split; [exact Hrpg|exact Hout].
Defined.

(** C9, as stated, fails: in a fight in which no player is held, the
    state line 281 leaves when the answer of [/combat/syllogism] goes on
    with the fight and has no [updatedPlayer] (a field the source declares
    [any] and stores unchecked), the Escape key does nothing: the phase is
    still ['combat'] and the enemy is still there. *)
Lemma escape_does_nothing_without_a_player :
  gamePhase (setPlayerState None in_combat) = combat
  /\ handleKeyPress "Escape" 0 (setPlayerState None in_combat)
     = ({| playerState := None;
           currentScenario := None;
           currentEnemy := Some ghost_diogenes;
           gamePhase := combat;
           sidebarCollapsed := false;
           lastCombatResult := None |}, [])
  /\ option_map rpg
       (app_step (with_rpg (setPlayerState None in_combat) [] (initialApp "localhost"))
                 (KeyDown "Escape" 0))
     = Some (setPlayerState None in_combat)
  /\ ~ escape_always_closes_overlays.
Proof.
  split; [reflexivity|]. split; [reflexivity|]. split; [reflexivity|].
  intros H. specialize (H (setPlayerState None in_combat) 0 eq_refl).
  discriminate H.
Qed.

(** C10.  With a player held and [gamePhase] ['exploration'], the space
    bar with a draw below 0.3 puts into [currentEnemy] an enemy whose
    [hitPoints] equal its [maxHitPoints] and whose [weakness] equals its
    [representedFlaw], and sets [gamePhase] to ['combat']; with any other
    draw it puts the trolley problem into [currentScenario] and sets
    [gamePhase] to ['scenario'].  No other event of the page puts a new
    enemy into [currentEnemy]. *)
Theorem space_bar_encounter
  (s : ClientState) (player : PlayerState.t) (random : number)
  (Hplayer : playerState s = Some player)
  (Hphase : gamePhase s = exploration) :
  (number_lt random 0.3 = true ->
   exists enemy,
     handleKeyPress " " random s
     = ({| playerState := playerState s;
           currentScenario := currentScenario s;
           currentEnemy := Some enemy;
           gamePhase := combat;
           sidebarCollapsed := sidebarCollapsed s;
           lastCombatResult := lastCombatResult s |}, [])
     /\ Enemy.hitPoints enemy = Enemy.maxHitPoints enemy
     /\ Enemy.weakness enemy = Enemy.representedFlaw enemy)
  /\ (number_lt random 0.3 = false ->
      handleKeyPress " " random s
      = ({| playerState := playerState s;
            currentScenario := Some trolley_problem;
            currentEnemy := currentEnemy s;
            gamePhase := scenario;
            sidebarCollapsed := sidebarCollapsed s;
            lastCombatResult := lastCombatResult s |}, [])
      /\ Scenario.scenarioId trolley_problem = "trolley_problem")
  /\ (forall a ev a' enemy,
         app_step a ev = Some a' ->
         currentEnemy (rpg a') = Some enemy ->
         currentEnemy (rpg a) <> Some enemy ->
         Enemy.hitPoints enemy = Enemy.maxHitPoints enemy
         /\ Enemy.weakness enemy = Enemy.representedFlaw enemy
         /\ gamePhase (rpg a') = combat
         /\ isSome (playerState (rpg a)) = true
         /\ gamePhase (rpg a) = exploration
         /\ exists key draw,
              ev = KeyDown key draw
              /\ toLowerCase key = " "
              /\ number_lt draw 0.3 = true).
Proof.
  pose proof (handleKeyPress_space random s player Hplayer Hphase) as H.
  split; [|split].
  - intros Hlt. rewrite Hlt in H. exists ghost_diogenes. rewrite H.
    repeat split.
  - intros Hge. rewrite Hge in H. rewrite H. split; reflexivity.
  - intros a ev a' enemy Hstep Hnew Hold.
    destruct (app_step_enemy a a' ev enemy Hstep Hnew Hold)
      as (-> & H2 & H3 & H4 & H5).
    repeat split; assumption.
Qed.

Lemma space_bar_encounter_witness :
  (exists enemy,
      handleKeyPress " " 0.1 (clickExplore in_scenario)
      = ({| playerState := Some sartre;
            currentScenario := Some trolley_problem;
            currentEnemy := Some enemy;
            gamePhase := combat;
            sidebarCollapsed := false;
            lastCombatResult := None |}, [])
      /\ Enemy.hitPoints enemy = Enemy.maxHitPoints enemy
      /\ Enemy.weakness enemy = Enemy.representedFlaw enemy)
  /\ handleKeyPress " " 0.3 (clickExplore in_scenario)
     = ({| playerState := Some sartre;
           currentScenario := Some trolley_problem;
           currentEnemy := None;
           gamePhase := scenario;
           sidebarCollapsed := false;
           lastCombatResult := None |}, []).
Proof.
  split.
  - apply (proj1 (space_bar_encounter (clickExplore in_scenario) sartre 0.1
                    eq_refl eq_refl)).
    reflexivity.
  - apply (proj1 (proj2 (space_bar_encounter (clickExplore in_scenario) sartre 0.3
                           eq_refl eq_refl))).
    reflexivity.
Defined.

(* ========================================================================= *)
(** * Errors                                                                  *)
(* ========================================================================= *)

(** C4, as amended.  For a response [r]: [apiRequest] rejects with
    [Error('API Error: ' + status + ' ' + statusText)], whatever the body,
    exactly when [r.ok] is false; when [r.ok] is true it settles as
    [r.json()] does.  When [fetch] itself rejects, so does [apiRequest],
    with the same error.  The three handlers of [PhilosophicalRPG], when
    the call does not yield a body, log the error under their label and
    leave the state as it is. *)
Theorem apiRequest_settlement
  (T : Type) (endpoint : string) (options : RequestInit.t) (r : Response T) :
  (ok r = false ->
   settle (apiRequest endpoint options) (FetchResponse r)
   = Rejected (Error ("API Error: " ++ string_of_status (status r)
                        ++ " " ++ statusText r)))
  /\ (ok r = true ->
      settle (apiRequest endpoint options) (FetchResponse r) = json_ r)
  /\ ((exists m, settle (apiRequest endpoint options) (FetchResponse r)
                 = Rejected (Error m))
      <-> ok r = false)
  /\ (forall e, settle (@apiRequest T endpoint options) (FetchFailed e) = Rejected e)
  /\ (forall name alignment o s,
         body_of o = None ->
         exists e,
           settle (createPlayer name alignment) o = Rejected e
           /\ resume_of (handleCreatePlayer name alignment) o s
              = (s, [console_error "Failed to create player:" e]))
  /\ (forall choiceId closure o s,
         handleScenarioChoice choiceId closure <> Returned ->
         body_of o = None ->
         exists e,
           settle (apiRequest "/action" RequestInit.empty) o = Rejected e
           /\ resume_of (handleScenarioChoice choiceId closure) o s
              = (s, [console_error "Failed to process choice:" e]))
  /\ (forall answer closure o s,
         handleSyllogismAnswer answer closure <> Returned ->
         body_of o = None ->
         exists e,
           settle (apiRequest "/combat/syllogism" RequestInit.empty) o = Rejected e
           /\ resume_of (handleSyllogismAnswer answer closure) o s
              = (s, [console_error "Failed to resolve combat:" e])).
Proof.
  split; [apply apiRequest_not_ok|].
  split; [apply apiRequest_ok|].
  split; [|split; [reflexivity|]].
  - split.
    + intros [m Hm]. destruct (ok r) eqn:Hok; [|reflexivity].
      rewrite (apiRequest_ok _ _ _ Hok) in Hm. unfold json_ in Hm.
      destruct (jsonBody r); discriminate.
    + intros Hok. eexists. apply apiRequest_not_ok. exact Hok.
  - split; [|split].
    + intros. apply handleCreatePlayer_rejected. assumption.
    + intros. apply handleScenarioChoice_rejected; assumption.
    + intros. apply handleSyllogismAnswer_rejected; assumption.
Qed.

Lemma apiRequest_settlement_witness :
  settle (createPlayer "Sartre" Existentialist)
         (respond 404 "Not Found" (Some sartre))
  = Rejected (Error "API Error: 404 Not Found").
Proof.
  apply (proj1 (apiRequest_settlement PlayerState.t "/player/create"
                  (post (JObject [("playerName", JString "Sartre");
                                  ("initialAlignment", JString "Existentialist")]))
                  {| status := 404; statusText := "Not Found";
                     jsonBody := Some sartre |})).
  reflexivity.
Defined.

(** C4, as stated, fails: a response with status 200 whose body cannot be
    read as JSON is [ok], and [apiRequest] rejects all the same; and
    [refreshPlayerState], a caller of [apiRequest], does not log a
    rejection, it stores its message in [error]. *)
Lemma apiRequest_rejects_an_ok_response :
  ok {| status := 200; statusText := "OK"; jsonBody := @None PlayerState.t |} = true
  /\ settle (createPlayer "Sartre" Existentialist) (respond 200 "OK" None)
     = Rejected (SyntaxError "Unexpected end of JSON input")
  /\ ~ rejects_exactly_on_non_2xx
  /\ run (UseGameState.refreshPlayerState (Some "player-1"))
         (fun _ => respond 500 "Internal Server Error" None)
         UseGameState.initial
     = ({| UseGameState.playerState := None;
           UseGameState.loading := false;
           UseGameState.error := Some "API Error: 500 Internal Server Error" |},
        [ {| url := "http://localhost:8080/api/player/player-1";
             init := {| RequestInit.method := None;
                        RequestInit.headers := Some (createHeaders tt);
                        RequestInit.body := None |} |} ],
        []).
Proof.
  split; [reflexivity|]. split; [reflexivity|]. split; [|reflexivity].
  intros H.
  destruct (H PlayerState.t "/player/create" RequestInit.empty
              {| status := 200; statusText := "OK"; jsonBody := None |}) as [H1 _].
  assert (Hok : ok {| status := 200; statusText := "OK";
                      jsonBody := @None PlayerState.t |} = false).
  { apply H1. eexists. reflexivity. }
  discriminate Hok.
Qed.

(* ========================================================================= *)
(** * Character creation                                                      *)
(* ========================================================================= *)

(** C7, as amended.  [createPlayer] itself checks nothing; the check is in
    the Begin Journey button.  For every name whose trimmed form is empty
    (the name is empty or made of white space only) the button is
    disabled and its click handler does not call [handleCreatePlayer]: no
    request is sent, nothing is logged, no player is created and the page
    is left as it was. *)
Theorem begin_journey_requires_a_name
  (name : string) (selectedAlignment : PhilosophicalAlignment) (a : App)
  (Hblank : trim name = "")
  (Hphase : gamePhase (rpg a) = character_creation) :
  allWhiteSpace name = true
  /\ beginJourney_disabled name = true
  /\ beginJourney name selectedAlignment = Returned
  /\ (forall net s, run (beginJourney name selectedAlignment) net s = (s, [], []))
  /\ app_step a (ClickBeginJourney name selectedAlignment) = Some a.
Proof.
  split; [apply trim_empty_iff; exact Hblank|].
  assert (Hret : beginJourney name selectedAlignment = Returned).
  { unfold beginJourney. rewrite Hblank. reflexivity. }
  split; [unfold beginJourney_disabled; rewrite Hblank; reflexivity|].
  split; [exact Hret|].
  split; [intros; rewrite Hret; reflexivity|].
  simpl. rewrite Hphase, Hret. reflexivity.
Qed.

Lemma begin_journey_requires_a_name_witness :
  app_step (initialApp "localhost") (ClickBeginJourney "   " Nihilist)
  = Some (initialApp "localhost").
Proof.
  apply (begin_journey_requires_a_name "   " Nihilist (initialApp "localhost")
           eq_refl eq_refl).
Defined.

(** C7, as stated, fails: [createPlayer] called with a blank name sends
    the request with that name, and succeeds when the server answers with
    a player; [handleCreatePlayer] then holds the player. *)
Lemma createPlayer_accepts_a_blank_name :
  trim " " = ""
  /\ body_field "playerName" (sent (createPlayer " " Undecided)) = Some (JString " ")
  /\ settle (createPlayer " " Undecided) (respond 200 "OK" (Some sartre))
     = Fulfilled sartre
  /\ fst (fst (run (handleCreatePlayer " " Undecided)
                   (fun _ => respond 200 "OK" (Some sartre))
                   initialClientState))
     = {| playerState := Some sartre;
          currentScenario := None;
          currentEnemy := None;
          gamePhase := exploration;
          sidebarCollapsed := false;
          lastCombatResult := None |}
  /\ ~ createPlayer_rejects_blank_names.
Proof.
  repeat split.
  intros H.
  destruct (H " " Undecided (respond 200 "OK" (Some sartre)) eq_refl) as [e He].
  discriminate He.
Qed.

(* ========================================================================= *)
(** * The DevPanel                                                            *)
(* ========================================================================= *)

Lemma clickQuickTest_cases (idx : nat) (p p' : PlayerState.t) :
  DevPanel.clickQuickTest idx p = Some p' ->
  (idx = 0%nat /\ p' = DevPanel.spread p
                     {| DevPanel.philosophicalAlignment := Utilitarian;
                        DevPanel.authenticityMetric :=
                          DevPanel.with_value 95 (PlayerState.authenticityMetric p) |})
  \/ (idx = 1%nat /\ p' = DevPanel.spread p
                        {| DevPanel.philosophicalAlignment := Nihilist;
                           DevPanel.authenticityMetric :=
                             DevPanel.with_value_markers 25 [Hypocrite; Hedonist]
                               (PlayerState.authenticityMetric p) |})
  \/ (idx = 2%nat /\ p' = DevPanel.spread p
                        {| DevPanel.philosophicalAlignment := Existentialist;
                           DevPanel.authenticityMetric :=
                             DevPanel.with_value 60 (PlayerState.authenticityMetric p) |}).
Proof.
  unfold DevPanel.clickQuickTest.
  destruct idx as [|[|[|n]]]; simpl.
  - intros H. injection H as <-. auto.
  - intros H. injection H as <-. auto.
  - intros H. injection H as <-. auto.
  - destruct n; discriminate.
Qed.

(** C6, as amended.  Of the three quick test states of the DevPanel, the
    first and the third keep [permanentMarkers] as it is, and the second
    replaces it by [Hypocrite, Hedonist]: a marker of the old state is in
    the new one if the button is not the second or the marker is
    [Hypocrite] or [Hedonist]. *)
Theorem quick_test_markers
  (idx : nat) (p p' : PlayerState.t)
  (Hclick : DevPanel.clickQuickTest idx p = Some p') :
  markers p' = (if Nat.eqb idx 1 then [Hypocrite; Hedonist] else markers p)
  /\ (forall m,
         In m (markers p) ->
         idx <> 1%nat \/ m = Hypocrite \/ m = Hedonist ->
         In m (markers p')).
Proof.
  destruct (clickQuickTest_cases idx p p' Hclick) as [[-> ->]|[[-> ->]|[-> ->]]];
    (split; [reflexivity|]); intros m Hin Hm.
  - exact Hin.
  - destruct Hm as [Hm|[->| ->]]; [congruence|left; reflexivity|right; left; reflexivity].
  - exact Hin.
Qed.

Lemma quick_test_markers_witness :
  exists p',
    DevPanel.clickQuickTest 2 sartre_sophist = Some p'
    /\ markers p' = [Sophist]
    /\ In Sophist (markers p').
Proof.
  eexists. split; [reflexivity|].
  split.
  - apply (proj1 (quick_test_markers 2 sartre_sophist _ eq_refl)).
  - apply (proj2 (quick_test_markers 2 sartre_sophist _ eq_refl) Sophist).
    + left. reflexivity.
    + left. discriminate.
Defined.

(** C6, as stated, fails: the quick test state 'Corrupted Nihilist' applied
    to a player that has the marker [Sophist] yields a player that does
    not have it. *)
Lemma quick_test_removes_a_marker :
  has_marker Sophist sartre_sophist = true
  /\ option_map markers (DevPanel.clickQuickTest 1 sartre_sophist)
     = Some [Hypocrite; Hedonist]
  /\ option_map (has_marker Sophist) (DevPanel.clickQuickTest 1 sartre_sophist)
     = Some false
  /\ ~ add_only (DevPanel.clickQuickTest 1)
  /\ option_map game_player
       (app_step (dev_page sartre_sophist) (ClickQuickTest 1))
     = Some (DevPanel.clickQuickTest 1 sartre_sophist).
Proof.
  split; [reflexivity|]. split; [reflexivity|]. split; [reflexivity|].
  split; [|reflexivity].
  intros H.
  destruct (DevPanel.clickQuickTest 1 sartre_sophist) as [p'|] eqn:Hc;
    [|discriminate Hc].
  specialize (H sartre_sophist p' Sophist Hc (or_introl eq_refl)).
  injection Hc as <-. simpl in H.
  destruct H as [H|[H|[]]]; discriminate H.
Qed.

(* ========================================================================= *)
(** * Where the player state comes from                                       *)
(* ========================================================================= *)

Lemma resume_player (p : Pending) (o : Outcome) (s s' : ClientState) (out : Console) :
  conforms o = true ->
  resume p o s = Some (s', out) ->
  playerState s' = playerState s \/ playerState s' = carried_player o.
Proof.
  intros Hc Hr.
  destruct (resume_cases p o s s' out Hc Hr) as [->|(c & H1 & H2 & _)]; [left|right];
    congruence.
Qed.

Lemma resume_lastCombatResult
  (p : Pending) (o : Outcome) (s s' : ClientState) (out : Console) :
  resume p o s = Some (s', out) ->
  lastCombatResult s' = lastCombatResult s
  \/ exists o' result,
       o = SyllogismOutcome o'
       /\ body_of o' = Some result
       /\ lastCombatResult s' = Some (CombatResponse.combatOutcome result).
Proof.
  intros Hr.
  destruct p as [name alignment|choiceId closure|answer closure], o as [o|o|o];
    try discriminate Hr.
  - assert (Hr' : resume_of (handleCreatePlayer name alignment) o s = (s', out))
      by (unfold resume in Hr; congruence).
    unfold handleCreatePlayer in Hr'. apply try_await_cases in Hr'.
    destruct Hr' as [(x & _ & -> & _)|(e & _ & -> & _)]; left; reflexivity.
  - assert (Hr' : resume_of (handleScenarioChoice choiceId closure) o s = (s', out))
      by (unfold resume in Hr; congruence).
    left. unfold handleScenarioChoice in Hr'.
    destruct (playerState closure); [|simpl in Hr'; congruence].
    destruct (currentScenario closure); [|simpl in Hr'; congruence].
    apply try_await_cases in Hr'.
    destruct Hr' as [(x & _ & -> & _)|(e & _ & -> & _)]; [|reflexivity].
    destruct (response_type x =? "StateUpdate"); reflexivity.
  - assert (Hr' : resume_of (handleSyllogismAnswer answer closure) o s = (s', out))
      by (unfold resume in Hr; congruence).
    destruct (handleSyllogismAnswer answer closure) as [|b q k] eqn:Hh.
    { simpl in Hr'. left. congruence. }
    assert (Hcall : handleSyllogismAnswer answer closure <> Returned) by congruence.
    rewrite <- Hh in Hr'.
    destruct (body_of o) as [result|] eqn:Hb.
    + rewrite (handleSyllogismAnswer_resume answer closure s o result Hcall Hb) in Hr'.
      right. exists o, result. injection Hr' as <- _. auto.
    + destruct (handleSyllogismAnswer_rejected answer closure o s Hcall Hb)
        as (e & _ & He).
      left. congruence.
Qed.

(** What an answer of [/combat/syllogism] does to the state depends on
    that answer alone: not on the button that was clicked, not on the
    state the handler was called in. *)
Lemma handleSyllogismAnswer_resume_any
  (answer answer' : bool) (closure closure' s : ClientState)
  (o : FetchOutcome CombatResponse.t) :
  handleSyllogismAnswer answer closure <> Returned ->
  handleSyllogismAnswer answer' closure' <> Returned ->
  resume_of (handleSyllogismAnswer answer closure) o s
  = resume_of (handleSyllogismAnswer answer' closure') o s.
Proof.
  intros H H'. destruct (body_of o) as [result|] eqn:Hb.
  - rewrite (handleSyllogismAnswer_resume answer closure s o result H Hb).
    rewrite (handleSyllogismAnswer_resume answer' closure' s o result H' Hb).
    reflexivity.
  - destruct (handleSyllogismAnswer_rejected answer closure o s H Hb) as (e & He & ->).
    destruct (handleSyllogismAnswer_rejected answer' closure' o s H' Hb) as (e' & He' & ->).
    congruence.
Qed.

(** What one event can do to the player states and to the last combat
    result. *)
Lemma app_step_players (a a' : App) (ev : Event) :
  app_step a ev = Some a' ->
  match ev with
  | Settle i o =>
      game_player a' = game_player a
      /\ conforms o = true
      /\ exists p out, resume p o (rpg a) = Some (rpg a', out)
  | ClickQuickTest idx =>
      rpg a' = rpg a
      /\ outbox a' = outbox a
      /\ inflight a' = inflight a
      /\ exists player,
           game_player a = Some player
           /\ game_player a' = DevPanel.clickQuickTest idx player
  | _ =>
      playerState (rpg a') = playerState (rpg a)
      /\ lastCombatResult (rpg a') = lastCombatResult (rpg a)
      /\ game_player a' = game_player a
  end.
Proof.
  intros Hstep. destruct ev; simpl in Hstep.
  - destruct (is_character_creation (gamePhase (rpg a))); [|discriminate].
    injection Hstep as <-.
    destruct (call_rpg (beginJourney name selectedAlignment)
                (AwaitingCreatePlayer name selectedAlignment) a) as (-> & -> & _); auto.
    intros. eapply beginJourney_before; eauto.
  - destruct (gamePhase (rpg a)); try discriminate.
    destruct (currentScenario (rpg a)); [|discriminate].
    destruct (offers choiceId t); [|discriminate].
    injection Hstep as <-.
    destruct (call_rpg (handleScenarioChoice choiceId (rpg a))
                (AwaitingScenarioChoice choiceId (rpg a)) a) as (-> & -> & _); auto.
    intros. eapply handleScenarioChoice_before; eauto.
  - destruct (gamePhase (rpg a)); try discriminate.
    destruct (currentEnemy (rpg a)); [|discriminate].
    injection Hstep as <-.
    destruct (call_rpg (handleSyllogismAnswer answer (rpg a))
                (AwaitingSyllogismAnswer answer (rpg a)) a) as (-> & -> & _); auto.
    intros. eapply handleSyllogismAnswer_before; eauto.
  - pose proof (handleKeyPress_frame key random (rpg a)) as Hk.
    destruct (handleKeyPress key random (rpg a)) as [s' out].
    injection Hstep as <-. simpl in *. tauto.
  - destruct (negb _ && _); [|discriminate]. injection Hstep as <-. simpl. auto.
  - destruct (negb _ && _); [|discriminate]. injection Hstep as <-. simpl. auto.
  - destruct (negb _); [|discriminate]. injection Hstep as <-. simpl. auto.
  - injection Hstep as <-. simpl. auto.
  - destruct (showHelp a); [|discriminate]. injection Hstep as <-. simpl. auto.
  - destruct (_ && _); [|discriminate]. injection Hstep as <-. simpl. auto.
  - destruct (_ && _); [|discriminate]. injection Hstep as <-. simpl. auto.
  - destruct (game_player a) as [player|]; [|discriminate].
    destruct (_ && _); [|discriminate].
    destruct (DevPanel.clickQuickTest idx player) as [newState|] eqn:Hc; [|discriminate].
    injection Hstep as <-. simpl. repeat split. exists player. auto.
  - destruct (game_error a); [|discriminate]. injection Hstep as <-. simpl. auto.
  - destruct (nth_error (inflight a) i) as [p|]; [|discriminate].
    destruct (conforms o) eqn:Hconf; [|discriminate].
    destruct (resume p o (rpg a)) as [[s' out]|] eqn:Hr; [|discriminate].
    injection Hstep as <-. simpl. repeat split. exists p, out. exact Hr.
Qed.

(** C1, as amended.  For every event of the page: if it changes the
    [playerState] of [PhilosophicalRPG], the event is the arrival of a
    network answer and the new [playerState] is the player state that
    answer carries; if it changes [lastCombatResult], the event is the
    arrival of an answer of [/combat/syllogism] and the new value is its
    [combatOutcome]; if it changes the player held by [Game], the event
    is a click on a quick test state of the DevPanel, which builds the
    new player from the old one and sends nothing.  In every state the
    page can reach from its initial state [Game] holds no player, so the
    DevPanel is not rendered.  What a combat answer changes is decided by
    the server's response alone, whichever button was clicked. *)
Theorem player_state_changes
  (a a' : App) (ev : Event)
  (Hstep : app_step a ev = Some a') :
  (playerState (rpg a') <> playerState (rpg a) ->
   exists i o,
     ev = Settle i o /\ playerState (rpg a') = carried_player o)
  /\ (lastCombatResult (rpg a') <> lastCombatResult (rpg a) ->
      exists i o result,
        ev = Settle i (SyllogismOutcome o)
        /\ body_of o = Some result
        /\ lastCombatResult (rpg a') = Some (CombatResponse.combatOutcome result))
  /\ (game_player a' <> game_player a ->
      exists idx player,
        ev = ClickQuickTest idx
        /\ game_player a = Some player
        /\ game_player a' = DevPanel.clickQuickTest idx player
        /\ outbox a' = outbox a
        /\ inflight a' = inflight a)
  /\ (forall host,
         reachable host a ->
         game_player a = None
         /\ DevPanel.rendered (hostname a) (game_player a) = false)
  /\ (forall answer answer' closure closure' o s,
         handleSyllogismAnswer answer closure <> Returned ->
         handleSyllogismAnswer answer' closure' <> Returned ->
         resume_of (handleSyllogismAnswer answer closure) o s
         = resume_of (handleSyllogismAnswer answer' closure') o s).
Proof.
  pose proof (app_step_players a a' ev Hstep) as H.
  split; [|split; [|split; [|split]]];
    [| | | |intros; apply handleSyllogismAnswer_resume_any; assumption].
  - intros Hne. destruct ev; try (exfalso; apply Hne; tauto).
    + destruct H as (Hr & _). congruence.
    + destruct H as (_ & Hc & p & out & Hr). exists i, o. split; [reflexivity|].
      destruct (resume_player p o _ _ out Hc Hr); congruence.
  - intros Hne. destruct ev; try (exfalso; apply Hne; tauto).
    + destruct H as (Hr & _). congruence.
    + destruct H as (_ & _ & p & out & Hr).
      destruct (resume_lastCombatResult p o _ _ out Hr) as [Heq|(o' & result & -> & Hb & Hl)];
        [congruence|].
      exists i, o', result. auto.
  - intros Hne. destruct ev; try (exfalso; apply Hne; tauto).
    destruct H as (_ & Hout & Hin & player & Hp & Hp').
    exists idx, player. auto.
  - intros host Hreach.
    destruct (reachable_inv host a Hreach) as (_ & Hg & _).
    rewrite Hg. split; [reflexivity|].
    unfold DevPanel.rendered. apply andb_false_r.
Qed.

Lemma player_state_changes_witness :
  exists a a',
    exec [ClickBeginJourney "Sartre" Existentialist] (initialApp "localhost") = Some a
    /\ app_step a (Settle 0 (PlayerOutcome (respond 200 "OK" (Some sartre)))) = Some a'
    /\ playerState (rpg a') = Some sartre
    /\ game_player a = None.
Proof.
  eexists. eexists. split; [reflexivity|]. split; [reflexivity|].
  match goal with
  | |- playerState (rpg ?a') = _ /\ game_player ?a = _ =>
      pose proof (player_state_changes a a'
                    (Settle 0 (PlayerOutcome (respond 200 "OK" (Some sartre))))
                    eq_refl) as H
  end.
  destruct H as (Hplayer & _ & _ & Hgame & _).
  split.
  - destruct Hplayer as (i & o & Hev & Hp).
    + discriminate.
    + injection Hev as _ <-. exact Hp.
  - apply (Hgame "localhost").
    exists [ClickBeginJourney "Sartre" Existentialist]. reflexivity.
Defined.

(** C1, as stated, fails.  On a development host with a player in [Game]'s
    slot, the first quick test state of the DevPanel replaces that player
    by one whose authenticity value is 95 instead of 50, and nothing is
    sent; and in a run from the initial page the space bar puts an enemy
    with 25 hit points in front of the player while the only request
    sent so far is the one that created the player. *)
Lemma dev_panel_changes_the_player_locally :
  option_map authenticity (game_player (dev_page sartre)) = Some 50
  /\ (exists a',
         app_step (dev_page sartre) (ClickQuickTest 0) = Some a'
         /\ option_map authenticity (game_player a') = Some 95
         /\ held_players a' <> held_players (dev_page sartre)
         /\ outbox a' = []
         /\ inflight a' = [])
  /\ ~ every_player_change_comes_from_a_response
  /\ (exists a,
         exec (session 0.1) (initialApp "localhost") = Some a
         /\ option_map Enemy.hitPoints (currentEnemy (rpg a)) = Some 25
         /\ gamePhase (rpg a) = combat
         /\ outbox a = [sent (createPlayer "Sartre" Existentialist)]
         /\ inflight a = []).
Proof.
  split; [reflexivity|].
  split.
  { eexists. split; [reflexivity|]. split; [reflexivity|].
    split; [discriminate|]. split; reflexivity. }
  split.
  { intros H.
    destruct (H (dev_page sartre) (ClickQuickTest 0) _ eq_refl) as (i & o & Hev).
    - discriminate.
    - discriminate Hev. }
  eexists. split; [reflexivity|]. repeat split.
Qed.

(* ========================================================================= *)
(** * What is sent                                                            *)
(* ========================================================================= *)

Lemma call_outbox {E} (h : Async E ClientState) (p : Pending) (a : App) :
  outbox (call h p a) = outbox a ++ requests h.
Proof. destruct h; simpl; [rewrite app_nil_r|]; reflexivity. Qed.

Lemma app_step_outbox (a a' : App) (ev : Event) :
  app_step a ev = Some a' ->
  exists reqs, outbox a' = outbox a ++ reqs /\ Forall placeholder_only reqs.
Proof.
  intros Hstep.
  assert (Hsame : outbox a' = outbox a ->
                  exists reqs, outbox a' = outbox a ++ reqs /\ Forall placeholder_only reqs).
  { intros ->. exists []. rewrite app_nil_r. split; [reflexivity|constructor]. }
  destruct ev; simpl in Hstep.
  - destruct (is_character_creation (gamePhase (rpg a))); [|discriminate].
    injection Hstep as <-. rewrite call_outbox. eexists. split; [reflexivity|].
    unfold beginJourney. destruct (truthy_string (trim name)); constructor; [|constructor].
    intros Hurl. discriminate Hurl.
  - destruct (gamePhase (rpg a)); try discriminate.
    destruct (currentScenario (rpg a)) as [sc|] eqn:Hsc; [|discriminate].
    destruct (offers choiceId sc); [|discriminate].
    injection Hstep as <-. rewrite call_outbox. eexists. split; [reflexivity|].
    unfold handleScenarioChoice. rewrite Hsc.
    destruct (playerState (rpg a)); constructor; [|constructor].
    intros Hurl. discriminate Hurl.
  - destruct (gamePhase (rpg a)); try discriminate.
    destruct (currentEnemy (rpg a)); [|discriminate].
    injection Hstep as <-. rewrite call_outbox. eexists. split; [reflexivity|].
    eapply Forall_impl; [|apply handleSyllogismAnswer_requests].
    intros req (_ & _ & H) _. exact H.
  - destruct (handleKeyPress key random (rpg a)). injection Hstep as <-. auto.
  - destruct (negb _ && _); [|discriminate]. injection Hstep as <-. auto.
  - destruct (negb _ && _); [|discriminate]. injection Hstep as <-. auto.
  - destruct (negb _); [|discriminate]. injection Hstep as <-. auto.
  - injection Hstep as <-. auto.
  - destruct (showHelp a); [|discriminate]. injection Hstep as <-. auto.
  - destruct (_ && _); [|discriminate]. injection Hstep as <-. auto.
  - destruct (_ && _); [|discriminate]. injection Hstep as <-. auto.
  - destruct (game_player a); [|discriminate].
    destruct (_ && _); [|discriminate].
    destruct (DevPanel.clickQuickTest idx t); [|discriminate].
    injection Hstep as <-. auto.
  - destruct (game_error a); [|discriminate]. injection Hstep as <-. auto.
  - destruct (nth_error (inflight a) i); [|discriminate].
    destruct (conforms o); [|discriminate].
    destruct (resume p o (rpg a)) as [[s' out]|]; [|discriminate].
    injection Hstep as <-. auto.
Qed.

Lemma exec_outbox (evs : list Event) (a a' : App) :
  exec evs a = Some a' ->
  Forall placeholder_only (outbox a) ->
  Forall placeholder_only (outbox a').
Proof.
  revert a. induction evs as [|ev evs IH]; simpl; intros a H Hinv.
  - congruence.
  - destruct (app_step a ev) as [a1|] eqn:Hs; [|discriminate].
    apply (IH a1 H).
    destruct (app_step_outbox a a1 ev Hs) as (reqs & -> & Hreqs).
    apply Forall_app. auto.
Qed.

(** C2.  Whatever the answer and whatever the state, a request sent by
    [handleSyllogismAnswer] goes to [POST /combat/syllogism] and the
    [syllogismId] of its body is the string ['current_syllogism']; when a
    player and an enemy are held exactly one such request is sent, with
    the player's id, the answer and the enemy's id next to it; and in
    every state the page can reach, every request to [/combat/syllogism]
    that has been sent names that placeholder. *)
Theorem syllogism_id_is_a_placeholder :
  (forall answer s,
      Forall (fun req =>
                url req = "http://localhost:8080/api/combat/syllogism"
                /\ RequestInit.method (init req) = Some "POST"
                /\ body_field "syllogismId" req = Some (JString "current_syllogism"))
             (requests (handleSyllogismAnswer answer s)))
  /\ (forall answer s player enemy,
         playerState s = Some player ->
         currentEnemy s = Some enemy ->
         requests (handleSyllogismAnswer answer s)
         = [ {| url := "http://localhost:8080/api/combat/syllogism";
                init :=
                  {| RequestInit.method := Some "POST";
                     RequestInit.headers := Some (createHeaders tt);
                     RequestInit.body :=
                       Some (JObject
                               [("requestPlayerId", JString (PlayerState.playerId player));
                                ("syllogismId", JString "current_syllogism");
                                ("playerAnswer", JBool answer);
                                ("enemyId", JString (Enemy.enemyId enemy))]) |} |} ])
  /\ (forall host a, reachable host a -> Forall placeholder_only (outbox a)).
Proof.
  split; [exact handleSyllogismAnswer_requests|]. split.
  - intros answer s player enemy Hp He.
    unfold handleSyllogismAnswer. rewrite Hp, He. reflexivity.
  - intros host a [evs Hevs]. apply (exec_outbox evs _ a Hevs). constructor.
Qed.

Lemma syllogism_id_is_a_placeholder_witness :
  requests (handleSyllogismAnswer true in_combat)
  = [ {| url := "http://localhost:8080/api/combat/syllogism";
         init :=
           {| RequestInit.method := Some "POST";
              RequestInit.headers := Some (createHeaders tt);
              RequestInit.body :=
                Some (JObject
                        [("requestPlayerId", JString "player-1");
                         ("syllogismId", JString "current_syllogism");
                         ("playerAnswer", JBool true);
                         ("enemyId", JString "ghost_diogenes")]) |} |} ]
  /\ (exists a,
         exec (session 0.1 ++ [ClickAnswer false]) (initialApp "localhost") = Some a
         /\ length (outbox a) = 2%nat
         /\ Forall placeholder_only (outbox a)).
Proof.
  split.
  - apply (proj1 (proj2 syllogism_id_is_a_placeholder) true in_combat
                 sartre ghost_diogenes); reflexivity.
  - eexists. split; [reflexivity|]. split; [reflexivity|].
    apply (proj2 (proj2 syllogism_id_is_a_placeholder) "localhost").
    exists (session 0.1 ++ [ClickAnswer false]). reflexivity.
Defined.

(* ========================================================================= *)
(** * Two sessions                                                            *)
(* ========================================================================= *)

(** A scenario is met and a choice is made; a fight is met, one answer is
    lost to a server error and the next one ends the fight. *)
Example scenario_session :
  option_map rpg
    (exec (session 0.5
           ++ [ ClickChoice "pull_lever";
                Settle 0 (ActionOutcome (respond 200 "OK" (Some (StateUpdate sartre_sophist)))) ])
          (initialApp "example.org"))
  = Some {| playerState := Some sartre_sophist;
            currentScenario := None;
            currentEnemy := None;
            gamePhase := exploration;
            sidebarCollapsed := false;
            lastCombatResult := None |}.
Proof. reflexivity. Qed.

Example combat_session :
  option_map (fun a => (rpg a, length (outbox a), console a))
    (exec (session 0.25
           ++ [ ClickAnswer false;
                Settle 0 (SyllogismOutcome (respond 200 "OK" (Some combat_goes_on)));
                ClickAnswer true;
                Settle 0 (SyllogismOutcome (respond 503 "Service Unavailable" None));
                ClickAnswer false;
                Settle 0 (SyllogismOutcome (respond 200 "OK" (Some combat_is_over))) ])
          (initialApp "example.org"))
  = Some ({| playerState := Some sartre;
             currentScenario := None;
             currentEnemy := None;
             gamePhase := exploration;
             sidebarCollapsed := false;
             lastCombatResult := Some a_hit |},
          4%nat,
          [console_error "Failed to resolve combat:"
             (Error "API Error: 503 Service Unavailable")]).
Proof. reflexivity. Qed.

(* ========================================================================= *)
(** * What the components show                                                *)
(* ========================================================================= *)

Lemma number_ge_mono (v w t : number) :
  (v <= w)%Q -> number_ge v t = true -> number_ge w t = true.
Proof.
  unfold number_ge. intros Hle H. apply Qle_bool_iff in H.
  apply Qle_bool_iff. eapply Qle_trans; eauto.
Qed.

Lemma number_ge_thresholds (v s t : number) :
  (s <= t)%Q -> number_ge v t = true -> number_ge v s = true.
Proof.
  unfold number_ge. intros Hle H. apply Qle_bool_iff in H.
  apply Qle_bool_iff. eapply Qle_trans; eauto.
Qed.

Ltac bands v :=
  repeat match goal with
         | |- context [number_ge v ?t] =>
             let H := fresh "Hge" in destruct (number_ge v t) eqn:H
         end.

Ltac clash_mono Hle :=
  match goal with
  | H1 : number_ge ?v ?t = true, H2 : number_ge ?w ?t = false |- _ =>
      rewrite (number_ge_mono v w t Hle H1) in H2; discriminate H2
  end.

Ltac clash_thresholds :=
  match goal with
  | H1 : number_ge ?v ?t = true, H2 : number_ge ?v ?s = false |- _ =>
      rewrite (number_ge_thresholds v s t) in H2;
      [discriminate H2 | unfold Qle; simpl; lia | exact H1]
  end.

(** X1.  A higher authenticity value never gets a colour or a status text
    of a lower band: for [v <= w], the colour of [v] comes no later than
    the colour of [w] in the order dark red, red, yellow, green, and the
    status of [v] no later than the status of [w] in the order from
    'Severely Compromised' to 'Highly Authentic'. *)
Theorem authenticity_bands_are_monotone (v w : number) (Hle : (v <= w)%Q) :
  (position (getAuthenticityColor v) authenticityColors
   <= position (getAuthenticityColor w) authenticityColors)%nat
  /\ (position (getAuthenticityStatus v) authenticityStatuses
      <= position (getAuthenticityStatus w) authenticityStatuses)%nat.
Proof.
  unfold getAuthenticityColor, getAuthenticityStatus.
  split; bands v; bands w; simpl; try lia; clash_mono Hle.
Qed.

Lemma authenticity_bands_are_monotone_witness :
  (position (getAuthenticityColor 25%Q) authenticityColors
   <= position (getAuthenticityColor 60%Q) authenticityColors)%nat
  /\ (position (getAuthenticityStatus 25%Q) authenticityStatuses
      <= position (getAuthenticityStatus 60%Q) authenticityStatuses)%nat.
Proof.
  apply (authenticity_bands_are_monotone 25 60).
  unfold Qle. simpl. lia.
Defined.

(** X2.  The colour and the status text cut the scale at different
    values, and agree at both ends: a value shown as 'Highly Authentic'
    is green, a green value is 'Highly Authentic' or 'Authentic', a value
    shown as 'Severely Compromised' is dark red, and a dark red value is
    'Severely Compromised' or 'Inconsistent'. *)
Theorem authenticity_colour_and_status_agree (v : number) :
  (getAuthenticityStatus v = "Highly Authentic" -> getAuthenticityColor v = "#10B981")
  /\ (getAuthenticityColor v = "#10B981" ->
      getAuthenticityStatus v = "Highly Authentic"
      \/ getAuthenticityStatus v = "Authentic")
  /\ (getAuthenticityStatus v = "Severely Compromised" ->
      getAuthenticityColor v = "#7C2D12")
  /\ (getAuthenticityColor v = "#7C2D12" ->
      getAuthenticityStatus v = "Severely Compromised"
      \/ getAuthenticityStatus v = "Inconsistent").
Proof.
  unfold getAuthenticityColor, getAuthenticityStatus.
  repeat split; bands v; intros H; try discriminate H; auto; clash_thresholds.
Qed.

Lemma authenticity_colour_and_status_agree_witness :
  getAuthenticityColor 95 = "#10B981" /\ getAuthenticityColor 10 = "#7C2D12".
Proof.
  split.
  - apply (proj1 (authenticity_colour_and_status_agree 95)). reflexivity.
  - apply (proj1 (proj2 (proj2 (authenticity_colour_and_status_agree 10)))).
    reflexivity.
Defined.

(** X3.  Two different alignments are never drawn in the same colour nor
    described by the same text. *)
Theorem alignment_colour_is_injective (a b : PhilosophicalAlignment) (Hab : a <> b) :
  getAlignmentColor a <> getAlignmentColor b
  /\ getAlignmentDescription a <> getAlignmentDescription b.
Proof.
  split; destruct a, b; simpl; intros H; try discriminate H; apply Hab; reflexivity.
Qed.

Lemma alignment_colour_is_injective_witness :
  getAlignmentColor Nihilist <> getAlignmentColor Undecided
  /\ getAlignmentDescription Nihilist <> getAlignmentDescription Undecided.
Proof.
  apply (alignment_colour_is_injective Nihilist Undecided). discriminate.
Defined.

(** X4.  [getSpriteColor] gives the fall-back grey exactly for the
    sprite ids it has no case for, and gives two different known ids two
    different colours. *)
Theorem sprite_colour_fallback (spriteId other : string) :
  (getSpriteColor spriteId = "#757575" <-> ~ In spriteId knownSprites)
  /\ (In spriteId knownSprites -> In other knownSprites ->
      getSpriteColor spriteId = getSpriteColor other -> spriteId = other).
Proof.
  split.
  - unfold getSpriteColor, knownSprites. split.
    + intros H Hin. simpl in Hin.
      repeat (destruct Hin as [<-|Hin]; [simpl in H; discriminate H|]).
      exact Hin.
    + intros Hnot.
      repeat match goal with
             | |- context [spriteId =? ?k] =>
                 destruct (String.eqb_spec spriteId k) as [->|?];
                 [exfalso; apply Hnot; simpl; tauto|]
             end.
      reflexivity.
  - unfold knownSprites. simpl. intros H1 H2.
    repeat (destruct H1 as [<-|H1]);
      repeat (destruct H2 as [<-|H2]);
      try contradiction; simpl; intros H; try reflexivity; discriminate H.
Qed.

Lemma sprite_colour_fallback_witness :
  getSpriteColor "Player" = "#757575".
Proof.
  apply (proj1 (sprite_colour_fallback "Player" "player")).
  simpl. intros H.
  repeat (destruct H as [H|H]; [discriminate H|]). exact H.
Defined.

Lemma slots_nth_error {A} (l : list A) (slots : list nat) (i : nat) :
  nth_error (map (fun slot => nth_error l slot) slots) i
  = option_map (nth_error l) (nth_error slots i).
Proof.
  revert i. induction slots as [|s r IH]; intros [|i]; simpl; auto.
Qed.

Lemma slots_of_nothing {A} (slots : list nat) :
  map (fun slot => @nth_error A [] slot) slots = repeat None (length slots).
Proof.
  induction slots as [|s r IH]; simpl; [reflexivity|].
  rewrite IH. destruct s; reflexivity.
Qed.

Lemma slots_closed_form {A} (l : list A) (n : nat) :
  map (fun slot => nth_error l slot) (seq 0 n)
  = firstn n (map Some l) ++ repeat None (n - length l).
Proof.
  revert n. induction l as [|a l IH]; intros n.
  - rewrite slots_of_nothing, length_seq. simpl.
    rewrite firstn_nil, Nat.sub_0_r. reflexivity.
  - destruct n as [|n]; [reflexivity|].
    simpl. f_equal. rewrite <- seq_shift, map_map. simpl. apply IH.
Qed.

Lemma nth_error_seq_from (s n i : nat) :
  nth_error (seq s n) i = if (i <? n)%nat then Some (s + i)%nat else None.
Proof.
  revert s i. induction n as [|n IH]; intros s [|i]; cbn [seq nth_error]; auto.
  - change (0 <? S n)%nat with true. cbv iota. f_equal. lia.
  - rewrite IH. change (S i <? S n)%nat with (i <? n)%nat.
    destruct (i <? n)%nat; [f_equal; lia|reflexivity].
Qed.

Lemma slot_shows {A} (l : list A) (n i : nat) (x : A) :
  nth_error (map (fun slot => nth_error l slot) (seq 0 n)) i = Some (Some x)
  <-> (i < n)%nat /\ nth_error l i = Some x.
Proof.
  rewrite slots_nth_error, nth_error_seq_from. simpl.
  destruct (Nat.ltb_spec i n); simpl; split.
  - intros H0. split; [assumption|congruence].
  - intros [_ H0]. congruence.
  - discriminate.
  - intros [H0 _]. lia.
Qed.

(** X5.  The hot bar always has five item slots and [EquippedFallacies]
    always four: slot [i] shows the [i]-th item of the inventory (the
    [i]-th equipped fallacy) when there is one and is empty otherwise, so
    what is shown is the first five items (the first four fallacies)
    followed by empty slots, and an item or fallacy past those is not
    shown at all. *)
Theorem slots_show_a_prefix (player : PlayerState.t) :
  hotbarSlots player
  = firstn 5 (map Some (PlayerState.inventory player))
    ++ repeat None (5 - length (PlayerState.inventory player))
  /\ fallacySlots player
     = firstn 4 (map Some (PlayerState.equippedFallacies player))
       ++ repeat None (4 - length (PlayerState.equippedFallacies player))
  /\ length (hotbarSlots player) = 5%nat
  /\ length (fallacySlots player) = 4%nat
  /\ (forall i item,
         nth_error (hotbarSlots player) i = Some (Some item)
         <-> (i < 5)%nat /\ nth_error (PlayerState.inventory player) i = Some item)
  /\ (forall i fallacy,
         nth_error (fallacySlots player) i = Some (Some fallacy)
         <-> (i < 4)%nat
             /\ nth_error (PlayerState.equippedFallacies player) i = Some fallacy).
Proof.
  split; [apply (slots_closed_form (PlayerState.inventory player) 5)|].
  split; [apply (slots_closed_form (PlayerState.equippedFallacies player) 4)|].
  split; [reflexivity|]. split; [reflexivity|].
  split; intros i x.
  - apply (slot_shows (PlayerState.inventory player) 5 i x).
  - apply (slot_shows (PlayerState.equippedFallacies player) 4 i x).
Qed.

Lemma slots_show_a_prefix_witness :
  hotbarSlots sartre = [None; None; None; None; None]
  /\ fallacySlots sartre = [None; None; None; None].
Proof.
  rewrite (proj1 (slots_show_a_prefix sartre)).
  rewrite (proj1 (proj2 (slots_show_a_prefix sartre))).
  split; reflexivity.
Defined.

(* ========================================================================= *)
(** * Canvas rendering                                                        *)
(* ========================================================================= *)

Section ContextOperations.

Variable c : Canvas.Context2D.

Lemma context_eq (c' : Canvas.Context2D) :
  Canvas.fillStyle c = Canvas.fillStyle c' ->
  Canvas.font c = Canvas.font c' ->
  Canvas.globalAlpha c = Canvas.globalAlpha c' ->
  Canvas.drawn c = Canvas.drawn c' ->
  c = c'.
Proof. destruct c, c'; simpl; intros; subst; reflexivity. Qed.

Lemma fillStyle_setFillStyle v : Canvas.fillStyle (Canvas.setFillStyle v c) = v.
Proof. reflexivity. Qed.
Lemma font_setFillStyle v : Canvas.font (Canvas.setFillStyle v c) = Canvas.font c.
Proof. reflexivity. Qed.
Lemma globalAlpha_setFillStyle v :
  Canvas.globalAlpha (Canvas.setFillStyle v c) = Canvas.globalAlpha c.
Proof. reflexivity. Qed.
Lemma drawn_setFillStyle v : Canvas.drawn (Canvas.setFillStyle v c) = Canvas.drawn c.
Proof. reflexivity. Qed.

Lemma fillStyle_setFont v : Canvas.fillStyle (Canvas.setFont v c) = Canvas.fillStyle c.
Proof. reflexivity. Qed.
Lemma font_setFont v : Canvas.font (Canvas.setFont v c) = v.
Proof. reflexivity. Qed.
Lemma globalAlpha_setFont v :
  Canvas.globalAlpha (Canvas.setFont v c) = Canvas.globalAlpha c.
Proof. reflexivity. Qed.
Lemma drawn_setFont v : Canvas.drawn (Canvas.setFont v c) = Canvas.drawn c.
Proof. reflexivity. Qed.

Lemma fillStyle_setGlobalAlpha v :
  Canvas.fillStyle (Canvas.setGlobalAlpha v c) = Canvas.fillStyle c.
Proof. unfold Canvas.setGlobalAlpha. destruct (_ && _); reflexivity. Qed.
Lemma font_setGlobalAlpha v : Canvas.font (Canvas.setGlobalAlpha v c) = Canvas.font c.
Proof. unfold Canvas.setGlobalAlpha. destruct (_ && _); reflexivity. Qed.
Lemma globalAlpha_setGlobalAlpha v :
  Canvas.globalAlpha (Canvas.setGlobalAlpha v c) = alphaAfter v (Canvas.globalAlpha c).
Proof. unfold Canvas.setGlobalAlpha, alphaAfter. destruct (_ && _); reflexivity. Qed.
Lemma drawn_setGlobalAlpha v :
  Canvas.drawn (Canvas.setGlobalAlpha v c) = Canvas.drawn c.
Proof. unfold Canvas.setGlobalAlpha. destruct (_ && _); reflexivity. Qed.

Lemma fillStyle_fillRect x y w h :
  Canvas.fillStyle (Canvas.fillRect x y w h c) = Canvas.fillStyle c.
Proof. reflexivity. Qed.
Lemma font_fillRect x y w h : Canvas.font (Canvas.fillRect x y w h c) = Canvas.font c.
Proof. reflexivity. Qed.
Lemma globalAlpha_fillRect x y w h :
  Canvas.globalAlpha (Canvas.fillRect x y w h c) = Canvas.globalAlpha c.
Proof. reflexivity. Qed.
Lemma drawn_fillRect x y w h :
  Canvas.drawn (Canvas.fillRect x y w h c)
  = Canvas.drawn c
    ++ [Canvas.FillRect (Canvas.fillStyle c) (Canvas.globalAlpha c) x y w h].
Proof. reflexivity. Qed.

Lemma fillStyle_fillText t x y :
  Canvas.fillStyle (Canvas.fillText t x y c) = Canvas.fillStyle c.
Proof. reflexivity. Qed.
Lemma font_fillText t x y : Canvas.font (Canvas.fillText t x y c) = Canvas.font c.
Proof. reflexivity. Qed.
Lemma globalAlpha_fillText t x y :
  Canvas.globalAlpha (Canvas.fillText t x y c) = Canvas.globalAlpha c.
Proof. reflexivity. Qed.
Lemma drawn_fillText t x y :
  Canvas.drawn (Canvas.fillText t x y c)
  = Canvas.drawn c
    ++ [Canvas.FillText (Canvas.fillStyle c) (Canvas.font c) (Canvas.globalAlpha c)
          t x y].
Proof. reflexivity. Qed.

Lemma fillStyle_fillRect_w x y w h :
  Canvas.fillStyle (Canvas.fillRect_w x y w h c) = Canvas.fillStyle c.
Proof. destruct w; reflexivity. Qed.
Lemma font_fillRect_w x y w h :
  Canvas.font (Canvas.fillRect_w x y w h c) = Canvas.font c.
Proof. destruct w; reflexivity. Qed.
Lemma globalAlpha_fillRect_w x y w h :
  Canvas.globalAlpha (Canvas.fillRect_w x y w h c) = Canvas.globalAlpha c.
Proof. destruct w; reflexivity. Qed.
Lemma drawn_fillRect_w x y w h :
  Canvas.drawn (Canvas.fillRect_w x y w h c)
  = Canvas.drawn c
    ++ match w with
       | Some w => [Canvas.FillRect (Canvas.fillStyle c) (Canvas.globalAlpha c) x y w h]
       | None => []
       end.
Proof. destruct w; simpl; [reflexivity|rewrite app_nil_r; reflexivity]. Qed.

End ContextOperations.

Create Rewrite HintDb canvas.

#[local] Hint Rewrite
  fillStyle_setFillStyle font_setFillStyle globalAlpha_setFillStyle drawn_setFillStyle
  fillStyle_setFont font_setFont globalAlpha_setFont drawn_setFont
  fillStyle_setGlobalAlpha font_setGlobalAlpha globalAlpha_setGlobalAlpha
  drawn_setGlobalAlpha
  fillStyle_fillRect font_fillRect globalAlpha_fillRect drawn_fillRect
  fillStyle_fillText font_fillText globalAlpha_fillText drawn_fillText
  fillStyle_fillRect_w font_fillRect_w globalAlpha_fillRect_w drawn_fillRect_w
  : canvas.

Lemma alphaAfter_one (current : number) : alphaAfter 1 current = 1%Q.
Proof. reflexivity. Qed.

(** The particles of the exploration view, number [i] drawn at the point
    given by the draws [k + 2i] and [k + 2i + 1]. *)
Lemma particles_drawn (n k : nat) (random : nat -> number) (ctx : Canvas.Context2D) :
  Canvas.fillStyle (particles n k random ctx) = Canvas.fillStyle ctx
  /\ Canvas.font (particles n k random ctx) = Canvas.font ctx
  /\ Canvas.globalAlpha (particles n k random ctx) = Canvas.globalAlpha ctx
  /\ Canvas.drawn (particles n k random ctx)
     = Canvas.drawn ctx
       ++ map (fun i =>
                 Canvas.FillRect (Canvas.fillStyle ctx) (Canvas.globalAlpha ctx)
                   (random (k + 2 * i)%nat * 800)%Q
                   (random (S (k + 2 * i))%nat * 600)%Q 1 1)
              (seq 0 n).
Proof.
  revert k ctx. induction n as [|n IH]; intros k ctx.
  - simpl. rewrite app_nil_r. auto.
  - cbn [particles].
    destruct (IH (S (S k)) (Canvas.fillRect (random k * 800)%Q
                              (random (S k) * 600)%Q 1 1 ctx))
      as (H1 & H2 & H3 & H4).
    rewrite H1, H2, H3, H4. repeat split.
    cbn [seq map]. rewrite <- seq_shift, map_map.
    autorewrite with canvas. rewrite <- app_assoc. cbn [app].
    rewrite Nat.add_0_r. do 2 f_equal.
    apply map_ext. intros i. do 2 f_equal; f_equal; lia.
Qed.

Lemma renderExplorationView_drawn (s : ClientState) (random : nat -> number)
  (ctx : Canvas.Context2D) :
  renderExplorationView s random ctx
  = {| Canvas.fillStyle := "#cccccc";
       Canvas.font := "16px monospace";
       Canvas.globalAlpha := 1;
       Canvas.drawn :=
         Canvas.drawn ctx
         ++ map (particle "#2d2d2d" (Canvas.globalAlpha ctx) random) (seq 0 100)
         ++ [ Canvas.FillRect (getAlignmentColor (shownAlignment s))
                (Canvas.globalAlpha ctx) 390 290 20 20;
              Canvas.FillRect "#ffffff"
                (alphaAfter (shownAuthenticity s / 200)%Q (Canvas.globalAlpha ctx))
                385 285 30 30;
              Canvas.FillText "#cccccc" "16px monospace" 1
                "Press SPACE to continue journey" 250 500;
              Canvas.FillText "#cccccc" "16px monospace" 1
                "Press E to examine surroundings" 250 520 ] |}.
Proof.
  unfold renderExplorationView.
  change (match playerState s with
          | Some p => PlayerState.philosophicalAlignment p
          | None => Undecided
          end) with (shownAlignment s).
  change (match playerState s with
          | Some p => or_zero (authenticity p)
          | None => 0%Q
          end) with (shownAuthenticity s).
  cbv zeta.
  destruct (particles_drawn 100 0 random (Canvas.setFillStyle "#2d2d2d" ctx))
    as (H1 & H2 & H3 & H4).
  set (P := particles 100 0 random (Canvas.setFillStyle "#2d2d2d" ctx)) in *.
  clearbody P.
  apply context_eq; autorewrite with canvas; cbn [Canvas.fillStyle Canvas.font
    Canvas.globalAlpha Canvas.drawn]; try reflexivity.
  rewrite H3, H4. autorewrite with canvas.
  rewrite <- !app_assoc. reflexivity.
Qed.

Ltac alpha_of_ops :=
  cbn [app];
  repeat match goal with
         | |- Forall _ [] => constructor
         | |- Forall _ (_ :: _) => constructor; [simpl; auto|]
         end.

Lemma renderCombatView_drawn (s : ClientState) (ctx : Canvas.Context2D) :
  Canvas.globalAlpha (renderCombatView s ctx) = Canvas.globalAlpha ctx
  /\ Canvas.drawn (renderCombatView s ctx)
     = Canvas.drawn ctx
       ++ Canvas.FillRect "#3d1a1a" (Canvas.globalAlpha ctx) 0 0 800 600
          :: match currentEnemy s with
             | Some enemy =>
                 [ Canvas.FillRect "#ff4444" (Canvas.globalAlpha ctx) 600 200 40 60;
                   Canvas.FillRect "#ff0000" (Canvas.globalAlpha ctx) 550 180 140 10 ]
                 ++ match quotient (Enemy.hitPoints enemy) (Enemy.maxHitPoints enemy) with
                    | Some percentage =>
                        [ Canvas.FillRect "#00ff00" (Canvas.globalAlpha ctx)
                            550 180 (140 * percentage)%Q 10 ]
                    | None => []
                    end
                 ++ [ Canvas.FillText "#ffffff" "14px monospace"
                        (Canvas.globalAlpha ctx) (Enemy.name enemy) 500 170 ]
             | None => []
             end
          ++ [ Canvas.FillText "#cccccc" "12px monospace" (Canvas.globalAlpha ctx)
                 "Logical Combat: Analyze the argument structure" 50 500;
               Canvas.FillText "#cccccc" "12px monospace" (Canvas.globalAlpha ctx)
                 "Success requires both courage and wisdom" 50 520 ].
Proof.
  unfold renderCombatView.
  destruct (currentEnemy s) as [enemy|];
    [destruct (quotient (Enemy.hitPoints enemy) (Enemy.maxHitPoints enemy))|];
    cbv zeta; autorewrite with canvas; cbn [option_map];
    (split; [reflexivity|]); rewrite <- ?app_assoc; reflexivity.
Qed.

Lemma renderScenarioView_drawn (s : ClientState) (ctx : Canvas.Context2D) :
  Canvas.globalAlpha (renderScenarioView s ctx) = Canvas.globalAlpha ctx
  /\ Canvas.drawn (renderScenarioView s ctx)
     = Canvas.drawn ctx
       ++ Canvas.FillRect "#2a2a3a" (Canvas.globalAlpha ctx) 0 0 800 600
          :: match currentScenario s with
             | Some sc =>
                 [ Canvas.FillText "#ffffff" "bold 18px monospace"
                     (Canvas.globalAlpha ctx) (Scenario.title sc) 50 50;
                   Canvas.FillText "#aaaaaa" "10px monospace"
                     (Canvas.globalAlpha ctx)
                     ("Source: " ++ Scenario.philosophicalBasis sc) 50 70 ]
             | None => []
             end.
Proof.
  unfold renderScenarioView.
  destruct (currentScenario s) as [sc|];
    cbv zeta; autorewrite with canvas;
    (split; [reflexivity|]); rewrite <- ?app_assoc; reflexivity.
Qed.

(** What one call of [renderGameWorld] adds to the canvas. *)
Lemma renderGameWorld_drawn (cv : Canvas.t) (ctx : Canvas.Context2D)
  (s : ClientState) (random : nat -> number) (p : PlayerState.t) :
  Canvas.context cv = Some ctx ->
  playerState s = Some p ->
  exists ctx' ops,
    renderGameWorld (Some cv) s random = Some ctx'
    /\ Canvas.drawn ctx'
       = Canvas.drawn ctx
         ++ Canvas.FillRect "#1a1a1a" (Canvas.globalAlpha ctx) 0 0
              (Canvas.width cv) (Canvas.height cv) :: ops
    /\ Canvas.globalAlpha ctx'
       = (if is_exploration (gamePhase s) then 1%Q else Canvas.globalAlpha ctx)
    /\ Forall (fun op => op_alpha op = Canvas.globalAlpha ctx
                         \/ op_alpha op = 1%Q
                         \/ (is_aura op /\ gamePhase s = exploration)) ops
    /\ (gamePhase s = character_creation \/ gamePhase s = ending -> ops = []).
Proof.
  intros Hctx Hp. unfold renderGameWorld. rewrite Hctx, Hp.
  set (bg := ctx |> Canvas.setFillStyle "#1a1a1a"
                 |> Canvas.fillRect 0 0 (Canvas.width cv) (Canvas.height cv)).
  assert (Hbg : Canvas.drawn bg
                = Canvas.drawn ctx
                  ++ [Canvas.FillRect "#1a1a1a" (Canvas.globalAlpha ctx) 0 0
                        (Canvas.width cv) (Canvas.height cv)]) by reflexivity.
  assert (Habg : Canvas.globalAlpha bg = Canvas.globalAlpha ctx) by reflexivity.
  clearbody bg.
  destruct (gamePhase s) eqn:Hphase; cbn [is_exploration].
  - exists bg, []. repeat split; auto.
  - rewrite renderExplorationView_drawn. eexists. eexists.
    split; [reflexivity|]. cbn [Canvas.drawn Canvas.globalAlpha].
    rewrite Hbg, Habg, <- app_assoc. split; [reflexivity|]. split; [reflexivity|].
    split; [|intros [H|H]; discriminate H].
    apply Forall_app. split.
    + apply Forall_forall. intros op Hin. apply in_map_iff in Hin.
      destruct Hin as (i & <- & _). left. reflexivity.
    + constructor; [left; reflexivity|].
      constructor; [right; right; split; [eexists; reflexivity|reflexivity]|].
      constructor; [right; left; reflexivity|].
      constructor; [right; left; reflexivity|constructor].
  - destruct (renderCombatView_drawn s bg) as (Ha & Hd).
    eexists. eexists. split; [reflexivity|].
    rewrite Ha, Hd, Hbg, Habg, <- app_assoc. split; [reflexivity|].
    split; [reflexivity|]. split; [|intros [H|H]; discriminate H].
    constructor; [left; reflexivity|].
    apply Forall_app. split.
    + destruct (currentEnemy s) as [enemy|]; [|constructor].
      destruct (quotient (Enemy.hitPoints enemy) (Enemy.maxHitPoints enemy));
        alpha_of_ops.
    + alpha_of_ops.
  - destruct (renderScenarioView_drawn s bg) as (Ha & Hd).
    eexists. eexists. split; [reflexivity|].
    rewrite Ha, Hd, Hbg, Habg, <- app_assoc. split; [reflexivity|].
    split; [reflexivity|]. split; [|intros [H|H]; discriminate H].
    constructor; [left; reflexivity|].
    destruct (currentScenario s) as [sc|]; alpha_of_ops.
  - exists bg, []. repeat split; auto.
Qed.

(** X6.  [renderGameWorld] draws only when a player is held.  Then it
    keeps what was drawn before, paints the whole canvas in '#1a1a1a'
    first, and in the phases 'character-creation' and 'ending' paints
    nothing else. *)
Theorem renderGameWorld_paints_the_background_first
  (cv : Canvas.t) (ctx : Canvas.Context2D) (s : ClientState)
  (random : nat -> number)
  (Hctx : Canvas.context cv = Some ctx) :
  (playerState s = None -> renderGameWorld (Some cv) s random = Some ctx)
  /\ (playerState s <> None ->
      exists ctx' ops,
        renderGameWorld (Some cv) s random = Some ctx'
        /\ Canvas.drawn ctx'
           = Canvas.drawn ctx
             ++ Canvas.FillRect "#1a1a1a" (Canvas.globalAlpha ctx) 0 0
                  (Canvas.width cv) (Canvas.height cv) :: ops
        /\ (gamePhase s = character_creation \/ gamePhase s = ending -> ops = [])).
Proof.
  split.
  - intros Hp. unfold renderGameWorld. rewrite Hp. exact Hctx.
  - intros Hp. destruct (playerState s) as [p|] eqn:Hps; [|congruence].
    destruct (renderGameWorld_drawn cv ctx s random p Hctx Hps)
      as (ctx' & ops & H1 & H2 & _ & _ & H5).
    exists ctx', ops. auto.
Qed.

Lemma renderGameWorld_paints_the_background_first_witness :
  exists ctx' ops,
    renderGameWorld (Some (gameCanvas Canvas.newContext)) in_combat (fun _ => 0%Q)
    = Some ctx'
    /\ Canvas.drawn ctx'
       = Canvas.FillRect "#1a1a1a" 1 0 0 800 600 :: ops.
Proof.
  destruct (proj2 (renderGameWorld_paints_the_background_first
                     (gameCanvas Canvas.newContext) Canvas.newContext in_combat
                     (fun _ => 0%Q) eq_refl))
    as (ctx' & ops & H1 & H2 & _).
  - discriminate.
  - exists ctx', ops. split; [exact H1|exact H2].
Defined.

(** X7.  [renderGameWorld] leaves the context opaque: called with
    [globalAlpha] 1 it returns with [globalAlpha] 1, and everything it
    draws is drawn with alpha 1 except the white square over the player
    in the exploration view. *)
Theorem renderGameWorld_keeps_the_context_opaque
  (cv : Canvas.t) (ctx ctx' : Canvas.Context2D) (s : ClientState)
  (random : nat -> number)
  (Hctx : Canvas.context cv = Some ctx)
  (Halpha : Canvas.globalAlpha ctx = 1%Q)
  (Hrender : renderGameWorld (Some cv) s random = Some ctx') :
  Canvas.globalAlpha ctx' = 1%Q
  /\ exists ops,
       Canvas.drawn ctx' = Canvas.drawn ctx ++ ops
       /\ Forall (fun op => op_alpha op = 1%Q
                            \/ (is_aura op /\ gamePhase s = exploration)) ops.
Proof.
  destruct (playerState s) as [p|] eqn:Hp.
  - destruct (renderGameWorld_drawn cv ctx s random p Hctx Hp)
      as (c & ops & H1 & H2 & H3 & H4 & _).
    rewrite H1 in Hrender. injection Hrender as <-.
    split; [rewrite H3; destruct (is_exploration (gamePhase s)); auto|].
    eexists. split; [exact H2|].
    constructor; [left; simpl; exact Halpha|].
    eapply Forall_impl; [|exact H4].
    intros op [H|[H|H]]; auto. left. congruence.
  - unfold renderGameWorld in Hrender. rewrite Hp, Hctx in Hrender.
    injection Hrender as <-. split; [exact Halpha|].
    exists []. rewrite app_nil_r. split; [reflexivity|constructor].
Qed.

Lemma renderGameWorld_keeps_the_context_opaque_witness :
  exists ctx',
    renderGameWorld (Some (gameCanvas Canvas.newContext)) in_scenario (fun _ => 0%Q)
    = Some ctx'
    /\ Canvas.globalAlpha ctx' = 1%Q.
Proof.
  eexists. split; [reflexivity|].
  apply (renderGameWorld_keeps_the_context_opaque
           (gameCanvas Canvas.newContext) Canvas.newContext _ in_scenario
           (fun _ => 0%Q) eq_refl eq_refl eq_refl).
Defined.

Lemma particle_starts_on_canvas (style : string) (alpha : number)
  (random : nat -> number) (i : nat) :
  (0 <= random (2 * i)%nat < 1)%Q ->
  (0 <= random (S (2 * i)) < 1)%Q ->
  starts_on_canvas (particle style alpha random i).
Proof.
  intros [H1 H2] [H3 H4]. unfold particle, starts_on_canvas.
  repeat split.
  - apply Qmult_le_0_compat; [exact H1|discriminate].
  - apply (Qmult_lt_compat_r _ _ 800) in H2; [|reflexivity].
    rewrite Qmult_1_l in H2. exact H2.
  - apply Qmult_le_0_compat; [exact H3|discriminate].
  - apply (Qmult_lt_compat_r _ _ 600) in H4; [|reflexivity].
    rewrite Qmult_1_l in H4. exact H4.
Qed.
(** X8.  The exploration view draws exactly one hundred particles, each a
    rectangle of 1 by 1 in '#2d2d2d': the particle number [i] at
    ([random (2i)] * 800, [random (2i+1)] * 600).  They come before the
    four other drawings of the view; a particle whose two draws are in
    [0, 1) starts on the canvas; and the view reads the first two hundred
    draws only. *)
Theorem exploration_view_particles
  (s : ClientState) (random : nat -> number) (ctx : Canvas.Context2D) :
  (exists others,
      Canvas.drawn (renderExplorationView s random ctx)
      = Canvas.drawn ctx
        ++ map (particle "#2d2d2d" (Canvas.globalAlpha ctx) random) (seq 0 100)
        ++ others
      /\ length others = 4%nat)
  /\ (forall i,
         (0 <= random (2 * i)%nat < 1)%Q ->
         (0 <= random (S (2 * i)) < 1)%Q ->
         starts_on_canvas (particle "#2d2d2d" (Canvas.globalAlpha ctx) random i))
  /\ (forall random',
         (forall k, (k < 200)%nat -> random' k = random k) ->
         renderExplorationView s random' ctx = renderExplorationView s random ctx).
Proof.
  split; [|split].
  - rewrite renderExplorationView_drawn. eexists. split; reflexivity.
  - intros i. apply particle_starts_on_canvas.
  - intros random' Hsame. rewrite !renderExplorationView_drawn.
    do 3 f_equal. apply map_ext_in. intros i Hin. apply in_seq in Hin.
    unfold particle. rewrite !Hsame by lia. reflexivity.
Qed.
Lemma exploration_view_particles_witness :
  starts_on_canvas (particle "#2d2d2d" 1 (fun _ => 0.5%Q) 7).
Proof.
  apply (proj1 (proj2 (exploration_view_particles in_scenario (fun _ => 0.5%Q)
                         Canvas.newContext)) 7%nat);
    split; unfold Qle, Qlt; simpl; lia.
Defined.
(** X10.  The combat view draws the enemy's health bar as a red
    rectangle 140 wide with a green one over it; the green one is left
    out when [maxHitPoints] is zero; and in every state the page can
    reach its width equals 140: the bar of the enemy on screen is always
    full. *)
Theorem combat_view_health_bar
  (s : ClientState) (enemy : Enemy.t) (ctx : Canvas.Context2D)
  (Henemy : currentEnemy s = Some enemy) :
  (exists before after,
      Canvas.drawn (renderCombatView s ctx)
      = before
        ++ Canvas.FillRect "#ff0000" (Canvas.globalAlpha ctx) 550 180 140 10
           :: match quotient (Enemy.hitPoints enemy) (Enemy.maxHitPoints enemy) with
              | Some percentage =>
                  [ Canvas.FillRect "#00ff00" (Canvas.globalAlpha ctx)
                      550 180 (140 * percentage)%Q 10 ]
              | None => []
              end
           ++ after)
  /\ ((Enemy.maxHitPoints enemy == 0)%Q ->
      quotient (Enemy.hitPoints enemy) (Enemy.maxHitPoints enemy) = None)
  /\ (forall host a,
         reachable host a -> rpg a = s ->
         exists percentage,
           quotient (Enemy.hitPoints enemy) (Enemy.maxHitPoints enemy)
           = Some percentage
           /\ (140 * percentage == 140)%Q).
Proof.
  split; [|split].
  - destruct (renderCombatView_drawn s ctx) as (_ & Hd). rewrite Hd, Henemy.
    exists (Canvas.drawn ctx
            ++ [ Canvas.FillRect "#3d1a1a" (Canvas.globalAlpha ctx) 0 0 800 600;
                 Canvas.FillRect "#ff4444" (Canvas.globalAlpha ctx) 600 200 40 60 ]).
    exists [ Canvas.FillText "#ffffff" "14px monospace" (Canvas.globalAlpha ctx)
               (Enemy.name enemy) 500 170;
             Canvas.FillText "#cccccc" "12px monospace" (Canvas.globalAlpha ctx)
               "Logical Combat: Analyze the argument structure" 50 500;
             Canvas.FillText "#cccccc" "12px monospace" (Canvas.globalAlpha ctx)
               "Success requires both courage and wisdom" 50 520 ].
    rewrite <- !app_assoc. cbn [app]. rewrite <- ?app_assoc. reflexivity.
  - intros Hzero. unfold quotient.
    apply Qeq_bool_iff in Hzero. rewrite Hzero. reflexivity.
  - intros host a Hreach <-.
    destruct (reachable_inv host a Hreach) as ((_ & Hghost) & _).
    rewrite (Hghost enemy Henemy). eexists. split; reflexivity.
Qed.

Lemma combat_view_health_bar_witness :
  exists a,
    exec (session 0.1) (initialApp "localhost") = Some a
    /\ currentEnemy (rpg a) = Some ghost_diogenes
    /\ exists percentage,
         quotient (Enemy.hitPoints ghost_diogenes) (Enemy.maxHitPoints ghost_diogenes)
         = Some percentage
         /\ (140 * percentage == 140)%Q.
Proof.
  eexists. split; [reflexivity|].
  match goal with
  | |- currentEnemy (rpg ?a) = _ /\ _ =>
      split; [reflexivity|];
      apply (proj2 (proj2 (combat_view_health_bar (rpg a) ghost_diogenes
                             Canvas.newContext eq_refl))
                   "localhost" a (ex_intro _ (session 0.1) eq_refl) eq_refl)
  end.
Defined.

(* ========================================================================= *)
(** * The animation loop                                                      *)
(* ========================================================================= *)

Lemma animate_fields (loop : nat) (st : Animation.t) :
  Animation.rendered (Animation.animate loop st) = Animation.rendered st ++ [loop]
  /\ waiting (Animation.animate loop st) = waiting st ++ [loop]
  /\ Animation.nextHandle (Animation.animate loop st) = S (Animation.nextHandle st).
Proof.
  unfold waiting, Animation.animate. simpl. rewrite map_app. auto.
Qed.

Lemma animate_lined_up (loop : nat) (st : Animation.t) :
  lined_up st -> lined_up (Animation.animate loop st).
Proof.
  intros (h & Hh & Hn & H1 & _). exists h.
  unfold Animation.animate.
  cbn [Animation.requested Animation.nextHandle Animation.animationFrameRef].
  rewrite map_app, length_app. cbn [map fst length].
  rewrite Nat.add_1_r, seq_S, Hh, Hn.
  split; [reflexivity|]. split; [lia|]. split; [exact H1|].
  intros _. f_equal. lia.
Qed.

Lemma animate_all (rs : list (nat * nat)) (st : Animation.t) :
  let st' := fold_left (fun st r => Animation.animate (snd r) st) rs st in
  Animation.rendered st' = Animation.rendered st ++ map snd rs
  /\ waiting st' = waiting st ++ map snd rs
  /\ (lined_up st -> lined_up st').
Proof.
  revert st. induction rs as [|r rs IH]; intros st; simpl.
  - rewrite !app_nil_r. auto.
  - destruct (IH (Animation.animate (snd r) st)) as (H1 & H2 & H3).
    destruct (animate_fields (snd r) st) as (Hr & Hw & _).
    rewrite H1, H2, Hr, Hw, <- !app_assoc. repeat split.
    intros Hl. apply H3, animate_lined_up, Hl.
Qed.

Lemma startAll_fields (loops : list nat) (st : Animation.t) :
  Animation.rendered (startAll loops st) = Animation.rendered st ++ loops
  /\ waiting (startAll loops st) = waiting st ++ loops
  /\ (lined_up st -> lined_up (startAll loops st)).
Proof.
  revert st. unfold startAll, Animation.startAnimation.
  induction loops as [|l loops IH]; intros st; simpl.
  - rewrite !app_nil_r. auto.
  - destruct (IH (Animation.animate l st)) as (H1 & H2 & H3).
    destruct (animate_fields l st) as (Hr & Hw & _).
    rewrite H1, H2, Hr, Hw, <- !app_assoc. repeat split.
    intros Hl. apply H3, animate_lined_up, Hl.
Qed.

Lemma lined_up_nextHandle (st : Animation.t) :
  lined_up st -> (1 <= Animation.nextHandle st)%nat.
Proof. intros (h & _ & Hn & H1 & _). lia. Qed.

Lemma frame_fields (st : Animation.t) :
  Animation.rendered (Animation.frame st) = Animation.rendered st ++ waiting st
  /\ waiting (Animation.frame st) = waiting st
  /\ ((1 <= Animation.nextHandle st)%nat -> lined_up (Animation.frame st)).
Proof.
  unfold Animation.frame.
  destruct (animate_all (Animation.requested st)
              {| Animation.animationFrameRef := Animation.animationFrameRef st;
                 Animation.nextHandle := Animation.nextHandle st;
                 Animation.requested := [];
                 Animation.rendered := Animation.rendered st |})
    as (H1 & H2 & H3).
  cbv zeta in H1, H2, H3. rewrite H1, H2. repeat split.
  intros Hn. apply H3. exists (Animation.nextHandle st). simpl.
  repeat split; auto. congruence.
Qed.

Lemma frames_fields (n : nat) (st : Animation.t) :
  (1 <= Animation.nextHandle st)%nat ->
  Animation.rendered (Animation.frames n st)
  = Animation.rendered st ++ concat (repeat (waiting st) n)
  /\ waiting (Animation.frames n st) = waiting st
  /\ (lined_up st -> lined_up (Animation.frames n st)).
Proof.
  revert st. induction n as [|n IH]; intros st Hn; simpl.
  - rewrite app_nil_r. auto.
  - destruct (frame_fields st) as (Hr & Hw & Hlu).
    destruct (IH (Animation.frame st) (lined_up_nextHandle _ (Hlu Hn)))
      as (H1 & H2 & H3).
    rewrite H1, H2, Hr, Hw, <- app_assoc. auto.
Qed.

Lemma initial_lined_up : lined_up Animation.initial.
Proof. exists 1%nat. simpl. repeat split; auto. congruence. Qed.

(** X11.  Once started, an animation never stops by itself: after
    [startAnimation] has been called for the loops [loops] and the
    browser has painted [n] frames, every loop has rendered [n + 1]
    times, in the order the loops were started, and every one of them is
    waiting for the next frame. *)
Theorem animation_runs_every_frame (loops : list nat) (n : nat) :
  Animation.rendered (Animation.frames n (startAll loops Animation.initial))
  = concat (repeat loops (S n))
  /\ waiting (Animation.frames n (startAll loops Animation.initial)) = loops.
Proof.
  destruct (startAll_fields loops Animation.initial) as (Hr & Hw & Hl).
  destruct (frames_fields n (startAll loops Animation.initial)
              (lined_up_nextHandle _ (Hl initial_lined_up))) as (H1 & H2 & _).
  rewrite H1, H2, Hr, Hw. simpl. auto.
Qed.

Lemma filter_drops_last (r : list (nat * nat)) (h : nat) (k : nat) (x : nat * nat) :
  map fst (r ++ [x]) = seq h (S k) ->
  filter (fun e => negb (Nat.eqb (fst e) (fst x))) (r ++ [x]) = r.
Proof.
  intros Hseq.
  assert (Hlen : length r = k).
  { apply (f_equal (@length nat)) in Hseq.
    rewrite length_map, length_app, length_seq in Hseq. simpl in Hseq. lia. }
  rewrite seq_S, map_app in Hseq. simpl in Hseq.
  apply app_inj_tail in Hseq. destruct Hseq as [Hr Hx].
  rewrite filter_app. simpl. rewrite Nat.eqb_refl. simpl. rewrite app_nil_r.
  apply forallb_filter_id. apply forallb_forall. intros e Hin.
  apply negb_true_iff, Nat.eqb_neq.
  assert (Hfst : In (fst e) (seq h k)) by (rewrite <- Hr; apply in_map; exact Hin).
  apply in_seq in Hfst. lia.
Qed.

Lemma stopAnimation_fields (st : Animation.t) :
  lined_up st ->
  Animation.requested st <> [] ->
  waiting (Animation.stopAnimation st) = removelast (waiting st)
  /\ Animation.rendered (Animation.stopAnimation st) = Animation.rendered st
  /\ Animation.nextHandle (Animation.stopAnimation st) = Animation.nextHandle st.
Proof.
  intros (h & Hh & Hn & H1 & Href) Hne.
  unfold Animation.stopAnimation. rewrite (Href Hne).
  destruct (exists_last Hne) as (r & x & Hrx).
  assert (Hlen : length (Animation.requested st) = S (length r)).
  { rewrite Hrx, length_app. simpl. lia. }
  assert (Hx : fst x = (Animation.nextHandle st - 1)%nat).
  { rewrite Hlen in Hh. rewrite Hrx, seq_S, map_app in Hh. simpl in Hh.
    apply app_inj_tail in Hh. destruct Hh as [_ Hh]. lia. }
  destruct (Animation.nextHandle st - 1)%nat as [|m] eqn:Hm; [lia|].
  unfold Animation.cancelAnimationFrame, waiting. simpl.
  repeat split. rewrite <- Hx.
  rewrite Hrx at 1.
  rewrite (filter_drops_last r h (length r) x)
    by (rewrite <- Hrx, Hh, Hlen; reflexivity).
  rewrite Hrx, map_app. simpl. rewrite removelast_last. reflexivity.
Qed.

(** X12.  [stopAnimation] stops one loop only, the one started last.
    After [startAnimation] for the loops [loops] (at least one) and [n]
    frames, [stopAnimation] takes the last of [loops] off the loops that
    wait for a frame and leaves the others: in the [m] frames that follow
    each of them renders [m] more times.  With a single loop nothing is
    left, and nothing is rendered any more. *)
Theorem stopAnimation_stops_the_last_loop
  (loops : list nat) (n m : nat) (Hloops : loops <> []) :
  let running := Animation.frames n (startAll loops Animation.initial) in
  let stopped := Animation.stopAnimation running in
  waiting stopped = removelast loops
  /\ Animation.rendered (Animation.frames m stopped)
     = Animation.rendered running ++ concat (repeat (removelast loops) m)
  /\ waiting (Animation.frames m stopped) = removelast loops.
Proof.
  intros running stopped.
  destruct (startAll_fields loops Animation.initial) as (_ & Hw & Hl).
  destruct (frames_fields n (startAll loops Animation.initial)
              (lined_up_nextHandle _ (Hl initial_lined_up))) as (_ & H2 & H3).
  specialize (H3 (Hl initial_lined_up)). rewrite Hw in H2. simpl in H2.
  fold running in H2, H3.
  assert (Hne : Animation.requested running <> []).
  { intros Hnil. unfold waiting in H2. rewrite Hnil in H2. simpl in H2.
    apply Hloops. congruence. }
  destruct (stopAnimation_fields running H3 Hne) as (Hs & Hr & Hnh).
  fold stopped in Hs, Hr, Hnh. rewrite H2 in Hs.
  assert (Hn : (1 <= Animation.nextHandle stopped)%nat).
  { rewrite Hnh. apply lined_up_nextHandle, H3. }
  destruct (frames_fields m stopped Hn) as (F1 & F2 & _).
  rewrite F1, F2, Hs, Hr. auto.
Qed.

Lemma stopAnimation_stops_the_last_loop_witness :
  waiting (Animation.stopAnimation
             (Animation.frames 3 (startAll [7; 8]%nat Animation.initial)))
  = [7%nat]
  /\ Animation.rendered
       (Animation.frames 2
          (Animation.stopAnimation
             (Animation.frames 3 (startAll [7; 8]%nat Animation.initial))))
     = [7; 8; 7; 8; 7; 8; 7; 8; 7; 7]%nat.
Proof.
  destruct (stopAnimation_stops_the_last_loop [7; 8]%nat 3 2) as (H1 & H2 & _).
  - discriminate.
  - split; [exact H1|exact H2].
Defined.

(* ========================================================================= *)
(** * More on the running page                                                *)
(* ========================================================================= *)

Lemma exec_preserves (P : App -> Prop) :
  (forall a ev a', app_step a ev = Some a' -> P a -> P a') ->
  forall evs a a', exec evs a = Some a' -> P a -> P a'.
Proof.
  intros Hstep evs. induction evs as [|ev evs IH]; simpl; intros a a' H Ha.
  - congruence.
  - destruct (app_step a ev) as [a1|] eqn:Hs; [|discriminate].
    eapply IH; eauto.
Qed.

Lemma exec_app (evs1 evs2 : list Event) (a : App) :
  exec (evs1 ++ evs2) a
  = match exec evs1 a with
    | Some a1 => exec evs2 a1
    | None => None
    end.
Proof.
  revert a. induction evs1 as [|ev evs1 IH]; simpl; intros a; [reflexivity|].
  destruct (app_step a ev); [apply IH|reflexivity].
Qed.

Lemma call_fields {E} (h : Async E ClientState) (p : Pending) (a : App) :
  (forall before req k, h = Awaiting before req k -> before (rpg a) = rpg a) ->
  rpg (call h p a) = rpg a
  /\ hostname (call h p a) = hostname a
  /\ game_player (call h p a) = game_player a
  /\ game_currentPhase (call h p a) = game_currentPhase a
  /\ game_error (call h p a) = game_error a
  /\ showHelp (call h p a) = showHelp a
  /\ showDevPanel (call h p a) = showDevPanel a
  /\ console (call h p a) = console a
  /\ outbox (call h p a) = outbox a ++ requests h
  /\ inflight (call h p a)
     = inflight a ++ match h with Returned => [] | Awaiting _ _ _ => [p] end.
Proof.
  intros H. destruct h as [|before req k]; simpl.
  - rewrite !app_nil_r. auto 12.
  - rewrite (H before req k eq_refl), app_nil_r. auto 12.
Qed.

Lemma app_step_cases (a a' : App) (ev : Event) :
  app_step a ev = Some a' -> rpg_step a a' ev.
Proof.
  intros Hstep. destruct ev; simpl in Hstep.
  - destruct (gamePhase (rpg a)) eqn:Hph; try discriminate.
    injection Hstep as <-. econstructor; eauto.
  - destruct (gamePhase (rpg a)) eqn:Hph; try discriminate.
    destruct (currentScenario (rpg a)) as [sc|] eqn:Hsc; [|discriminate].
    destruct (offers choiceId sc) eqn:Hof; [|discriminate].
    injection Hstep as <-. econstructor; eauto.
  - destruct (gamePhase (rpg a)) eqn:Hph; try discriminate.
    destruct (currentEnemy (rpg a)) as [enemy|] eqn:Hen; [|discriminate].
    injection Hstep as <-. econstructor; eauto.
  - destruct (handleKeyPress key random (rpg a)) as [s' out] eqn:Hk.
    injection Hstep as <-. constructor. rewrite Hk. reflexivity.
  - destruct (negb _ && _) eqn:Hb; [|discriminate]. injection Hstep as <-.
    apply andb_true_iff in Hb. destruct Hb as [Hb1 Hb2].
    constructor; auto.
    + intros Hcc. rewrite Hcc in Hb1. discriminate.
    + intros Hn. rewrite Hn in Hb2. discriminate.
  - destruct (negb _ && _) eqn:Hb; [|discriminate]. injection Hstep as <-.
    apply andb_true_iff in Hb. destruct Hb as [Hb1 Hb2].
    constructor; auto.
    + intros Hcc. rewrite Hcc in Hb1. discriminate.
    + intros Hn. rewrite Hn in Hb2. discriminate.
  - destruct (negb _) eqn:Hb; [|discriminate]. injection Hstep as <-.
    constructor; auto. intros Hcc. rewrite Hcc in Hb. discriminate.
  - injection Hstep as <-. constructor. reflexivity.
  - destruct (showHelp a) eqn:Hh; [|discriminate]. injection Hstep as <-.
    constructor; auto.
  - destruct (_ && _) eqn:Hb; [|discriminate]. injection Hstep as <-.
    constructor; auto. intros Hn. rewrite Hn in Hb. unfold DevPanel.rendered in Hb.
    rewrite andb_false_r in Hb. discriminate.
  - destruct (_ && _) eqn:Hb; [|discriminate]. injection Hstep as <-.
    constructor; auto. intros Hn. rewrite Hn in Hb. unfold DevPanel.rendered in Hb.
    rewrite andb_false_r in Hb. discriminate.
  - destruct (game_player a) as [player|] eqn:Hg; [|discriminate].
    destruct (_ && _); [|discriminate].
    destruct (DevPanel.clickQuickTest idx player) as [n|] eqn:Hc; [|discriminate].
    injection Hstep as <-. econstructor; eauto.
  - destruct (game_error a) eqn:He; [|discriminate]. injection Hstep as <-.
    constructor; auto. congruence.
  - destruct (nth_error (inflight a) i) as [p|] eqn:Hn; [|discriminate].
    destruct (conforms o) eqn:Hconf; [|discriminate].
    destruct (resume p o (rpg a)) as [[s' out]|] eqn:Hr; [|discriminate].
    injection Hstep as <-. econstructor; eauto.
Qed.

Lemma resume_phase (p : Pending) (o : Outcome) (s s' : ClientState) (out : Console) :
  resume p o s = Some (s', out) ->
  gamePhase s' = gamePhase s \/ gamePhase s' = exploration.
Proof.
  intros Hr.
  destruct p as [name alignment|choiceId closure|answer closure], o as [o|o|o];
    try discriminate Hr.
  - assert (Hr' : resume_of (handleCreatePlayer name alignment) o s = (s', out))
      by (unfold resume in Hr; congruence).
    unfold handleCreatePlayer in Hr'. apply try_await_cases in Hr'.
    destruct Hr' as [(x & _ & -> & _)|(e & _ & -> & _)]; auto.
  - assert (Hr' : resume_of (handleScenarioChoice choiceId closure) o s = (s', out))
      by (unfold resume in Hr; congruence).
    unfold handleScenarioChoice in Hr'.
    destruct (playerState closure); [|simpl in Hr'; left; congruence].
    destruct (currentScenario closure); [|simpl in Hr'; left; congruence].
    apply try_await_cases in Hr'.
    destruct Hr' as [(x & _ & -> & _)|(e & _ & -> & _)]; auto.
    destruct (response_type x =? "StateUpdate"); auto.
  - assert (Hr' : resume_of (handleSyllogismAnswer answer closure) o s = (s', out))
      by (unfold resume in Hr; congruence).
    unfold handleSyllogismAnswer in Hr'.
    destruct (playerState closure); [|simpl in Hr'; left; congruence].
    destruct (currentEnemy closure); [|simpl in Hr'; left; congruence].
    apply try_await_cases in Hr'.
    destruct Hr' as [(x & _ & -> & _)|(e & _ & -> & _)]; auto.
    destruct (negb (CombatResponse.continuesCombat x)); auto.
Qed.

Lemma handleKeyPress_phase (key : string) (random : number) (s : ClientState) :
  gamePhase (fst (handleKeyPress key random s)) = gamePhase s
  \/ gamePhase (fst (handleKeyPress key random s)) = exploration
  \/ gamePhase (fst (handleKeyPress key random s)) = combat
  \/ gamePhase (fst (handleKeyPress key random s)) = scenario.
Proof.
  unfold handleKeyPress.
  destruct (playerState s); [|auto].
  repeat match goal with
         | |- context [if ?b then _ else _] => destruct b
         end; simpl; auto.
Qed.

Ltac page_step H :=
  apply app_step_cases in H;
  destruct H as
    [ name al Hphase ->
    | choiceId sc Hphase Hsc Hoffers ->
    | answer enemy Hphase Henemy ->
    | key random ->
    | Hphase Hplayer ->
    | Hphase Hplayer ->
    | Hphase ->
    | ->
    | Hhelp ->
    | Hgame ->
    | Hgame ->
    | idx player newState Hgame Hclick ->
    | Herror ->
    | i o p s' out Hnth Hconf Hresume -> ].

Ltac called :=
  match goal with
  | |- context [call (beginJourney ?n ?al) ?p ?a] =>
      destruct (call_fields (beginJourney n al) p a
                  (fun b r k H => beginJourney_before n al b r k (rpg a) H))
        as (? & ? & ? & ? & ? & ? & ? & ? & ? & ?)
  | |- context [call (handleScenarioChoice ?c ?s0) ?p ?a] =>
      destruct (call_fields (handleScenarioChoice c s0) p a
                  (fun b r k H => handleScenarioChoice_before c s0 b r k (rpg a) H))
        as (? & ? & ? & ? & ? & ? & ? & ? & ? & ?)
  | |- context [call (handleSyllogismAnswer ?b0 ?s0) ?p ?a] =>
      destruct (call_fields (handleSyllogismAnswer b0 s0) p a
                  (fun b r k H => handleSyllogismAnswer_before b0 s0 b r k (rpg a) H))
        as (? & ? & ? & ? & ? & ? & ? & ? & ? & ?)
  end.

(** X13.  The page never reaches the phase 'ending', and apart from
    [showHelp] the [Game] wrapper never changes: in every state the page
    can reach its [currentPhase] is still 'character-creation', its
    [error] is null, so the error box is never shown, and the DevPanel
    is closed. *)
Theorem the_game_wrapper_never_changes (host : string) (a : App)
  (Hreach : reachable host a) :
  gamePhase (rpg a) <> ending
  /\ hostname a = host
  /\ game_currentPhase a = "character-creation"
  /\ game_error a = None
  /\ showDevPanel a = false
  /\ game_player a = None.
Proof.
  destruct Hreach as [evs Hevs].
  refine (exec_preserves
            (fun a => gamePhase (rpg a) <> ending
                      /\ hostname a = host
                      /\ game_currentPhase a = "character-creation"
                      /\ game_error a = None
                      /\ showDevPanel a = false
                      /\ game_player a = None)
            _ evs (initialApp host) a Hevs _);
    [|simpl; repeat split; discriminate].
  clear. intros a ev a' Hstep (H1 & H2 & H3 & H4 & H5 & H6).
  page_step Hstep; try called; try (simpl; repeat split; congruence).
  - unfold with_rpg; simpl. repeat split; auto.
    destruct (handleKeyPress_phase key random (rpg a)) as [H|[H|[H|H]]];
      rewrite H; congruence.
  - unfold with_inflight, with_rpg; simpl. repeat split; auto.
    destruct (resume_phase p o (rpg a) s' out Hresume) as [H|H]; rewrite H; congruence.
Qed.

Lemma the_game_wrapper_never_changes_witness :
  exists a,
    exec (session 0.1) (initialApp "localhost") = Some a
    /\ gamePhase (rpg a) <> ending
    /\ game_error a = None.
Proof.
  eexists. split; [reflexivity|].
  match goal with
  | |- gamePhase (rpg ?a) <> _ /\ _ =>
      destruct (the_game_wrapper_never_changes "localhost" a
                  (ex_intro _ (session 0.1) eq_refl))
        as (H1 & _ & _ & H4 & _)
  end.
  split; [exact H1|exact H4].
Defined.

Lemma handler_requests_are_posts :
  (forall name al, Forall (fun r => is_post_json r = true) (requests (beginJourney name al)))
  /\ (forall c s, Forall (fun r => is_post_json r = true)
                         (requests (handleScenarioChoice c s)))
  /\ (forall b s, Forall (fun r => is_post_json r = true)
                         (requests (handleSyllogismAnswer b s))).
Proof.
  split; [|split].
  - intros name al. unfold beginJourney.
    destruct (truthy_string (trim name)); constructor; [reflexivity|constructor].
  - intros c s. unfold handleScenarioChoice.
    destruct (playerState s); [|constructor].
    destruct (currentScenario s); constructor; [reflexivity|constructor].
  - intros b s. unfold handleSyllogismAnswer.
    destruct (playerState s); [|constructor].
    destruct (currentEnemy s); constructor; [reflexivity|constructor].
Qed.

(** What one event does to the list of requests sent. *)
Lemma app_step_traffic (a a' : App) (ev : Event) :
  app_step a ev = Some a' ->
  exists reqs,
    outbox a' = outbox a ++ reqs
    /\ Forall (fun r => is_post_json r = true) reqs.
Proof.
  destruct handler_requests_are_posts as (Hb & Hc & Ha).
  intros Hstep.
  assert (Hquiet : outbox a' = outbox a ->
                   exists reqs,
                     outbox a' = outbox a ++ reqs
                     /\ Forall (fun r => is_post_json r = true) reqs).
  { intros Ho. exists []. rewrite Ho, app_nil_r. auto. }
  page_step Hstep; try (apply Hquiet; simpl; auto; fail).
  - called. eexists. split; [eassumption|apply Hb].
  - called. eexists. split; [eassumption|apply Hc].
  - called. eexists. split; [eassumption|apply Ha].
Qed.

(** X14.  Every request the page sends is a POST with the JSON headers
    and a JSON object as its body, to [/player/create], [/action] or
    [/combat/syllogism]: in no state the page can reach has it sent a
    GET, so [getPlayerState] and [getScenarios] are never used. *)
Theorem the_page_sends_posts_only (host : string) (a : App)
  (Hreach : reachable host a) :
  Forall (fun r => is_post_json r = true) (outbox a).
Proof.
  destruct Hreach as [evs Hevs].
  refine (exec_preserves (fun a => Forall (fun r => is_post_json r = true) (outbox a))
            _ evs (initialApp host) a Hevs _); [|constructor].
  clear. intros a ev a' Hstep Hinv.
  destruct (app_step_traffic a a' ev Hstep) as (reqs & -> & Hreqs).
  apply Forall_app. auto.
Qed.

Lemma the_page_sends_posts_only_witness :
  exists a,
    exec (session 0.1 ++ [ClickAnswer true]) (initialApp "localhost") = Some a
    /\ length (outbox a) = 2%nat
    /\ Forall (fun r => is_post_json r = true) (outbox a).
Proof.
  eexists. split; [reflexivity|]. split; [reflexivity|].
  apply (the_page_sends_posts_only "localhost").
  exists (session 0.1 ++ [ClickAnswer true]). reflexivity.
Defined.

(* ========================================================================= *)
(** * Clicking twice                                                          *)
(* ========================================================================= *)

(** X17.  No button of the page waits for the answer to the request it
    sent.  In a fight, a second click on an answer button before the first
    request is answered sends a second request; both handlers are then
    suspended, and the state of the component has not changed. *)
Theorem a_second_click_sends_a_second_request
  (a : App) (answer answer' : bool) (player : PlayerState.t) (enemy : Enemy.t)
  (Hphase : gamePhase (rpg a) = combat)
  (Hplayer : playerState (rpg a) = Some player)
  (Henemy : currentEnemy (rpg a) = Some enemy) :
  exists a',
    exec [ClickAnswer answer; ClickAnswer answer'] a = Some a'
    /\ rpg a' = rpg a
    /\ outbox a'
       = outbox a
         ++ [ sent (resolveSyllogismCombat (PlayerState.playerId player)
                      "current_syllogism" answer (Enemy.enemyId enemy));
              sent (resolveSyllogismCombat (PlayerState.playerId player)
                      "current_syllogism" answer' (Enemy.enemyId enemy)) ]
    /\ inflight a'
       = inflight a
         ++ [ AwaitingSyllogismAnswer answer (rpg a);
              AwaitingSyllogismAnswer answer' (rpg a) ].
Proof.
  assert (Hh : forall b s, playerState s = Some player -> currentEnemy s = Some enemy ->
                requests (handleSyllogismAnswer b s)
                = [sent (resolveSyllogismCombat (PlayerState.playerId player)
                           "current_syllogism" b (Enemy.enemyId enemy))]
                /\ handleSyllogismAnswer b s <> Returned).
  { intros b s Hp He. unfold handleSyllogismAnswer. rewrite Hp, He.
    split; [reflexivity|discriminate]. }
  assert (Hstep : forall b a0, gamePhase (rpg a0) = combat ->
                    currentEnemy (rpg a0) = Some enemy ->
                    app_step a0 (ClickAnswer b)
                    = Some (call (handleSyllogismAnswer b (rpg a0))
                                 (AwaitingSyllogismAnswer b (rpg a0)) a0)).
  { intros b a0 Hph He. unfold app_step. rewrite Hph, He. reflexivity. }
  cbn [exec]. rewrite (Hstep answer a Hphase Henemy).
  set (a1 := call _ _ a).
  destruct (call_fields (handleSyllogismAnswer answer (rpg a))
              (AwaitingSyllogismAnswer answer (rpg a)) a
              (fun b r k H => handleSyllogismAnswer_before answer (rpg a) b r k (rpg a) H))
    as (Hrpg1 & _ & _ & _ & _ & _ & _ & _ & Hout1 & Hin1).
  fold a1 in Hrpg1, Hout1, Hin1.
  assert (Hphase1 : gamePhase (rpg a1) = combat) by (rewrite Hrpg1; exact Hphase).
  assert (Hplayer1 : playerState (rpg a1) = Some player) by (rewrite Hrpg1; exact Hplayer).
  assert (Henemy1 : currentEnemy (rpg a1) = Some enemy) by (rewrite Hrpg1; exact Henemy).
  rewrite (Hstep answer' a1 Hphase1 Henemy1).
  destruct (call_fields (handleSyllogismAnswer answer' (rpg a1))
              (AwaitingSyllogismAnswer answer' (rpg a1)) a1
              (fun b r k H => handleSyllogismAnswer_before answer' (rpg a1) b r k (rpg a1) H))
    as (Hrpg2 & _ & _ & _ & _ & _ & _ & _ & Hout2 & Hin2).
  destruct (Hh answer (rpg a) Hplayer Henemy) as [Hreq1 Hcall1].
  destruct (Hh answer' (rpg a1) Hplayer1 Henemy1) as [Hreq2 Hcall2].
  eexists. split; [reflexivity|].
  rewrite Hrpg2, Hout2, Hin2, Hout1, Hin1, Hreq1, Hreq2, <- !app_assoc.
  split; [exact Hrpg1|]. split; [reflexivity|].
  rewrite Hrpg1.
  destruct (handleSyllogismAnswer answer (rpg a)); [congruence|].
  destruct (handleSyllogismAnswer answer' (rpg a)) eqn:H2;
    [rewrite <- Hrpg1 in H2; congruence|].
  reflexivity.
Qed.

Lemma a_second_click_sends_a_second_request_witness :
  exists a a',
    exec (session 0.25) (initialApp "example.org") = Some a
    /\ exec [ClickAnswer true; ClickAnswer true] a = Some a'
    /\ length (outbox a') = 3%nat
    /\ length (inflight a') = 2%nat.
Proof.
  eexists.
  match goal with
  | |- exists a', exec ?evs ?init = Some ?a /\ _ =>
      assert (Ha : exec evs init = Some a) by reflexivity
  end.
  match type of Ha with
  | _ = Some ?a =>
      destruct (a_second_click_sends_a_second_request a true true sartre ghost_diogenes
                  eq_refl eq_refl eq_refl) as (a' & Hrun & _ & Hout & Hin);
        exists a'; split; [exact Ha|]; split; [exact Hrun|];
        rewrite Hout, Hin; split; reflexivity
  end.
Defined.

(* ========================================================================= *)
(** * More on the keyboard                                                    *)
(* ========================================================================= *)

Lemma lowerChar_idempotent (c : ascii) : lowerChar (lowerChar c) = lowerChar c.
Proof. destruct c as [[] [] [] [] [] [] [] []]; reflexivity. Qed.

Lemma toLowerCase_idempotent (s : string) : toLowerCase (toLowerCase s) = toLowerCase s.
Proof.
  induction s as [|c r IH]; simpl; [reflexivity|].
  rewrite lowerChar_idempotent, IH. reflexivity.
Qed.

(** X18.  The keyboard listener reads the key through [toLowerCase] only,
    so a key acts as its lower-case form does ('E' as 'e', 'ESCAPE' as
    'Escape'); a key other than the space bar, 'e' and 'Escape' does
    nothing at all; 'e' writes one line to the console in exploration and
    never changes the state; and no key sends a request, resumes a
    handler or touches the [Game] wrapper. *)
Theorem the_keyboard_has_three_keys
  (key : string) (random : number) (s : ClientState) :
  handleKeyPress (toLowerCase key) random s = handleKeyPress key random s
  /\ (toLowerCase key <> " " -> toLowerCase key <> "e" ->
      toLowerCase key <> "escape" ->
      handleKeyPress key random s = (s, []))
  /\ (toLowerCase key = "e" ->
      handleKeyPress key random s
      = (s, if isSome (playerState s) && is_exploration (gamePhase s)
            then [console_log "Examining surroundings..."] else []))
  /\ (forall a,
         exists a',
           app_step a (KeyDown key random) = Some a'
           /\ outbox a' = outbox a /\ inflight a' = inflight a
           /\ game_player a' = game_player a /\ showHelp a' = showHelp a
           /\ showDevPanel a' = showDevPanel a).
Proof.
  split; [unfold handleKeyPress; rewrite toLowerCase_idempotent; reflexivity|].
  split; [|split].
  - intros H1 H2 H3. unfold handleKeyPress.
    destruct (playerState s); [|reflexivity].
    apply String.eqb_neq in H1, H2, H3. rewrite H1, H2, H3. reflexivity.
  - intros H. unfold handleKeyPress. rewrite H.
    destruct (playerState s); [|reflexivity]. simpl.
    destruct (is_exploration (gamePhase s)); reflexivity.
  - intros a. unfold app_step.
    destruct (handleKeyPress key random (rpg a)) as [s' out].
    eexists. split; [reflexivity|]. simpl. auto.
Qed.

Lemma the_keyboard_has_three_keys_witness :
  handleKeyPress "ESCAPE" 0 in_combat = handleKeyPress "escape" 0 in_combat
  /\ handleKeyPress "Enter" 0 in_combat = (in_combat, []).
Proof.
  split.
  - rewrite <- (proj1 (the_keyboard_has_three_keys "ESCAPE" 0 in_combat)). reflexivity.
  - apply (proj1 (proj2 (the_keyboard_has_three_keys "Enter" 0 in_combat)));
      discriminate.
Defined.

(* ========================================================================= *)
(** * More on character creation                                              *)
(* ========================================================================= *)

(** X19.  For a name with a character that is not white space, the Begin
    Journey button is enabled and its click sends one request,
    [POST /player/create] with the JSON headers, whose [playerName] is the
    name as typed, white space around it included (the name is trimmed for
    the test only), and whose [initialAlignment] is the selected one.  When
    the answer carries a player, that player is held and the phase becomes
    'exploration', whatever the state is by then; scenario, enemy, side
    bar and last result stay as they are. *)
Theorem begin_journey_creates_the_player
  (name : string) (selectedAlignment : PhilosophicalAlignment)
  (Hname : allWhiteSpace name = false) :
  beginJourney_disabled name = false
  /\ requests (beginJourney name selectedAlignment)
     = [ {| url := "http://localhost:8080/api/player/create";
            init := {| RequestInit.method := Some "POST";
                       RequestInit.headers :=
                         Some [("Content-Type", "application/json");
                               ("Accept", "application/json")];
                       RequestInit.body :=
                         Some (JObject
                                 [("playerName", JString name);
                                  ("initialAlignment",
                                   JString (alignment_name selectedAlignment))]) |} |} ]
  /\ (forall o s newPlayer,
         body_of o = Some newPlayer ->
         resume_of (beginJourney name selectedAlignment) o s
         = ({| playerState := Some newPlayer;
               currentScenario := currentScenario s;
               currentEnemy := currentEnemy s;
               gamePhase := exploration;
               sidebarCollapsed := sidebarCollapsed s;
               lastCombatResult := lastCombatResult s |}, [])).
Proof.
  assert (Htrim : truthy_string (trim name) = true).
  { destruct (trim name) eqn:Ht; [|reflexivity].
    apply trim_empty_iff in Ht. congruence. }
  unfold beginJourney_disabled, beginJourney. rewrite Htrim.
  split; [reflexivity|]. split; [reflexivity|].
  intros o s newPlayer Hb. unfold handleCreatePlayer. rewrite try_await_resume.
  unfold createPlayer.
  rewrite (proj2 (apiRequest_fulfilled _ _ o newPlayer) Hb). reflexivity.
Qed.

Lemma begin_journey_creates_the_player_witness :
  body_field "playerName" (hd {| url := ""; init := RequestInit.empty |}
                              (requests (beginJourney " Sartre " Existentialist)))
  = Some (JString " Sartre ").
Proof.
  rewrite (proj1 (proj2 (begin_journey_creates_the_player " Sartre " Existentialist
                           eq_refl))).
  reflexivity.
Defined.

(* ========================================================================= *)
(** * More on the DevPanel                                                    *)
(* ========================================================================= *)

Lemma clickQuickTests_snoc (idxs : list nat) (idx : nat) (p : PlayerState.t) :
  clickQuickTests (idxs ++ [idx]) p
  = match clickQuickTests idxs p with
    | Some p1 => DevPanel.clickQuickTest idx p1
    | None => None
    end.
Proof.
  revert p. induction idxs as [|i idxs IH]; intros p; simpl.
  - destruct (DevPanel.clickQuickTest idx p); reflexivity.
  - destruct (DevPanel.clickQuickTest i p); [apply IH|reflexivity].
Qed.

Lemma clickQuickTests_frame (idxs : list nat) (p p' : PlayerState.t) :
  clickQuickTests idxs p = Some p' ->
  exists al v,
    p' = DevPanel.spread p
           {| DevPanel.philosophicalAlignment := al;
              DevPanel.authenticityMetric :=
                {| AuthenticityMetric.value := v;
                   AuthenticityMetric.history :=
                     AuthenticityMetric.history (PlayerState.authenticityMetric p);
                   AuthenticityMetric.permanentMarkers :=
                     if existsb (Nat.eqb 1) idxs
                     then [Hypocrite; Hedonist] else markers p |} |}.
Proof.
  revert p. induction idxs as [|idx idxs IH]; intros p Hclicks.
  - simpl in Hclicks. injection Hclicks as <-.
    exists (PlayerState.philosophicalAlignment p), (authenticity p).
    destruct p as [? ? ? ? ? ? ? [? ? ?] ? ? ? ? ? ?]. reflexivity.
  - simpl in Hclicks.
    destruct (DevPanel.clickQuickTest idx p) as [p1|] eqn:H1; [|discriminate].
    destruct (IH p1 Hclicks) as (al & v & ->). exists al, v.
    destruct (clickQuickTest_cases idx p p1 H1) as [[-> ->]|[[-> ->]|[-> ->]]];
      cbn [existsb Nat.eqb orb]; try reflexivity.
    unfold DevPanel.spread, markers, DevPanel.with_value_markers; cbn.
    match goal with
    | |- context [if ?b then _ else _] => destruct b
    end; reflexivity.
Qed.

(** X20.  Quick test buttons clicked one after the other, each on the
    player the click before handed to [onStateChange]: the player that
    results differs from the first one in alignment, authenticity value
    and markers at most (identity, statistics, inventory, fallacies and
    the authenticity history are kept); its markers are [Hypocrite,
    Hedonist] if 'Corrupted Nihilist' was among the clicks and the
    original ones otherwise, so no quick test takes these two marks away
    again; and its alignment and authenticity value are those of the last
    button clicked. *)
Theorem quick_tests_in_sequence
  (idxs : list nat) (p p' : PlayerState.t)
  (Hclicks : clickQuickTests idxs p = Some p') :
  p' = DevPanel.spread p
         {| DevPanel.philosophicalAlignment := PlayerState.philosophicalAlignment p';
            DevPanel.authenticityMetric :=
              {| AuthenticityMetric.value := authenticity p';
                 AuthenticityMetric.history :=
                   AuthenticityMetric.history (PlayerState.authenticityMetric p);
                 AuthenticityMetric.permanentMarkers :=
                   if existsb (Nat.eqb 1) idxs
                   then [Hypocrite; Hedonist] else markers p |} |}
  /\ (forall before idx,
         idxs = before ++ [idx] ->
         nth_error [(Utilitarian, 95); (Nihilist, 25); (Existentialist, 60)] idx
         = Some (PlayerState.philosophicalAlignment p', authenticity p')).
Proof.
  split.
  - destruct (clickQuickTests_frame idxs p p' Hclicks) as (al & v & ->). reflexivity.
  - intros before idx ->. rewrite clickQuickTests_snoc in Hclicks.
    destruct (clickQuickTests before p) as [p1|]; [|discriminate].
    destruct (clickQuickTest_cases idx p1 p' Hclicks) as [[-> ->]|[[-> ->]|[-> ->]]];
      reflexivity.
Qed.

Lemma quick_tests_in_sequence_witness :
  exists p',
    clickQuickTests [1; 0; 2]%nat sartre_sophist = Some p'
    /\ markers p' = [Hypocrite; Hedonist]
    /\ PlayerState.philosophicalAlignment p' = Existentialist
    /\ authenticity p' = 60.
Proof.
  eexists. split; [reflexivity|].
  match goal with
  | |- markers ?p' = _ /\ _ =>
      destruct (quick_tests_in_sequence [1; 0; 2]%nat sartre_sophist p' eq_refl)
        as [Hframe Hlast]
  end.
  split; [rewrite Hframe at 1; reflexivity|].
  specialize (Hlast [1; 0]%nat 2%nat eq_refl).
  split.
  - exact (f_equal (fun o => match o with Some (al, _) => al | None => Undecided end)
             (eq_sym Hlast)).
  - exact (f_equal (fun o => match o with Some (_, v) => v | None => 0 end)
             (eq_sym Hlast)).
Defined.

(* ========================================================================= *)
(** * The useGameState hook                                                   *)
(* ========================================================================= *)

(** X21.  [refreshPlayerState] of [useGameState].  Without a player id
    ([null] or the empty string) it returns at once and sends nothing.
    With one it sets [loading], sends a request without method or body
    (a GET) to [/player/] followed by the id as it is, and when the
    request settles [loading] is false again, whatever the outcome; on a
    player it holds that player and clears the error, and otherwise it
    keeps the player it held and stores the message of the error, logging
    nothing. *)
Theorem refreshPlayerState_settles (playerId : string) :
  UseGameState.refreshPlayerState None = Returned
  /\ UseGameState.refreshPlayerState (Some "") = Returned
  /\ (playerId <> "" ->
      exists resume_,
        UseGameState.refreshPlayerState (Some playerId)
        = Awaiting (UseGameState.setLoading true)
            {| url := "http://localhost:8080/api/player/" ++ playerId;
               init := {| RequestInit.method := None;
                          RequestInit.headers :=
                            Some [("Content-Type", "application/json");
                                  ("Accept", "application/json")];
                          RequestInit.body := None |} |}
            resume_
        /\ forall o s,
             snd (resume_ o s) = []
             /\ UseGameState.loading (fst (resume_ o s)) = false
             /\ match body_of o with
                | Some state =>
                    UseGameState.playerState (fst (resume_ o s)) = Some state
                    /\ UseGameState.error (fst (resume_ o s)) = None
                | None =>
                    UseGameState.playerState (fst (resume_ o s))
                    = UseGameState.playerState s
                    /\ exists err,
                         settle (getPlayerState playerId) o = Rejected err
                         /\ UseGameState.error (fst (resume_ o s)) = Some (message err)
                end).
Proof.
  split; [reflexivity|]. split; [reflexivity|].
  intros Hid. unfold UseGameState.refreshPlayerState.
  destruct playerId as [|c r]; [congruence|]. cbn [truthy_string negb].
  eexists. split; [reflexivity|].
  intros o s. cbn beta. split; [reflexivity|]. split; [reflexivity|].
  destruct (body_of o) as [state|] eqn:Hb.
  - unfold getPlayerState.
    rewrite (proj2 (apiRequest_fulfilled _ _ o state) Hb). split; reflexivity.
  - unfold getPlayerState.
    destruct (apiRequest_rejected ("/player/" ++ String c r) RequestInit.empty o Hb)
      as [e He].
    rewrite He. split; [reflexivity|]. exists e. split; reflexivity.
Qed.

Lemma refreshPlayerState_settles_witness :
  requests (UseGameState.refreshPlayerState (Some "player-1"))
  = [ {| url := "http://localhost:8080/api/player/player-1";
         init := {| RequestInit.method := None;
                    RequestInit.headers := Some (createHeaders tt);
                    RequestInit.body := None |} |} ].
Proof.
  destruct (proj2 (proj2 (refreshPlayerState_settles "player-1")))
    as (k & -> & _); [discriminate|reflexivity].
Defined.
